(** * DE1 simulator: protocol engine and radio agent

    A shallow embedding of the DE1 BLE simulator (the Controller of
    [main.cpp] and the Radio Agent of [pi-daemon/de1-ble-daemon.cpp],
    together with the copy of the agent that [main.cpp] embeds for
    deployment) and the properties its specification states about it.

    Conventions of the embedding:
    - a [QByteArray] is a [list byte]; [uint8_t], [uint16_t], [uint32_t]
      and [int] values are integers of [Z] within the range of their type;
    - the [enum class] types [State] and [SubState] have [uint8_t] as
      their underlying type and are obtained from payload bytes by
      [static_cast], so they are the byte itself, with named constants;
    - a [double] is the rational of [Q] it denotes. The codecs multiply
      and divide by powers of two only, which is exact on finite doubles,
      so on these the rational functions agree with the floating-point
      ones (the one division by ten, in [decodeF8_1_7], is kept exact).
      The simulated values are computed with the operations of [Double],
      which round each result to the nearest double;
    - the member fields of [DE1Simulator] are the fields of the record
      [Engine]; a handler is a function from [Engine] to [Engine];
    - the log is the list of the lines appended to the log view, oldest
      first, each an entry carrying the category and the data a message
      is formatted from (the time stamp and the formatting are left out).
      What the widget shows of these lines (the last 1000, and none from
      before a click on Clear Log) is display state that no handler reads
      back, and is left out; what is written on the socket is a list of
      commands;
    - display widgets (labels, button check marks, the profile view) hold
      no state any handler reads back and are left out. *)

From Stdlib Require Import ZArith QArith Qround Qabs Qpower Lia Lqa List
  String Ascii.
From Stdlib Require Import Strings.Byte.
From Stdlib Require Import Permutation.
From stdpp Require Import base list strings gmap.

Local Open Scope Z_scope.

(** ** Bytes and fixed-width integers *)

Definition QByteArray := list byte.

(** [static_cast<uint8_t>(b)] of a payload byte. *)
Definition u8 (b : byte) : Z := Z.of_N (Byte.to_N b).

(** [static_cast<char>(z)] / [static_cast<uint8_t>(z)] of an integer: the
    low eight bits. *)
Definition to_byte (z : Z) : byte :=
  match Byte.of_N (Z.to_N (z mod 256)) with
  | Some b => b
  | None => x00
  end.

(** [d[i]] for [i] within the array (the handlers check the size first);
    out of range the model reads 0. *)
Definition at_ (d : QByteArray) (i : nat) : byte := nth i d x00.

(** [QByteArray(n, 0)]. *)
Definition zeros (n : nat) : QByteArray := repeat x00 n.

(** ** Binary codec (namespace [BinaryCodec]) *)

Module BinaryCodec.

Definition Qltb (a b : Q) : bool := negb (Qle_bool b a).

(** [qMin(a, b)] is [(a < b) ? a : b], [qMax(a, b)] is [(a < b) ? b : a]. *)
Definition qMin (a b : Q) : Q := if Qltb a b then a else b.
Definition qMax (a b : Q) : Q := if Qltb a b then b else a.

(** [qBound(min, val, max)] is [qMax(min, qMin(max, val))]. *)
Definition qBound (lo v hi : Q) : Q := qMax lo (qMin hi v).

(** Conversion of a floating-point value to an integer type discards
    the fractional part (truncation toward zero). *)
Definition Qtruncate (x : Q) : Z :=
  if Qle_bool 0 x then Qfloor x else Qceiling x.

(** [static_cast<uintN_t>(x)]; defined by C++ only when the truncated
    value fits the type, which the clamp before each use ensures. The
    model reduces modulo [2^N] otherwise. *)
Definition cast_uint (bits : Z) (x : Q) : Z := Qtruncate x mod 2 ^ bits.

Definition encodeU8P4 (value : Q) : Z :=
  cast_uint 8 (qBound 0 (value * 16) 255).

Definition decodeU8P4 (value : Z) : Q := inject_Z value / 16.

Definition encodeU16P12 (value : Q) : Z :=
  cast_uint 16 (qBound 0 (value * 4096) 65535).

Definition encodeU16P8 (value : Q) : Z :=
  cast_uint 16 (qBound 0 (value * 256) 65535).

Definition decodeU16P8 (value : Z) : Q := inject_Z value / 256.

Definition decodeU8P1 (value : Z) : Q := inject_Z value / 2.

Definition encodeU24P16 (value : Q) : QByteArray :=
  let encoded := cast_uint 32 (qBound 0 (value * 65536) 16777215) in
  [ to_byte (Z.land (Z.shiftr encoded 16) 255);
    to_byte (Z.land (Z.shiftr encoded 8) 255);
    to_byte (Z.land encoded 255) ].

Definition encodeShortBE (value : Z) : QByteArray :=
  [ to_byte (Z.land (Z.shiftr value 8) 255);
    to_byte (Z.land value 255) ].

(** [decodeShortBE(data)] reads [data[0]] and [data[1]]. *)
Definition decodeShortBE (d0 d1 : byte) : Z :=
  Z.lor (Z.shiftl (u8 d0) 8) (u8 d1).

Definition encodeUint32BE (value : Z) : QByteArray :=
  [ to_byte (Z.land (Z.shiftr value 24) 255);
    to_byte (Z.land (Z.shiftr value 16) 255);
    to_byte (Z.land (Z.shiftr value 8) 255);
    to_byte (Z.land value 255) ].

(** [decodeAddress(data)] reads [data[0..3)]. *)
Definition decodeAddress (d0 d1 d2 : byte) : Z :=
  Z.lor (Z.lor (Z.shiftl (u8 d0) 16) (Z.shiftl (u8 d1) 8)) (u8 d2).

Definition decodeF8_1_7 (value : Z) : Q :=
  if Z.eqb (Z.land value 128) 0
  then inject_Z value / 10
  else inject_Z (Z.land value 127).

Definition decodeU10P0 (d0 d1 : byte) : Z :=
  Z.land (decodeShortBE d0 d1) 1023.

End BinaryCodec.

(** ** Arithmetic of [double]

    IEEE 754 binary64 with rounding to nearest, ties to even: each
    operation yields the rational it would on the reals, rounded to 53
    significant bits. The exponent range is left out: no operation of
    the simulator overflows, and the only one that can underflow, the
    product of a sine below 2^-1022 with 0.5, is then added to 2.0,
    where the sum is 2.0 either way. A decimal literal of the source is
    the rounding of its value, as the compiler makes it. *)

Module Double.

(** Round half to even, to an integer. *)
Definition rne (q : Q) : Z :=
  let f := Qfloor q in
  match (q - inject_Z f ?= 1 # 2)%Q with
  | Lt => f
  | Gt => f + 1
  | Eq => if Z.even f then f else f + 1
  end.

(** The exponent [e] of a positive rational: [2^e <= x < 2^(e+1)]. *)
Definition ilog2 (x : Q) : Z :=
  let e0 := Z.log2 (Qnum x) - Z.log2 (Zpos (Qden x)) in
  if Qle_bool (2 ^ e0) x then e0 else e0 - 1.

(** The nearest number with a significand of 53 bits, for [0 < x]. *)
Definition round_pos (x : Q) : Q :=
  let e := ilog2 x in
  (inject_Z (rne (x * 2 ^ (52 - e))) * 2 ^ (e - 52))%Q.

Definition round64 (x : Q) : Q :=
  Qred match (x ?= 0)%Q with
       | Eq => 0
       | Gt => round_pos x
       | Lt => - round_pos (- x)
       end.

Definition add (a b : Q) : Q := round64 (a + b).
Definition sub (a b : Q) : Q := round64 (a - b).
Definition mul (a b : Q) : Q := round64 (a * b).
Definition div (a b : Q) : Q := round64 (a / b).

(** [static_cast<int>(x)]: the fractional part is discarded; defined by
    C++ only when the result fits [int]. The model wraps it into the
    32 bits of [int] otherwise. *)
Definition to_int (x : Q) : Z :=
  (BinaryCodec.Qtruncate x + 2 ^ 31) mod 2 ^ 32 - 2 ^ 31.

End Double.

Arguments Double.round64 : simpl never.
Arguments Double.add : simpl never.
Arguments Double.sub : simpl never.
Arguments Double.mul : simpl never.
Arguments Double.div : simpl never.
Arguments Double.to_int : simpl never.

(** ** Constants of the DE1 protocol (namespace [DE1]) *)

Module DE1.

(** Characteristic short IDs (four hex digits). *)
Definition CHAR_VERSION : string := "A001".
Definition CHAR_REQUESTED_STATE : string := "A002".
Definition CHAR_READ_FROM_MMR : string := "A005".
Definition CHAR_WRITE_TO_MMR : string := "A006".
Definition CHAR_SHOT_SETTINGS : string := "A00B".
Definition CHAR_SHOT_SAMPLE : string := "A00D".
Definition CHAR_STATE_INFO : string := "A00E".
Definition CHAR_HEADER_WRITE : string := "A00F".
Definition CHAR_FRAME_WRITE : string := "A010".
Definition CHAR_WATER_LEVELS : string := "A011".

(** [enum class State : uint8_t]. *)
Definition State := byte.

Module State.
Definition Sleep : State := x00.
Definition GoingToSleep : State := x01.
Definition Idle : State := x02.
Definition Busy : State := x03.
Definition Espresso : State := x04.
Definition Steam : State := x05.
Definition HotWater : State := x06.
Definition ShortCal : State := x07.
Definition SelfTest : State := x08.
Definition LongCal : State := x09.
Definition Descale : State := x0a.
Definition FatalError : State := x0b.
Definition Init : State := x0c.
Definition NoRequest : State := x0d.
Definition SkipToNext : State := x0e.
Definition HotWaterRinse : State := x0f.
Definition SteamRinse : State := x10.
Definition Refill : State := x11.
Definition Clean : State := x12.
Definition InBootLoader : State := x13.
Definition AirPurge : State := x14.
Definition SchedIdle : State := x15.
End State.

(** [enum class SubState : uint8_t]. *)
Definition SubState := byte.

Module SubState.
Definition Ready : SubState := x00.
Definition Heating : SubState := x01.
Definition FinalHeating : SubState := x02.
Definition Stabilising : SubState := x03.
Definition Preinfusion : SubState := x04.
Definition Pouring : SubState := x05.
Definition Ending : SubState := x06.
Definition Steaming : SubState := x07.
Definition DescaleInit : SubState := x08.
Definition DescaleFillGroup : SubState := x09.
Definition DescaleReturn : SubState := x0a.
Definition DescaleGroup : SubState := x0b.
Definition DescaleSteam : SubState := x0c.
Definition CleanInit : SubState := x0d.
Definition CleanFillGroup : SubState := x0e.
Definition CleanSoak : SubState := x0f.
Definition CleanGroup : SubState := x10.
Definition RefillState : SubState := x11.
Definition PausedSteam : SubState := x12.
Definition UserNotPresent : SubState := x13.
Definition Puffing : SubState := x14.
End SubState.

(** MMR addresses. *)
Module MMR.
Definition CPU_BOARD_MODEL : Z := 0x800008.
Definition MACHINE_MODEL : Z := 0x80000C.
Definition FIRMWARE_VERSION : Z := 0x800010.
Definition FAN_THRESHOLD : Z := 0x803808.
Definition GHC_INFO : Z := 0x80381C.
Definition GHC_MODE : Z := 0x803820.
Definition STEAM_FLOW : Z := 0x803828.
Definition SERIAL_NUMBER : Z := 0x803830.
Definition HEATER_VOLTAGE : Z := 0x803834.
Definition USB_CHARGER : Z := 0x803854.
Definition REFILL_KIT : Z := 0x80385C.
End MMR.

End DE1.

(** ** Profile records *)

Record ProfileFrame := mkProfileFrame {
  frameIndex : Z;
  flags : Z;
  setVal : Q;
  temp : Q;
  duration : Q;
  triggerVal : Q;
  maxVol : Z;
  hasExtension : bool;
  limiterValue : Q;
  limiterRange : Q
}.

(** The default member initialisers of [ProfileFrame]. *)
Definition defaultFrame : ProfileFrame :=
  {| frameIndex := 0; flags := 0; setVal := 0; temp := 0; duration := 0;
     triggerVal := 0; maxVol := 0; hasExtension := false;
     limiterValue := 0; limiterRange := 0 |}.

Inductive PumpMode := Pressure | Flow.

Definition pumpMode (f : ProfileFrame) : PumpMode :=
  if Z.eqb (Z.land (flags f) 1) 0 then Pressure else Flow.

Definition hasExitCondition (f : ProfileFrame) : bool :=
  negb (Z.eqb (Z.land (flags f) 2) 0).

Record ProfileHeader := mkProfileHeader {
  headerV : Z;
  numFrames : Z;
  numPreinfuseFrames : Z;
  minPressure : Q;
  maxFlow : Q
}.

Definition defaultHeader : ProfileHeader :=
  {| headerV := 0; numFrames := 0; numPreinfuseFrames := 0;
     minPressure := 0; maxFlow := 0 |}.

(** ** The Controller ([class DE1Simulator]) *)

(** The five items of the GHC status combo box and the data each holds. *)
Inductive GhcItem :=
| GhcNotInstalled | GhcPresentUnused | GhcInstalledInactive
| GhcPresentActive | GhcDebugMode.

(** [m_ghcCombo->currentData().toInt()]. *)
Definition currentData (g : GhcItem) : Z :=
  match g with
  | GhcNotInstalled => 0
  | GhcPresentUnused => 1
  | GhcInstalledInactive => 2
  | GhcPresentActive => 3
  | GhcDebugMode => 4
  end.

Inductive LogCategory := INFO | RX | TX | PI | WARN | ERROR.

(** What each log line is formatted from. *)
Inductive LogMsg :=
| MsgRequestedState (requested : DE1.State)
| MsgGhcBlocked (requested : DE1.State)
| MsgMmrRead (address : Z)
| MsgMmrResponse (address : Z)
| MsgMmrWrite (address val : Z)
| MsgHeaderInvalidSize (size : nat)
| MsgHeaderWrite (h : ProfileHeader)
| MsgFrameInvalidSize (size : nat)
| MsgFrameExt (actualIdx : Z) (limiter range : Q)
| MsgFrameTail
| MsgFrameWrite (frameIdx : Z) (frame : ProfileFrame)
| MsgFrameOutOfRange (frameIdx : Z)
| MsgShotSettingsInvalidSize (size : nat)
| MsgShotSettings (steamTemp steamDuration hotWaterTemp hotWaterVol
                   espressoVol : Z) (groupTemp : Q)
| MsgOtherWrite (charId : string) (value : QByteArray)
| MsgStateInfo (s : DE1.State) (ss : DE1.SubState)
| MsgJsonParseError
| MsgPiReady (version : string)
| MsgAdvertising
| MsgBleConnected (client : string)
| MsgBleDisconnected
| MsgCharRead (charId : string)
| MsgPiBleError (code : Z)
| MsgSocketConnected
| MsgSocketDisconnected.

Record LogEntry := mkLog { category : LogCategory; message : LogMsg }.

(** A command object handed to [sendCommand]; the simulator builds only
    [{"cmd":"notify","char":...,"data":...}]. *)
Inductive Command :=
| CmdNotify (charId : string) (data : QByteArray).

(** The simulated values. *)
Record SimValues := mkSim {
  m_pressure : Q;
  m_flow : Q;
  m_temperature : Q;
  m_setTemp : Q;
  m_setPressure : Q;
  m_setFlow : Q;
  m_shotTimer_s : Q;
  m_waterLevel : Q;
  m_steamTemp : Q;
  m_frameNumber : Z
}.

Definition initialSim : SimValues :=
  {| m_pressure := 0; m_flow := 0; m_temperature := 93; m_setTemp := 93;
     m_setPressure := 9; m_setFlow := 2; m_shotTimer_s := 0;
     m_waterLevel := 75; m_steamTemp := 0; m_frameNumber := 0 |}.

(** The state of the simulator.
    - [socketConnected]: [m_socket->state() == ConnectedState];
    - [controlsEnabled]: the operator buttons are enabled;
    - [shotTimerActive], [waterTimerActive]: the two periodic timers
      (200 ms and 5000 ms) are running;
    - [phaseTimer]: [Some ms] when the single-shot phase timer is armed
      with interval [ms];
    - [logView]: the lines appended to the log view, oldest first;
    - [socketOut]: the commands written on the socket, oldest first. *)
Record Engine := mkEngine {
  socketConnected : bool;
  controlsEnabled : bool;
  m_tcpBuffer : QByteArray;
  m_currentState : DE1.State;
  m_currentSubState : DE1.SubState;
  m_profileHeader : ProfileHeader;
  m_profileFrames : list ProfileFrame;
  sim : SimValues;
  shotTimerActive : bool;
  phaseTimer : option Z;
  waterTimerActive : bool;
  ghcCombo : GhcItem;
  logView : list LogEntry;
  socketOut : list Command
}.

(** The simulator as constructed: state (Idle, Ready), no profile, the
    timers created but not started, GHC item 3 selected. *)
Definition initialEngine : Engine :=
  {| socketConnected := false; controlsEnabled := false; m_tcpBuffer := [];
     m_currentState := DE1.State.Idle; m_currentSubState := DE1.SubState.Ready;
     m_profileHeader := defaultHeader; m_profileFrames := [];
     sim := initialSim;
     shotTimerActive := false; phaseTimer := None; waterTimerActive := false;
     ghcCombo := GhcPresentActive; logView := []; socketOut := [] |}.

Module Simulator.

(** *** Field updates *)

Definition with_socket (c : bool) (e : Engine) : Engine :=
  mkEngine c (controlsEnabled e) (m_tcpBuffer e) (m_currentState e)
    (m_currentSubState e) (m_profileHeader e) (m_profileFrames e) (sim e)
    (shotTimerActive e) (phaseTimer e) (waterTimerActive e) (ghcCombo e)
    (logView e) (socketOut e).

Definition with_controls (c : bool) (e : Engine) : Engine :=
  mkEngine (socketConnected e) c (m_tcpBuffer e) (m_currentState e)
    (m_currentSubState e) (m_profileHeader e) (m_profileFrames e) (sim e)
    (shotTimerActive e) (phaseTimer e) (waterTimerActive e) (ghcCombo e)
    (logView e) (socketOut e).

Definition with_buffer (b : QByteArray) (e : Engine) : Engine :=
  mkEngine (socketConnected e) (controlsEnabled e) b (m_currentState e)
    (m_currentSubState e) (m_profileHeader e) (m_profileFrames e) (sim e)
    (shotTimerActive e) (phaseTimer e) (waterTimerActive e) (ghcCombo e)
    (logView e) (socketOut e).

Definition with_state (s : DE1.State) (ss : DE1.SubState) (e : Engine)
  : Engine :=
  mkEngine (socketConnected e) (controlsEnabled e) (m_tcpBuffer e) s ss
    (m_profileHeader e) (m_profileFrames e) (sim e)
    (shotTimerActive e) (phaseTimer e) (waterTimerActive e) (ghcCombo e)
    (logView e) (socketOut e).

Definition with_header (h : ProfileHeader) (e : Engine) : Engine :=
  mkEngine (socketConnected e) (controlsEnabled e) (m_tcpBuffer e)
    (m_currentState e) (m_currentSubState e) h (m_profileFrames e) (sim e)
    (shotTimerActive e) (phaseTimer e) (waterTimerActive e) (ghcCombo e)
    (logView e) (socketOut e).

Definition with_frames (fs : list ProfileFrame) (e : Engine) : Engine :=
  mkEngine (socketConnected e) (controlsEnabled e) (m_tcpBuffer e)
    (m_currentState e) (m_currentSubState e) (m_profileHeader e) fs (sim e)
    (shotTimerActive e) (phaseTimer e) (waterTimerActive e) (ghcCombo e)
    (logView e) (socketOut e).

Definition with_sim (v : SimValues) (e : Engine) : Engine :=
  mkEngine (socketConnected e) (controlsEnabled e) (m_tcpBuffer e)
    (m_currentState e) (m_currentSubState e) (m_profileHeader e)
    (m_profileFrames e) v
    (shotTimerActive e) (phaseTimer e) (waterTimerActive e) (ghcCombo e)
    (logView e) (socketOut e).

Definition with_shotTimer (a : bool) (e : Engine) : Engine :=
  mkEngine (socketConnected e) (controlsEnabled e) (m_tcpBuffer e)
    (m_currentState e) (m_currentSubState e) (m_profileHeader e)
    (m_profileFrames e) (sim e)
    a (phaseTimer e) (waterTimerActive e) (ghcCombo e)
    (logView e) (socketOut e).

Definition with_phaseTimer (t : option Z) (e : Engine) : Engine :=
  mkEngine (socketConnected e) (controlsEnabled e) (m_tcpBuffer e)
    (m_currentState e) (m_currentSubState e) (m_profileHeader e)
    (m_profileFrames e) (sim e)
    (shotTimerActive e) t (waterTimerActive e) (ghcCombo e)
    (logView e) (socketOut e).

Definition with_waterTimer (a : bool) (e : Engine) : Engine :=
  mkEngine (socketConnected e) (controlsEnabled e) (m_tcpBuffer e)
    (m_currentState e) (m_currentSubState e) (m_profileHeader e)
    (m_profileFrames e) (sim e)
    (shotTimerActive e) (phaseTimer e) a (ghcCombo e)
    (logView e) (socketOut e).

Definition with_ghc (g : GhcItem) (e : Engine) : Engine :=
  mkEngine (socketConnected e) (controlsEnabled e) (m_tcpBuffer e)
    (m_currentState e) (m_currentSubState e) (m_profileHeader e)
    (m_profileFrames e) (sim e)
    (shotTimerActive e) (phaseTimer e) (waterTimerActive e) g
    (logView e) (socketOut e).

Definition with_log (l : list LogEntry) (e : Engine) : Engine :=
  mkEngine (socketConnected e) (controlsEnabled e) (m_tcpBuffer e)
    (m_currentState e) (m_currentSubState e) (m_profileHeader e)
    (m_profileFrames e) (sim e)
    (shotTimerActive e) (phaseTimer e) (waterTimerActive e) (ghcCombo e)
    l (socketOut e).

Definition with_out (o : list Command) (e : Engine) : Engine :=
  mkEngine (socketConnected e) (controlsEnabled e) (m_tcpBuffer e)
    (m_currentState e) (m_currentSubState e) (m_profileHeader e)
    (m_profileFrames e) (sim e)
    (shotTimerActive e) (phaseTimer e) (waterTimerActive e) (ghcCombo e)
    (logView e) o.

(** *** Logging and sending *)

(** [m_logView->appendPlainText(formatted)]: one more line appended. *)
Definition log (msg : LogMsg) (cat : LogCategory) (e : Engine) : Engine :=
  with_log (logView e ++ [mkLog cat msg]) e.

Definition logRx (msg : LogMsg) : Engine -> Engine := log msg RX.
Definition logTx (msg : LogMsg) : Engine -> Engine := log msg TX.
Definition logPi (msg : LogMsg) : Engine -> Engine := log msg PI.

Definition sendCommand (cmd : Command) (e : Engine) : Engine :=
  if socketConnected e then with_out (socketOut e ++ [cmd]) e else e.

Definition sendNotification (charId : string) (data : QByteArray)
  : Engine -> Engine :=
  sendCommand (CmdNotify charId data).

Definition sendStateNotification (e : Engine) : Engine :=
  let data := [m_currentState e; m_currentSubState e] in
  logTx (MsgStateInfo (m_currentState e) (m_currentSubState e))
    (sendNotification DE1.CHAR_STATE_INFO data e).

Definition sendWaterLevel (e : Engine) : Engine :=
  if socketConnected e then
    let waterMm :=
      Double.sub (Double.mul (Double.div (m_waterLevel (sim e)) 100) 40) 5
    in
    let encoded := BinaryCodec.encodeU16P8 waterMm in
    sendNotification DE1.CHAR_WATER_LEVELS
      (BinaryCodec.encodeShortBE encoded) e
  else e.

Definition transitionToState (state : DE1.State) (subState : DE1.SubState)
    (e : Engine) : Engine :=
  sendStateNotification (with_state state subState e).

(** *** Inbound characteristic writes *)

Definition handleRequestedState (requested : DE1.State) (e : Engine)
  : Engine :=
  let ghcStatus := currentData (ghcCombo e) in
  if (ghcStatus =? 3)
     && negb (Byte.eqb requested DE1.State.Sleep)
     && negb (Byte.eqb requested DE1.State.Idle)
  then log (MsgGhcBlocked requested) WARN e
  else transitionToState requested DE1.SubState.Ready e.

Definition handleMMRReadRequest (value : QByteArray) (e : Engine)
  : Engine :=
  if (length value <? 4)%nat then e
  else
    let address :=
      BinaryCodec.decodeAddress (at_ value 1) (at_ value 2) (at_ value 3) in
    let e1 := logRx (MsgMmrRead address) e in
    let response :=
      list_inserts 0 (BinaryCodec.encodeUint32BE address) (zeros 8) in
    let response :=
      if address =? DE1.MMR.GHC_INFO then
        <[4%nat := to_byte (currentData (ghcCombo e))]> response
      else if address =? DE1.MMR.USB_CHARGER then
        <[4%nat := to_byte 1]> response
      else if address =? DE1.MMR.MACHINE_MODEL then
        <[4%nat := to_byte 2]> response
      else if address =? DE1.MMR.FIRMWARE_VERSION then
        <[7%nat := to_byte 0]>
          (<[6%nat := to_byte 0]>
             (<[5%nat := to_byte 0]> (<[4%nat := to_byte 1]> response)))
      else response in
    logTx (MsgMmrResponse address)
      (sendNotification DE1.CHAR_READ_FROM_MMR response e1).

Definition handleMMRWrite (value : QByteArray) (e : Engine) : Engine :=
  if (length value <? 8)%nat then e
  else
    let address :=
      BinaryCodec.decodeAddress (at_ value 1) (at_ value 2) (at_ value 3) in
    let val :=
      Z.lor (Z.lor (Z.lor (u8 (at_ value 4))
                          (Z.shiftl (u8 (at_ value 5)) 8))
                   (Z.shiftl (u8 (at_ value 6)) 16))
            (Z.shiftl (u8 (at_ value 7)) 24) in
    logRx (MsgMmrWrite address val) e.

Definition handleHeaderWrite (value : QByteArray) (e : Engine) : Engine :=
  if (length value <? 5)%nat then
    logRx (MsgHeaderInvalidSize (length value)) e
  else
    let h :=
      {| headerV := u8 (at_ value 0);
         numFrames := u8 (at_ value 1);
         numPreinfuseFrames := u8 (at_ value 2);
         minPressure := BinaryCodec.decodeU8P4 (u8 (at_ value 3));
         maxFlow := BinaryCodec.decodeU8P4 (u8 (at_ value 4)) |} in
    (* clear(), then resize(numFrames): default-constructed frames *)
    let frames := replicate (Z.to_nat (numFrames h)) defaultFrame in
    logRx (MsgHeaderWrite h) (with_frames frames (with_header h e)).

(** The assignments of the extension branch to [m_profileFrames[i]]. *)
Definition setExtension (d : QByteArray) (f : ProfileFrame)
  : ProfileFrame :=
  {| frameIndex := frameIndex f; flags := flags f; setVal := setVal f;
     temp := temp f; duration := duration f; triggerVal := triggerVal f;
     maxVol := maxVol f;
     hasExtension := true;
     limiterValue := BinaryCodec.decodeU8P4 (u8 (at_ d 1));
     limiterRange := BinaryCodec.decodeU8P4 (u8 (at_ d 2)) |}.

(** The assignments of the primary branch to [m_profileFrames[i]]. *)
Definition setPrimary (frameIdx : Z) (d : QByteArray) (f : ProfileFrame)
  : ProfileFrame :=
  {| frameIndex := frameIdx;
     flags := u8 (at_ d 1);
     setVal := BinaryCodec.decodeU8P4 (u8 (at_ d 2));
     temp := BinaryCodec.decodeU8P1 (u8 (at_ d 3));
     duration := BinaryCodec.decodeF8_1_7 (u8 (at_ d 4));
     triggerVal := BinaryCodec.decodeU8P4 (u8 (at_ d 5));
     maxVol := BinaryCodec.decodeU10P0 (at_ d 6) (at_ d 7);
     hasExtension := hasExtension f;
     limiterValue := limiterValue f;
     limiterRange := limiterRange f |}.

Definition handleFrameWrite (value : QByteArray) (e : Engine) : Engine :=
  if (length value <? 8)%nat then
    logRx (MsgFrameInvalidSize (length value)) e
  else
    let frameIdx := u8 (at_ value 0) in
    let size := Z.of_nat (length (m_profileFrames e)) in
    if 32 <=? frameIdx then
      let actualIdx := frameIdx - 32 in
      if actualIdx <? size then
        let frames :=
          alter (setExtension value) (Z.to_nat actualIdx)
            (m_profileFrames e) in
        logRx (MsgFrameExt actualIdx
                 (BinaryCodec.decodeU8P4 (u8 (at_ value 1)))
                 (BinaryCodec.decodeU8P4 (u8 (at_ value 2))))
          (with_frames frames e)
      else e
    else if frameIdx =? numFrames (m_profileHeader e) then
      logRx MsgFrameTail e
    else if frameIdx <? size then
      let frames :=
        alter (setPrimary frameIdx value) (Z.to_nat frameIdx)
          (m_profileFrames e) in
      logRx (MsgFrameWrite frameIdx
               (setPrimary frameIdx value
                  (nth (Z.to_nat frameIdx) (m_profileFrames e)
                     defaultFrame)))
        (with_frames frames e)
    else
      logRx (MsgFrameOutOfRange frameIdx) e.

Definition handleShotSettings (value : QByteArray) (e : Engine) : Engine :=
  if (length value <? 9)%nat then
    logRx (MsgShotSettingsInvalidSize (length value)) e
  else
    let groupTemp :=
      (inject_Z (BinaryCodec.decodeShortBE (at_ value 7) (at_ value 8))
       / 256)%Q in
    logRx (MsgShotSettings (u8 (at_ value 1)) (u8 (at_ value 2))
             (u8 (at_ value 3)) (u8 (at_ value 4)) (u8 (at_ value 6))
             groupTemp) e.

Definition handleCharacteristicWrite (charId : string) (value : QByteArray)
    (e : Engine) : Engine :=
  if String.eqb charId DE1.CHAR_REQUESTED_STATE then
    if (1 <=? length value)%nat then
      let requestedState : DE1.State := at_ value 0 in
      handleRequestedState requestedState
        (logRx (MsgRequestedState requestedState) e)
    else e
  else if String.eqb charId DE1.CHAR_READ_FROM_MMR then
    handleMMRReadRequest value e
  else if String.eqb charId DE1.CHAR_WRITE_TO_MMR then
    handleMMRWrite value e
  else if String.eqb charId DE1.CHAR_HEADER_WRITE then
    handleHeaderWrite value e
  else if String.eqb charId DE1.CHAR_FRAME_WRITE then
    handleFrameWrite value e
  else if String.eqb charId DE1.CHAR_SHOT_SETTINGS then
    handleShotSettings value e
  else
    logRx (MsgOtherWrite charId value) e.

(** *** Operations and the phase scheduler *)

(** [m_pressure = p; m_flow = f; m_steamTemp = st; m_frameNumber = n]
    and the like: the simulated values with some fields replaced. *)
Definition resetLive (timer : Q) (v : SimValues) : SimValues :=
  {| m_pressure := 0; m_flow := 0; m_temperature := m_temperature v;
     m_setTemp := m_setTemp v; m_setPressure := m_setPressure v;
     m_setFlow := m_setFlow v; m_shotTimer_s := timer;
     m_waterLevel := m_waterLevel v; m_steamTemp := m_steamTemp v;
     m_frameNumber := 0 |}.

Definition zeroLive (v : SimValues) : SimValues :=
  {| m_pressure := 0; m_flow := 0; m_temperature := m_temperature v;
     m_setTemp := m_setTemp v; m_setPressure := m_setPressure v;
     m_setFlow := m_setFlow v; m_shotTimer_s := m_shotTimer_s v;
     m_waterLevel := m_waterLevel v; m_steamTemp := 0;
     m_frameNumber := 0 |}.

Definition startOperation (state : DE1.State) (e : Engine) : Engine :=
  if negb (Byte.eqb (m_currentState e) DE1.State.Idle)
     && negb (Byte.eqb (m_currentState e) DE1.State.Sleep)
  then e
  else
    let e1 := with_sim (resetLive 0 (sim e)) e in
    let e2 :=
      if Byte.eqb state DE1.State.Espresso then
        with_phaseTimer (Some 2000)
          (transitionToState DE1.State.Espresso DE1.SubState.Heating e1)
      else if Byte.eqb state DE1.State.Steam then
        with_phaseTimer (Some 45000)
          (transitionToState DE1.State.Steam DE1.SubState.Steaming e1)
      else if Byte.eqb state DE1.State.HotWater then
        with_phaseTimer (Some 30000)
          (transitionToState DE1.State.HotWater DE1.SubState.Pouring e1)
      else if Byte.eqb state DE1.State.HotWaterRinse then
        with_phaseTimer (Some 10000)
          (transitionToState DE1.State.HotWaterRinse DE1.SubState.Pouring
             e1)
      else e1 in
    with_shotTimer true e2.

Definition stopOperation (e : Engine) : Engine :=
  let e1 := with_phaseTimer None (with_shotTimer false e) in
  let e2 := with_sim (zeroLive (sim e1)) e1 in
  transitionToState DE1.State.Idle DE1.SubState.Ready e2.

Definition onPhaseTimeout (e : Engine) : Engine :=
  if Byte.eqb (m_currentState e) DE1.State.Espresso then
    if Byte.eqb (m_currentSubState e) DE1.SubState.Heating then
      with_phaseTimer (Some 5000)
        (transitionToState DE1.State.Espresso DE1.SubState.Preinfusion e)
    else if Byte.eqb (m_currentSubState e) DE1.SubState.Preinfusion then
      with_phaseTimer (Some 25000)
        (transitionToState DE1.State.Espresso DE1.SubState.Pouring e)
    else if Byte.eqb (m_currentSubState e) DE1.SubState.Pouring then
      with_phaseTimer (Some 2000)
        (transitionToState DE1.State.Espresso DE1.SubState.Ending e)
    else if Byte.eqb (m_currentSubState e) DE1.SubState.Ending then
      stopOperation e
    else e
  else if Byte.eqb (m_currentState e) DE1.State.Steam then
    stopOperation e
  else if Byte.eqb (m_currentState e) DE1.State.HotWater then
    stopOperation e
  else if Byte.eqb (m_currentState e) DE1.State.HotWaterRinse then
    stopOperation e
  else e.

(** *** Operator commands *)

Definition onPowerClicked (e : Engine) : Engine :=
  if Byte.eqb (m_currentState e) DE1.State.Sleep then
    transitionToState DE1.State.Idle DE1.SubState.Ready e
  else
    transitionToState DE1.State.Sleep DE1.SubState.Ready (stopOperation e).

Definition onEspressoClicked (e : Engine) : Engine :=
  if Byte.eqb (m_currentState e) DE1.State.Espresso then stopOperation e
  else startOperation DE1.State.Espresso e.

Definition onSteamClicked (e : Engine) : Engine :=
  if Byte.eqb (m_currentState e) DE1.State.Steam then stopOperation e
  else startOperation DE1.State.Steam e.

Definition onHotWaterClicked (e : Engine) : Engine :=
  if Byte.eqb (m_currentState e) DE1.State.HotWater then stopOperation e
  else startOperation DE1.State.HotWater e.

Definition onFlushClicked (e : Engine) : Engine :=
  if Byte.eqb (m_currentState e) DE1.State.HotWaterRinse
  then stopOperation e
  else startOperation DE1.State.HotWaterRinse e.

Definition onStopClicked (e : Engine) : Engine := stopOperation e.

(** *** Socket life cycle *)

Definition onConnected (e : Engine) : Engine :=
  with_waterTimer true
    (with_controls true (log MsgSocketConnected INFO e)).

Definition onDisconnected (e : Engine) : Engine :=
  with_waterTimer false
    (with_phaseTimer None
       (with_shotTimer false
          (with_controls false (log MsgSocketDisconnected INFO e)))).

(** *** Telemetry, and the events of the control channel

    Three library functions are taken as parameters: the sine of
    [<QtMath>], the JSON parser and the hexadecimal decoder of Qt. *)

(** A JSON value as far as the simulator inspects it. *)
Inductive QJsonValue :=
| JString (s : string)
| JInt (z : Z)
| JOther.

Definition QJsonObject := gmap string QJsonValue.

(** [obj[key].toString()] and [obj[key].toInt()]: the default of the
    type when the key is absent or holds something else. *)
Definition toString (v : option QJsonValue) : string :=
  match v with Some (JString s) => s | _ => EmptyString end.

Definition toInt (v : option QJsonValue) : Z :=
  match v with Some (JInt z) => z | _ => 0 end.

(** [buf.indexOf(c)]: [None] stands for -1. *)
Fixpoint indexOf (c : byte) (buf : QByteArray) : option nat :=
  match buf with
  | [] => None
  | b :: rest =>
      if Byte.eqb b c then Some O
      else match indexOf c rest with
           | Some i => Some (S i)
           | None => None
           end
  end.

Inductive TimerEvent := PhaseTimeout | ShotTick | WaterTick.

Section Library.

(** [qSin]. *)
Variable qSin : Q -> Q.

(** [QJsonDocument::fromJson(line, &err).object()], [None] when
    [err.error != NoError]. *)
Variable fromJson : QByteArray -> option QJsonObject.

(** [QByteArray::fromHex(s.toLatin1())]. *)
Variable fromHex : string -> QByteArray.

Definition updateSimulationValues (e : Engine) : Engine :=
  let v := sim e in
  let t := m_shotTimer_s v in
  if Byte.eqb (m_currentState e) DE1.State.Espresso then
    if Byte.eqb (m_currentSubState e) DE1.SubState.Preinfusion then
      with_sim
        {| m_pressure :=
             BinaryCodec.qMin 4 (Double.mul t (Double.round64 (8 # 10)));
           m_flow := 2;
           m_temperature := m_temperature v; m_setTemp := m_setTemp v;
           m_setPressure := 4; m_setFlow := 2;
           m_shotTimer_s := t; m_waterLevel := m_waterLevel v;
           m_steamTemp := m_steamTemp v;
           m_frameNumber := m_frameNumber v |} e
    else if Byte.eqb (m_currentSubState e) DE1.SubState.Pouring then
      let pouringTime := Double.sub t 7 in
      with_sim
        {| m_pressure :=
             Double.add 8
               (Double.mul (qSin (Double.mul pouringTime (5 # 10))) 1);
           m_flow :=
             Double.add 2
               (Double.mul
                  (qSin (Double.mul pouringTime (Double.round64 (3 # 10))))
                  (5 # 10));
           m_temperature := m_temperature v; m_setTemp := m_setTemp v;
           m_setPressure := 9; m_setFlow := 2;
           m_shotTimer_s := t; m_waterLevel := m_waterLevel v;
           m_steamTemp := m_steamTemp v;
           m_frameNumber :=
             Z.min 5 (Double.to_int (Double.div pouringTime 5) + 1) |} e
    else if Byte.eqb (m_currentSubState e) DE1.SubState.Ending then
      with_sim
        {| m_pressure :=
             BinaryCodec.qMax 0 (Double.sub (m_pressure v) (5 # 10));
           m_flow :=
             BinaryCodec.qMax 0
               (Double.sub (m_flow v) (Double.round64 (3 # 10)));
           m_temperature := m_temperature v; m_setTemp := m_setTemp v;
           m_setPressure := m_setPressure v; m_setFlow := m_setFlow v;
           m_shotTimer_s := t; m_waterLevel := m_waterLevel v;
           m_steamTemp := m_steamTemp v;
           m_frameNumber := m_frameNumber v |} e
    else e
  else if Byte.eqb (m_currentState e) DE1.State.Steam then
    with_sim
      {| m_pressure := 15 # 10; m_flow := 0;
         m_temperature := m_temperature v; m_setTemp := m_setTemp v;
         m_setPressure := m_setPressure v; m_setFlow := m_setFlow v;
         m_shotTimer_s := t; m_waterLevel := m_waterLevel v;
         m_steamTemp :=
           BinaryCodec.qMin 150 (Double.add 100 (Double.mul t 2));
         m_frameNumber := m_frameNumber v |} e
  else if Byte.eqb (m_currentState e) DE1.State.HotWater then
    with_sim
      {| m_pressure := 5 # 10; m_flow := 6;
         m_temperature := m_temperature v; m_setTemp := m_setTemp v;
         m_setPressure := m_setPressure v; m_setFlow := m_setFlow v;
         m_shotTimer_s := t; m_waterLevel := m_waterLevel v;
         m_steamTemp := m_steamTemp v;
         m_frameNumber := m_frameNumber v |} e
  else if Byte.eqb (m_currentState e) DE1.State.HotWaterRinse then
    with_sim
      {| m_pressure := 1; m_flow := 8;
         m_temperature := m_temperature v; m_setTemp := m_setTemp v;
         m_setPressure := m_setPressure v; m_setFlow := m_setFlow v;
         m_shotTimer_s := t; m_waterLevel := m_waterLevel v;
         m_steamTemp := m_steamTemp v;
         m_frameNumber := m_frameNumber v |} e
  else e.

Definition sendShotSample (e : Engine) : Engine :=
  if socketConnected e then
    let v := sim e in
    let timerEncoded :=
      BinaryCodec.cast_uint 16 (Double.mul (m_shotTimer_s v) 100) in
    let u16p8 x := BinaryCodec.encodeShortBE (BinaryCodec.encodeU16P8 x) in
    let u16p12 x :=
      BinaryCodec.encodeShortBE (BinaryCodec.encodeU16P12 x) in
    let data :=
      BinaryCodec.encodeShortBE timerEncoded
      ++ u16p12 (m_pressure v)
      ++ u16p12 (m_flow v)
      ++ u16p8 (m_temperature v)
      ++ BinaryCodec.encodeU24P16 (m_temperature v)
      ++ u16p8 (m_setTemp v)
      ++ u16p8 (m_setTemp v)
      ++ [ to_byte (BinaryCodec.encodeU8P4 (m_setPressure v));
           to_byte (BinaryCodec.encodeU8P4 (m_setFlow v));
           to_byte (m_frameNumber v);
           to_byte (BinaryCodec.cast_uint 8 (m_steamTemp v)) ] in
    sendNotification DE1.CHAR_SHOT_SAMPLE data e
  else e.

Definition onShotTimerTick (e : Engine) : Engine :=
  let v := sim e in
  let v' :=
    {| m_pressure := m_pressure v; m_flow := m_flow v;
       m_temperature := m_temperature v; m_setTemp := m_setTemp v;
       m_setPressure := m_setPressure v; m_setFlow := m_setFlow v;
       m_shotTimer_s :=
         Double.add (m_shotTimer_s v) (Double.round64 (2 # 10));
       m_waterLevel := m_waterLevel v; m_steamTemp := m_steamTemp v;
       m_frameNumber := m_frameNumber v |} in
  sendShotSample (updateSimulationValues (with_sim v' e)).

Definition handlePiEvent (event : QJsonObject) (e : Engine) : Engine :=
  let type := toString (event !! "event"%string) in
  if String.eqb type "ready" then
    sendWaterLevel
      (sendStateNotification
         (logPi (MsgPiReady (toString (event !! "version"%string))) e))
  else if String.eqb type "advertising" then
    logPi MsgAdvertising e
  else if String.eqb type "connected" then
    logPi (MsgBleConnected (toString (event !! "client"%string))) e
  else if String.eqb type "disconnected" then
    logPi MsgBleDisconnected e
  else if String.eqb type "write" then
    handleCharacteristicWrite (toString (event !! "char"%string))
      (fromHex (toString (event !! "data"%string))) e
  else if String.eqb type "read" then
    logRx (MsgCharRead (toString (event !! "char"%string))) e
  else if String.eqb type "error" then
    log (MsgPiBleError (toInt (event !! "code"%string))) ERROR e
  else e.

(** The loop of [onDataReceived]: each iteration removes one line
    from the front of [m_tcpBuffer]. [fuel] bounds the number of
    iterations; [None] is returned only when it runs out. *)
Fixpoint drainBuffer (fuel : nat) (e : Engine) : option Engine :=
  match fuel with
  | O => None
  | S fuel' =>
      match indexOf x0a (m_tcpBuffer e) with
      | None => Some e
      | Some idx =>
          let line := take idx (m_tcpBuffer e) in
          let e1 := with_buffer (drop (S idx) (m_tcpBuffer e)) e in
          match line with
          | [] => drainBuffer fuel' e1
          | _ :: _ =>
              match fromJson line with
              | None =>
                  drainBuffer fuel' (log MsgJsonParseError ERROR e1)
              | Some obj => drainBuffer fuel' (handlePiEvent obj e1)
              end
          end
      end
  end.

(** [onDataReceived], with [received] the result of
    [m_socket->readAll()]. Every iteration consumes at least the
    newline it found, so one more than the buffer length is fuel
    enough. *)
Definition onDataReceived (received : QByteArray) (e : Engine)
  : option Engine :=
  let buf := m_tcpBuffer e ++ received in
  drainBuffer (S (length buf)) (with_buffer buf e).

(** *** The timers as the scheduler sees them

    A timer fires only while it is active; the phase timer is
    single-shot, so it is inactive when its handler runs. *)
Definition fireTimer (ev : TimerEvent) (e : Engine) : option Engine :=
  match ev with
  | PhaseTimeout =>
      match phaseTimer e with
      | Some _ => Some (onPhaseTimeout (with_phaseTimer None e))
      | None => None
      end
  | ShotTick =>
      if shotTimerActive e then Some (onShotTimerTick e) else None
  | WaterTick =>
      if waterTimerActive e then Some (sendWaterLevel e) else None
  end.

(** A schedule of timer events, run from left to right; [None] when
    some event of the schedule is one of a timer that is not active. *)
Fixpoint runTimers (evs : list TimerEvent) (e : Engine) : option Engine :=
  match evs with
  | [] => Some e
  | ev :: rest =>
      match fireTimer ev e with
      | Some e' => runTimers rest e'
      | None => None
      end
  end.

End Library.

(** The (state, substate) pairs of the STATE_INFO lines of the log,
    oldest first: one per call of [sendStateNotification]. *)
Definition stateInfoLog (e : Engine) : list (DE1.State * DE1.SubState) :=
  omap (fun entry =>
          match message entry with
          | MsgStateInfo s ss => Some (s, ss)
          | _ => None
          end) (logView e).

End Simulator.

(** ** The Radio Agent ([class DE1BleDaemon])

    The repository holds the agent twice: the program of
    [pi-daemon/de1-ble-daemon.cpp], and the source text [DAEMON_CPP] that
    [main.cpp] embeds and the setup dialog installs on the Pi. *)

(** An event object handed to [sendToWindows]. *)
Inductive AgentEvent :=
| EvReady (version : string)
| EvAdvertising
| EvConnected (client : string)
| EvDisconnected
| EvWrite (charId : string) (data : QByteArray)
| EvRead (charId : string)
| EvError (code : Z).

(** A command object of the control channel after parsing. *)
Inductive AgentCommand :=
| ANotify (charId : string) (data : QByteArray)
| AUpdate (charId : string) (data : QByteArray)
| AStart
| AStop
| AUnknown (action : string).

(** What the event loop of the agent delivers to it. *)
Inductive AgentInput :=
| InTcpConnection (socket : nat)
| InTcpDisconnected
| InBleConnected (address : string)
| InBleDisconnected
| InBleError (code : Z)
| InCharChanged (charId : string) (value : QByteArray)
| InCharRead (charId : string)
| InCommand (cmd : AgentCommand).

(** The state of the agent.
    - [m_tcpClient]: the attached Controller socket ([None] is [nullptr]);
    - [serviceCreated]: [m_de1Service] is not null;
    - [advertising]: the last request made to the BLE controller was
      [startAdvertising] (true) or [stopAdvertising] (false);
    - [central]: the address of the connected BLE central, if any;
    - [characteristics]: the value of each characteristic, by short ID;
    - [toWindows]: the events written to the Controller, oldest first. *)
Record Agent := mkAgent {
  m_tcpClient : option nat;
  serviceCreated : bool;
  advertising : bool;
  central : option string;
  characteristics : gmap string QByteArray;
  toWindows : list AgentEvent
}.

Module AgentFields.

Definition with_client (c : option nat) (a : Agent) : Agent :=
  mkAgent c (serviceCreated a) (advertising a) (central a)
    (characteristics a) (toWindows a).

Definition with_advertising (b : bool) (a : Agent) : Agent :=
  mkAgent (m_tcpClient a) (serviceCreated a) b (central a)
    (characteristics a) (toWindows a).

Definition with_central (c : option string) (a : Agent) : Agent :=
  mkAgent (m_tcpClient a) (serviceCreated a) (advertising a) c
    (characteristics a) (toWindows a).

Definition with_characteristics (m : gmap string QByteArray) (a : Agent)
  : Agent :=
  mkAgent (m_tcpClient a) (serviceCreated a) (advertising a) (central a)
    m (toWindows a).

Definition with_toWindows (l : list AgentEvent) (a : Agent) : Agent :=
  mkAgent (m_tcpClient a) (serviceCreated a) (advertising a) (central a)
    (characteristics a) l.

(** [m_de1Service->writeCharacteristic(c, data)] for a characteristic
    found valid. *)
Definition writeCharacteristic (charId : string) (data : QByteArray)
    (a : Agent) : Agent :=
  match characteristics a !! charId with
  | Some _ => with_characteristics (<[charId := data]> (characteristics a)) a
  | None => a
  end.

End AgentFields.

(** The agent of [pi-daemon/de1-ble-daemon.cpp]. *)
Module PiDaemon.
Import AgentFields.

Definition createDE1Service : gmap string QByteArray :=
  list_to_map
    [ (DE1.CHAR_VERSION, [x02; x01; x00; x00]);
      (DE1.CHAR_REQUESTED_STATE, zeros 1);
      (DE1.CHAR_READ_FROM_MMR, zeros 8);
      (DE1.CHAR_WRITE_TO_MMR, zeros 8);
      (DE1.CHAR_SHOT_SETTINGS, zeros 8);
      (DE1.CHAR_SHOT_SAMPLE, zeros 19);
      (DE1.CHAR_STATE_INFO, [x02; x00]);
      (DE1.CHAR_HEADER_WRITE, zeros 5);
      (DE1.CHAR_FRAME_WRITE, zeros 8);
      (DE1.CHAR_WATER_LEVELS, [x4b; x00]) ].

(** The agent after its constructor, with the service created. *)
Definition boot : Agent :=
  {| m_tcpClient := None; serviceCreated := true; advertising := false;
     central := None; characteristics := createDE1Service;
     toWindows := [] |}.

(** The socket of a client is in [ConnectedState] from its acceptance
    until the [disconnected] handler clears [m_tcpClient]. *)
Definition sendToWindows (ev : AgentEvent) (a : Agent) : Agent :=
  match m_tcpClient a with
  | None => a
  | Some _ => with_toWindows (toWindows a ++ [ev]) a
  end.

Definition startAdvertising (a : Agent) : Agent :=
  if serviceCreated a
  then sendToWindows EvAdvertising (with_advertising true a)
  else a.

Definition stopAdvertising (a : Agent) : Agent := with_advertising false a.

Definition onTcpConnection (socket : nat) (a : Agent) : Agent :=
  match m_tcpClient a with
  | Some _ => a
  | None => sendToWindows (EvReady "1.0.0") (with_client (Some socket) a)
  end.

(** The handler connected to [QTcpSocket::disconnected]. *)
Definition onTcpDisconnected (a : Agent) : Agent := with_client None a.

Definition onBleConnected (address : string) (a : Agent) : Agent :=
  sendToWindows (EvConnected address) (with_central (Some address) a).

Definition onBleDisconnected (a : Agent) : Agent :=
  startAdvertising (sendToWindows EvDisconnected (with_central None a)).

Definition onBleError (code : Z) (a : Agent) : Agent :=
  sendToWindows (EvError code) a.

Definition onCharacteristicChanged (charId : string) (value : QByteArray)
    (a : Agent) : Agent :=
  sendToWindows (EvWrite charId value) a.

Definition onCharacteristicRead (charId : string) (a : Agent) : Agent :=
  sendToWindows (EvRead charId) a.

Definition sendNotification (charId : string) (data : QByteArray)
    (a : Agent) : Agent :=
  if serviceCreated a then writeCharacteristic charId data a else a.

Definition updateCharacteristic (charId : string) (data : QByteArray)
    (a : Agent) : Agent :=
  if serviceCreated a then writeCharacteristic charId data a else a.

Definition handleCommand (cmd : AgentCommand) (a : Agent) : Agent :=
  match cmd with
  | ANotify charId data => sendNotification charId data a
  | AUpdate charId data => updateCharacteristic charId data a
  | AStart => startAdvertising a
  | AStop => stopAdvertising a
  | AUnknown _ => a
  end.

(** One turn of the event loop. The [disconnected] handler exists only
    for the attached socket, and [onTcpData] returns at once when no
    client is attached. *)
Definition step (i : AgentInput) (a : Agent) : Agent :=
  match i with
  | InTcpConnection socket => onTcpConnection socket a
  | InTcpDisconnected =>
      match m_tcpClient a with
      | Some _ => onTcpDisconnected a
      | None => a
      end
  | InBleConnected address => onBleConnected address a
  | InBleDisconnected => onBleDisconnected a
  | InBleError code => onBleError code a
  | InCharChanged charId value => onCharacteristicChanged charId value a
  | InCharRead charId => onCharacteristicRead charId a
  | InCommand cmd =>
      match m_tcpClient a with
      | Some _ => handleCommand cmd a
      | None => a
      end
  end.

Definition run (inputs : list AgentInput) (a : Agent) : Agent :=
  fold_left (fun acc i => step i acc) inputs a.

End PiDaemon.

(** The agent of the embedded text [DAEMON_CPP]. *)
Module EmbeddedDaemon.
Import AgentFields.

Definition createDE1Service : gmap string QByteArray :=
  list_to_map
    [ (DE1.CHAR_VERSION, [x02; x01; x00; x00]);
      (DE1.CHAR_REQUESTED_STATE, zeros 1);
      (DE1.CHAR_READ_FROM_MMR, zeros 20);
      (DE1.CHAR_WRITE_TO_MMR, zeros 20);
      (DE1.CHAR_SHOT_SETTINGS, zeros 9);
      (DE1.CHAR_SHOT_SAMPLE, zeros 19);
      (DE1.CHAR_STATE_INFO, [x02; x00]);
      (DE1.CHAR_HEADER_WRITE, zeros 5);
      (DE1.CHAR_FRAME_WRITE, zeros 8);
      (DE1.CHAR_WATER_LEVELS, [x4b; x00]) ].

Definition boot : Agent :=
  {| m_tcpClient := None; serviceCreated := true; advertising := false;
     central := None; characteristics := createDE1Service;
     toWindows := [] |}.

Definition sendToWindows (ev : AgentEvent) (a : Agent) : Agent :=
  match m_tcpClient a with
  | None => a
  | Some _ => with_toWindows (toWindows a ++ [ev]) a
  end.

Definition startAdvertising (a : Agent) : Agent :=
  sendToWindows EvAdvertising (with_advertising true a).

Definition onTcpConnection (socket : nat) (a : Agent) : Agent :=
  match m_tcpClient a with
  | Some _ => a
  | None =>
      startAdvertising
        (sendToWindows (EvReady "1.0.0") (with_client (Some socket) a))
  end.

(** The handler connected to [QTcpSocket::disconnected]:
    [m_tcpClient = nullptr; m_bleController->stopAdvertising();]. *)
Definition onTcpDisconnected (a : Agent) : Agent :=
  with_advertising false (with_client None a).

Definition onBleConnected (address : string) (a : Agent) : Agent :=
  sendToWindows (EvConnected address) (with_central (Some address) a).

Definition onBleDisconnected (a : Agent) : Agent :=
  startAdvertising (sendToWindows EvDisconnected (with_central None a)).

Definition onCharChanged (charId : string) (value : QByteArray)
    (a : Agent) : Agent :=
  sendToWindows (EvWrite charId value) a.

(** [onTcpData] acts on [notify] and [update] only. *)
Definition handleCommand (cmd : AgentCommand) (a : Agent) : Agent :=
  match cmd with
  | ANotify charId data | AUpdate charId data =>
      writeCharacteristic charId data a
  | AStart | AStop | AUnknown _ => a
  end.

(** One turn of the event loop; this agent has no handler for BLE
    errors or characteristic reads. *)
Definition step (i : AgentInput) (a : Agent) : Agent :=
  match i with
  | InTcpConnection socket => onTcpConnection socket a
  | InTcpDisconnected =>
      match m_tcpClient a with
      | Some _ => onTcpDisconnected a
      | None => a
      end
  | InBleConnected address => onBleConnected address a
  | InBleDisconnected => onBleDisconnected a
  | InBleError _ => a
  | InCharChanged charId value => onCharChanged charId value a
  | InCharRead _ => a
  | InCommand cmd =>
      match m_tcpClient a with
      | Some _ => handleCommand cmd a
      | None => a
      end
  end.

Definition run (inputs : list AgentInput) (a : Agent) : Agent :=
  fold_left (fun acc i => step i acc) inputs a.

End EmbeddedDaemon.

(** ** The properties of the characteristics

    What [createDE1Service] passes to [setProperties] for each
    characteristic, in the two copies of the agent. *)

Module Registry.

Inductive Property := Read | Write | Notify.

Definition piProperties : gmap string (list Property) :=
  list_to_map
    [ (DE1.CHAR_VERSION, [Read]);
      (DE1.CHAR_REQUESTED_STATE, [Write]);
      (DE1.CHAR_READ_FROM_MMR, [Read; Notify]);
      (DE1.CHAR_WRITE_TO_MMR, [Write]);
      (DE1.CHAR_SHOT_SETTINGS, [Read; Write]);
      (DE1.CHAR_SHOT_SAMPLE, [Notify]);
      (DE1.CHAR_STATE_INFO, [Read; Notify]);
      (DE1.CHAR_HEADER_WRITE, [Write]);
      (DE1.CHAR_FRAME_WRITE, [Write]);
      (DE1.CHAR_WATER_LEVELS, [Read; Notify]) ].

Definition embeddedProperties : gmap string (list Property) :=
  list_to_map
    [ (DE1.CHAR_VERSION, [Read]);
      (DE1.CHAR_REQUESTED_STATE, [Write]);
      (DE1.CHAR_READ_FROM_MMR, [Read; Notify; Write]);
      (DE1.CHAR_WRITE_TO_MMR, [Write]);
      (DE1.CHAR_SHOT_SETTINGS, [Read; Write]);
      (DE1.CHAR_SHOT_SAMPLE, [Notify]);
      (DE1.CHAR_STATE_INFO, [Read; Notify]);
      (DE1.CHAR_HEADER_WRITE, [Write]);
      (DE1.CHAR_FRAME_WRITE, [Write]);
      (DE1.CHAR_WATER_LEVELS, [Read; Notify]) ].

End Registry.

(** ** The event loop of the Controller

    What the Qt event loop delivers to the simulator: a timer that
    fires, bytes that arrive on the socket, a click on a button, a
    selection in the GHC combo box, and the socket changing state.
    Left out are the events that touch nothing of the engine but its
    log: the Connect button (a log line; it acts on the socket, whose
    change of state is an event here), a socket error (a log line and
    a label), the menu, and the Clear Log button (it empties what the
    log view shows). *)

Module EventLoop.

Inductive Event :=
| EvTimer (t : Simulator.TimerEvent)
| EvReadyRead (received : QByteArray)
| EvPowerClicked
| EvEspressoClicked
| EvSteamClicked
| EvHotWaterClicked
| EvFlushClicked
| EvStopClicked
| EvGhcSelected (g : GhcItem)
| EvSocketConnected
| EvSocketDisconnected.

Section Library.

Variable qSin : Q -> Q.
Variable fromJson : QByteArray -> option Simulator.QJsonObject.
Variable fromHex : string -> QByteArray.

(** One turn of the event loop; [None] when the event cannot happen in
    the state: a timer that is not active, data on a socket that is not
    connected, a click on a disabled button (the buttons are enabled by
    [onConnected] and disabled by [onDisconnected]), a socket connecting
    or disconnecting twice. The socket changes its state before it
    signals, and no other event comes between the two (every write is
    flushed, so a closing socket has nothing left to send). *)
Definition step (ev : Event) (e : Engine) : option Engine :=
  match ev with
  | EvTimer t => Simulator.fireTimer qSin t e
  | EvReadyRead received =>
      if socketConnected e
      then Simulator.onDataReceived fromJson fromHex received e
      else None
  | EvPowerClicked =>
      if controlsEnabled e then Some (Simulator.onPowerClicked e) else None
  | EvEspressoClicked =>
      if controlsEnabled e then Some (Simulator.onEspressoClicked e)
      else None
  | EvSteamClicked =>
      if controlsEnabled e then Some (Simulator.onSteamClicked e) else None
  | EvHotWaterClicked =>
      if controlsEnabled e then Some (Simulator.onHotWaterClicked e)
      else None
  | EvFlushClicked =>
      if controlsEnabled e then Some (Simulator.onFlushClicked e) else None
  | EvStopClicked =>
      if controlsEnabled e then Some (Simulator.onStopClicked e) else None
  | EvGhcSelected g => Some (Simulator.with_ghc g e)
  | EvSocketConnected =>
      if socketConnected e then None
      else Some (Simulator.onConnected (Simulator.with_socket true e))
  | EvSocketDisconnected =>
      if socketConnected e
      then Some (Simulator.onDisconnected (Simulator.with_socket false e))
      else None
  end.

(** A sequence of events, oldest first. *)
Fixpoint run (evs : list Event) (e : Engine) : option Engine :=
  match evs with
  | [] => Some e
  | ev :: rest =>
      match step ev e with
      | Some e' => run rest e'
      | None => None
      end
  end.

End Library.

End EventLoop.

(** ** The objects of the control channel

    The JSON objects the two programs build for each other. The
    hexadecimal encoder of Qt ([QByteArray::toHex]) is a parameter. *)

Module Bridge.

Section Library.

Variable toHex : QByteArray -> string.
Variable fromHex : string -> QByteArray.

(** The object [sendNotification] of the simulator hands to
    [sendCommand]. *)
Definition commandObject (c : Command) : Simulator.QJsonObject :=
  match c with
  | CmdNotify charId data =>
      <["data"%string := Simulator.JString (toHex data)]>
        (<["char"%string := Simulator.JString charId]>
           (<["cmd"%string := Simulator.JString "notify"]> ∅))
  end.

(** The object [sendToWindows] of the agent builds: the key [event],
    then the keys of the data map of each call site. *)
Definition eventObject (ev : AgentEvent) : Simulator.QJsonObject :=
  match ev with
  | EvReady version =>
      <["version"%string := Simulator.JString version]>
        (<["event"%string := Simulator.JString "ready"]> ∅)
  | EvAdvertising =>
      <["event"%string := Simulator.JString "advertising"]> ∅
  | EvConnected client =>
      <["client"%string := Simulator.JString client]>
        (<["event"%string := Simulator.JString "connected"]> ∅)
  | EvDisconnected =>
      <["event"%string := Simulator.JString "disconnected"]> ∅
  | EvWrite charId data =>
      <["data"%string := Simulator.JString (toHex data)]>
        (<["char"%string := Simulator.JString charId]>
           (<["event"%string := Simulator.JString "write"]> ∅))
  | EvRead charId =>
      <["char"%string := Simulator.JString charId]>
        (<["event"%string := Simulator.JString "read"]> ∅)
  | EvError code =>
      <["code"%string := Simulator.JInt code]>
        (<["event"%string := Simulator.JString "error"]> ∅)
  end.

(** The dispatch of [DE1BleDaemon::handleCommand] on the string under
    [cmd], with the arguments it reads for each action. *)
Definition parseCommand (cmd : Simulator.QJsonObject) : AgentCommand :=
  let action := Simulator.toString (cmd !! "cmd"%string) in
  if String.eqb action "notify" then
    ANotify (Simulator.toString (cmd !! "char"%string))
      (fromHex (Simulator.toString (cmd !! "data"%string)))
  else if String.eqb action "update" then
    AUpdate (Simulator.toString (cmd !! "char"%string))
      (fromHex (Simulator.toString (cmd !! "data"%string)))
  else if String.eqb action "start" then AStart
  else if String.eqb action "stop" then AStop
  else AUnknown action.

End Library.

End Bridge.

(** * Properties *)

Import Simulator.

(** ** Vocabulary of the statements *)

(** The engine as constructed, with the Controller link up and item [g]
    selected in the GHC combo box. *)
Definition idleEngine (g : GhcItem) : Engine :=
  with_ghc g (with_socket true initialEngine).

(** Whether the gate of [handleRequestedState] lets a request through. *)
Definition gateOpen (g : GhcItem) (requested : DE1.State) : Prop :=
  currentData g <> 3 \/ requested = DE1.State.Sleep
  \/ requested = DE1.State.Idle.

(** A sequence of inbound characteristic writes, oldest first. *)
Definition applyWrites (writes : list (string * QByteArray)) (e : Engine)
  : Engine :=
  fold_left (fun acc w => handleCharacteristicWrite (fst w) (snd w) acc)
    writes e.

(** The little-endian 32-bit encoding the specification speaks of. *)
Definition le32_bytes (v : Z) : QByteArray :=
  [ to_byte (Z.land v 255);
    to_byte (Z.land (Z.shiftr v 8) 255);
    to_byte (Z.land (Z.shiftr v 16) 255);
    to_byte (Z.land (Z.shiftr v 24) 255) ].

(** The canned values of the responder, by address. *)
Definition cannedValue (ghcMode address : Z) : Z :=
  if address =? 0x80381C then ghcMode
  else if address =? 0x803854 then 1
  else if address =? 0x80000C then 2
  else if address =? 0x800010 then 1
  else 0.

(** The canned values as the specification's table lists them. *)
Definition claimedCannedValue (ghcMode address : Z) : Z :=
  if address =? 0x803820 then ghcMode
  else if address =? 0x803854 then 1
  else if address =? 0x80000C then 2
  else if address =? 0x800010 then 1
  else 0.

(** The wire index of a frame write: its first byte. *)
Definition wireIndex (w : QByteArray) : Z := u8 (at_ w 0).

(** A sequence of FRAME_WRITE payloads, oldest first. *)
Definition applyFrames (ws : list QByteArray) (e : Engine) : Engine :=
  fold_left
    (fun acc w => handleCharacteristicWrite DE1.CHAR_FRAME_WRITE w acc) ws e.

(** The consistency the header establishes and frame writes keep. *)
Definition headerMatches (e : Engine) : Prop :=
  numFrames (m_profileHeader e) = Z.of_nat (length (m_profileFrames e)).

(** The 33 frame writes with wire indices 0, 1, ..., 32. *)
Definition framesUpTo32 : list QByteArray :=
  map (fun i => to_byte (Z.of_nat i) :: zeros 7) (seq 0 33).

(** The part of the engine the specification calls its state, with the
    flag of the Controller link. *)
Definition engineState (e : Engine) :=
  (m_currentState e, m_currentSubState e, m_profileHeader e,
   m_profileFrames e, sim e, socketConnected e).

(** The rungs of the Espresso ladder: state, substate, and the interval
    the phase timer is armed with on entering the rung. *)
Definition espressoLadder : list (DE1.State * DE1.SubState * option Z) :=
  [ (DE1.State.Espresso, DE1.SubState.Heating, Some 2000);
    (DE1.State.Espresso, DE1.SubState.Preinfusion, Some 5000);
    (DE1.State.Espresso, DE1.SubState.Pouring, Some 25000);
    (DE1.State.Espresso, DE1.SubState.Ending, Some 2000);
    (DE1.State.Idle, DE1.SubState.Ready, None) ].

(** The engine stands on rung [j]; the shot-sample timer runs on every
    rung but the last. *)
Definition onRung (j : nat) (e : Engine) : Prop :=
  espressoLadder !! j
  = Some (m_currentState e, m_currentSubState e, phaseTimer e)
  /\ shotTimerActive e = bool_decide (j < 4)%nat.

(** The number of phase timeouts in a schedule. *)
Definition phaseTimeouts (evs : list TimerEvent) : nat :=
  length (List.filter
            (fun ev => match ev with PhaseTimeout => true | _ => false end)
            evs).

(** The pair of a rung. *)
Definition rungPair (r : DE1.State * DE1.SubState * option Z)
  : DE1.State * DE1.SubState := fst r.

(** A run of Espresso with its shot-sample ticks: [n0] ticks while
    heating, [n1] during preinfusion, [n2] while pouring, [n3] while
    ending, each phase closed by the phase timeout. *)
Definition espressoSchedule (n0 n1 n2 n3 : nat) : list TimerEvent :=
  (repeat ShotTick n0 ++ [PhaseTimeout])
  ++ (repeat ShotTick n1 ++ [PhaseTimeout])
  ++ (repeat ShotTick n2 ++ [PhaseTimeout])
  ++ (repeat ShotTick n3 ++ [PhaseTimeout]).

(** The BLE side of the agent: what a central can observe. *)
Definition bleState (a : Agent) :=
  (serviceCreated a, advertising a, central a, characteristics a).

(** The inputs other than the Controller's own command to stop. *)
Definition notStop (i : AgentInput) : Prop :=
  i <> InCommand AStop.






(** While the phase timer is armed, with a positive interval, the
    shot-sample timer runs. *)
Definition timersCoupled (e : Engine) : Prop :=
  match phaseTimer e with
  | Some ms => shotTimerActive e = true /\ 0 < ms
  | None => True
  end.

(** The profile has as many frames as its header declares, at most 255. *)
Definition profileConsistent (e : Engine) : Prop :=
  headerMatches e /\ (length (m_profileFrames e) <= 255)%nat.

(** A command notifies a characteristic that the registry holds and
    declares with the Notify property, and carries as many bytes as the
    characteristic was created with. *)
Definition sizedLike (registry : gmap string QByteArray)
    (properties : gmap string (list Registry.Property)) (c : Command)
  : Prop :=
  match c with
  | CmdNotify charId data =>
      exists initial ps,
        registry !! charId = Some initial
        /\ length data = length initial
        /\ properties !! charId = Some ps
        /\ In Registry.Notify ps
  end.

(** Every command written on the socket fits the registry of the agent
    of [pi-daemon]. *)
Definition fitsRegistry (e : Engine) : Prop :=
  Forall (sizedLike PiDaemon.createDE1Service Registry.piProperties)
    (socketOut e).

(** The shot-sample ticks among the events. *)
Definition tickCount (ev : EventLoop.Event) : Z :=
  match ev with
  | EventLoop.EvTimer ShotTick => 1
  | _ => 0
  end.

Definition shotTicks (evs : list EventLoop.Event) : Z :=
  fold_right (fun ev n => tickCount ev + n) 0 evs.

(** The ranges the simulated values stay in. *)
Definition simBounded (v : SimValues) : Prop :=
  (0 <= m_shotTimer_s v)%Q
  /\ (0 <= m_pressure v)%Q /\ (m_pressure v <= 9)%Q
  /\ (0 <= m_flow v)%Q /\ (m_flow v <= 8)%Q
  /\ (0 <= m_steamTemp v)%Q /\ (m_steamTemp v <= 150)%Q
  /\ 0 <= m_frameNumber v <= 5.

(** The values are in range and the shot timer is at most [b]. *)
Definition simWithin (b : Q) (v : SimValues) : Prop :=
  simBounded v /\ (m_shotTimer_s v <= b)%Q.

(** The configurations of the operator's state machine: state,
    substate, interval of the armed phase timer, shot-sample timer. *)
Definition operatorConfigurations
  : list (DE1.State * DE1.SubState * option Z * bool) :=
  [ (DE1.State.Idle, DE1.SubState.Ready, None, false);
    (DE1.State.Sleep, DE1.SubState.Ready, None, false);
    (DE1.State.Espresso, DE1.SubState.Heating, Some 2000, true);
    (DE1.State.Espresso, DE1.SubState.Preinfusion, Some 5000, true);
    (DE1.State.Espresso, DE1.SubState.Pouring, Some 25000, true);
    (DE1.State.Espresso, DE1.SubState.Ending, Some 2000, true);
    (DE1.State.Steam, DE1.SubState.Steaming, Some 45000, true);
    (DE1.State.HotWater, DE1.SubState.Pouring, Some 30000, true);
    (DE1.State.HotWaterRinse, DE1.SubState.Pouring, Some 10000, true) ].

(** The configuration the engine is in. *)
Definition configuration (e : Engine) :=
  (m_currentState e, m_currentSubState e, phaseTimer e, shotTimerActive e).

(** The events of the operator and of the timers: no data from the
    agent, no change of the socket. *)
Definition localEvent (ev : EventLoop.Event) : Prop :=
  match ev with
  | EventLoop.EvReadyRead _ | EventLoop.EvSocketConnected
  | EventLoop.EvSocketDisconnected => False
  | _ => True
  end.

(** The inputs other than the acceptance of a Controller. *)
Definition notConnection (i : AgentInput) : Prop :=
  match i with
  | InTcpConnection _ => False
  | _ => True
  end.

(** What the Controller's socket carries to the agent for the commands
    the simulator wrote, one input per line. *)
Definition relay (toHex : QByteArray -> string)
    (fromHex : string -> QByteArray) (out : list Command)
  : list AgentInput :=
  map (fun c => InCommand
                  (Bridge.parseCommand fromHex (Bridge.commandObject toHex c)))
      out.

(** Every characteristic of the agent holds as many bytes as it was
    created with. *)
Definition sizedTable (a : Agent) : Prop :=
  forall charId v,
    characteristics a !! charId = Some v ->
    exists initial,
      PiDaemon.createDE1Service !! charId = Some initial
      /\ length v = length initial.

(** The table of characteristic values after each notification of
    [out] has replaced the value of its characteristic, oldest first. *)
Definition stored (out : list Command) (table : gmap string QByteArray)
  : gmap string QByteArray :=
  foldl (fun m c =>
           match c with
           | CmdNotify charId data => <[charId := data]> m
           end)
        table out.

(** An agent attached to a Controller, with its service created, whose
    table has every characteristic of [createDE1Service] at its size. *)
Definition servingTable (a : Agent) : Prop :=
  is_Some (m_tcpClient a)
  /\ serviceCreated a = true
  /\ sizedTable a
  /\ (forall charId, is_Some (PiDaemon.createDE1Service !! charId) ->
                     is_Some (characteristics a !! charId)).

(** What [handleFrameWrite] does to the frames of a profile whose
    header declares [n] frames: nothing, or one update of one frame. *)
Definition frameEffect (value : QByteArray) (n : Z)
    (frames : list ProfileFrame) : list ProfileFrame :=
  if (length value <? 8)%nat then frames
  else
    let frameIdx := u8 (at_ value 0) in
    let size := Z.of_nat (length frames) in
    if 32 <=? frameIdx then
      if frameIdx - 32 <? size
      then alter (setExtension value) (Z.to_nat (frameIdx - 32)) frames
      else frames
    else if frameIdx =? n then frames
    else if frameIdx <? size
    then alter (setPrimary frameIdx value) (Z.to_nat frameIdx) frames
    else frames.

(** The simulated values no handler assigns. *)
Definition steady (v : SimValues) : Prop :=
  m_waterLevel v = 75%Q /\ m_temperature v = 93%Q /\ m_setTemp v = 93%Q.

(** A SHOT_SAMPLE payload as a client reads it: 19 bytes, the group
    pressure (bytes 2-3, in 1/4096 bar) at most 9 bar, the group flow
    (bytes 4-5, in 1/4096 ml/s) at most 8 ml/s, the mix temperature,
    the head temperature and the two set temperatures (bytes 6-14) all
    93 degrees, the frame number (byte 17) at most 5 and the steam
    temperature (byte 18) at most 150. *)
Definition sampleInRange (d : QByteArray) : Prop :=
  length d = 19%nat
  /\ BinaryCodec.decodeShortBE (at_ d 2) (at_ d 3) <= 9 * 4096
  /\ BinaryCodec.decodeShortBE (at_ d 4) (at_ d 5) <= 8 * 4096
  /\ take 9 (drop 6 d) = [x5d; x00; x5d; x00; x00; x5d; x00; x5d; x00]
  /\ u8 (at_ d 17) <= 5
  /\ u8 (at_ d 18) <= 150.

(** What the simulated values allow on the wire: samples in range, and
    a water level of 25 mm (0x1900 in 1/256 mm). *)
Definition plausible (c : Command) : Prop :=
  match c with
  | CmdNotify charId data =>
      (charId = DE1.CHAR_SHOT_SAMPLE -> sampleInRange data)
      /\ (charId = DE1.CHAR_WATER_LEVELS -> data = [x19; x00])
  end.

(** The steady values are as constructed, and all that was written on
    the socket is plausible. *)
Definition wireInRange (e : Engine) : Prop :=
  steady (sim e) /\ Forall plausible (socketOut e).

(** Stand-ins for the library, enough to run the examples: a sine that
    is zero, the text of a byte array for its hexadecimal form, and a
    parser that knows two lines, [R] for the agent's ready event and
    [H] for the write of a header declaring two frames. *)
Definition sampleSine (x : Q) : Q := 0.

Definition sampleJson (line : QByteArray) : option QJsonObject :=
  match line with
  | [x52] => Some (Bridge.eventObject string_of_list_byte (EvReady "1.0.0"))
  | [x48] =>
      Some (Bridge.eventObject string_of_list_byte
              (EvWrite DE1.CHAR_HEADER_WRITE [x01; x02; x00; x00; x00]))
  | _ => None
  end.

(** The socket connects, the agent reports ready and relays a header
    write, the operator starts an Espresso, and the timers fire into
    the pouring phase. *)
Definition sampleSession : list EventLoop.Event :=
  [ EventLoop.EvSocketConnected;
    EventLoop.EvReadyRead [x52; x0a; x48; x0a];
    EventLoop.EvEspressoClicked;
    EventLoop.EvTimer PhaseTimeout; EventLoop.EvTimer ShotTick;
    EventLoop.EvTimer PhaseTimeout; EventLoop.EvTimer ShotTick ].

Abbreviation sampleEngine :=
  (EventLoop.run sampleSine sampleJson list_byte_of_string sampleSession
     initialEngine).

(** ** Preliminaries *)

(** [sendCommand] as one update of the output. *)
Lemma sendCommand_eq cmd e :
  sendCommand cmd e
  = with_out (socketOut e ++ (if socketConnected e then [cmd] else [])) e.
Proof.
  unfold sendCommand. destruct e as [c ? ? ? ? ? ? ? ? ? ? ? ? o].
  destruct c; cbn; [reflexivity|]. rewrite app_nil_r. reflexivity.
Qed.

Ltac unfold_handlers :=
  unfold handleCharacteristicWrite, handleRequestedState,
    handleMMRReadRequest, handleMMRWrite, handleHeaderWrite,
    handleFrameWrite, handleShotSettings, transitionToState,
    sendStateNotification, sendNotification,
    logRx, logTx, logPi, log;
  rewrite ?sendCommand_eq.

(** ** The U8P4 codec *)

Section CodecFacts.
Import BinaryCodec.

Lemma Qltb_true a b : Qltb a b = true <-> (a < b)%Q.
Proof.
  unfold Qltb. rewrite negb_true_iff. split.
  - intros H. apply Qnot_le_lt. intros Hle.
    apply Qle_bool_iff in Hle. congruence.
  - intros H. destruct (Qle_bool b a) eqn:E; [|reflexivity].
    apply Qle_bool_iff in E. exfalso. apply (Qlt_not_le _ _ H E).
Qed.

Lemma Qltb_false a b : Qltb a b = false <-> (b <= a)%Q.
Proof. unfold Qltb. rewrite negb_false_iff. apply Qle_bool_iff. Qed.

(** The three regimes of the clamp. *)
Lemma qBound_below lo x hi : (lo <= hi)%Q -> (x < lo)%Q -> qBound lo x hi = lo.
Proof.
  intros Hlh Hx. unfold qBound, qMax, qMin.
  destruct (Qltb hi x) eqn:E1.
  - apply Qltb_true in E1. exfalso.
    apply (Qlt_irrefl x). eapply Qlt_le_trans; [exact Hx|].
    eapply Qle_trans; [exact Hlh|]. apply Qlt_le_weak, E1.
  - destruct (Qltb lo x) eqn:E2; [|reflexivity].
    apply Qltb_true in E2. exfalso.
    apply (Qlt_irrefl x). eapply Qlt_trans; eassumption.
Qed.

Lemma qBound_above lo x hi : (lo <= hi)%Q -> (hi < x)%Q -> (qBound lo x hi == hi)%Q.
Proof.
  intros Hlh Hx. unfold qBound, qMax, qMin.
  apply Qltb_true in Hx. rewrite Hx.
  destruct (Qltb lo hi) eqn:E; [reflexivity|].
  apply Qltb_false in E. apply Qle_antisym; assumption.
Qed.

Lemma qBound_within lo x hi : (lo <= x)%Q -> (x <= hi)%Q -> (qBound lo x hi == x)%Q.
Proof.
  intros Hl Hh. unfold qBound, qMax, qMin.
  apply Qltb_false in Hh. rewrite Hh.
  destruct (Qltb lo x) eqn:E; [reflexivity|].
  apply Qltb_false in E. apply Qle_antisym; assumption.
Qed.

Lemma Qtruncate_comp x y : (x == y)%Q -> Qtruncate x = Qtruncate y.
Proof.
  intros H. unfold Qtruncate.
  rewrite (Qfloor_comp _ _ H), (Qceiling_comp _ _ H).
  assert (E : Qle_bool 0 x = Qle_bool 0 y) by (rewrite H; reflexivity).
  rewrite E. reflexivity.
Qed.

Lemma Qtruncate_nonneg x : (0 <= x)%Q -> Qtruncate x = Qfloor x.
Proof.
  intros H. unfold Qtruncate. apply Qle_bool_iff in H. rewrite H. reflexivity.
Qed.

Lemma encodeU8P4_within v :
  (0 <= v)%Q -> (v <= 255 # 16)%Q ->
  encodeU8P4 v = Qfloor (v * 16) /\ 0 <= Qfloor (v * 16) <= 255.
Proof.
  intros H0 H1.
  assert (Ha : (0 <= v * 16)%Q).
  { apply Qmult_le_0_compat; [exact H0|discriminate]. }
  assert (Hb : (v * 16 <= 255)%Q).
  { setoid_replace (255:Q) with ((255 # 16) * 16)%Q using relation Qeq by reflexivity.
    apply Qmult_le_compat_r; [exact H1|discriminate]. }
  assert (Hr : 0 <= Qfloor (v * 16) <= 255).
  { split.
    - change 0 with (Qfloor 0). apply Qfloor_resp_le, Ha.
    - change 255 with (Qfloor 255). apply Qfloor_resp_le, Hb. }
  split; [|exact Hr].
  unfold encodeU8P4, cast_uint.
  rewrite (Qtruncate_comp _ _ (qBound_within 0 (v * 16) 255 Ha Hb)).
  rewrite Qtruncate_nonneg by exact Ha.
  apply Z.mod_small. lia.
Qed.

Lemma encodeU8P4_below v : (v < 0)%Q -> encodeU8P4 v = 0.
Proof.
  intros H. unfold encodeU8P4.
  rewrite qBound_below; [reflexivity|discriminate|].
  setoid_replace (0:Q) with (0 * 16)%Q using relation Qeq by reflexivity.
  apply Qmult_lt_compat_r; [reflexivity|exact H].
Qed.

Lemma encodeU8P4_above v : (255 # 16 < v)%Q -> encodeU8P4 v = 255.
Proof.
  intros H. unfold encodeU8P4, cast_uint.
  rewrite (Qtruncate_comp _ 255); [reflexivity|].
  apply qBound_above; [discriminate|].
  setoid_replace (255:Q) with ((255 # 16) * 16)%Q using relation Qeq by reflexivity.
  apply Qmult_lt_compat_r; [reflexivity|exact H].
Qed.

Lemma decode_floor_close v :
  (Qabs (decodeU8P4 (Qfloor (v * 16)) - v) <= 1 # 16)%Q.
Proof.
  unfold decodeU8P4.
  pose proof (Qfloor_le (v * 16)) as Hlo.
  pose proof (Qlt_floor (v * 16)) as Hhi.
  set (b := Qfloor (v * 16)) in *.
  rewrite inject_Z_plus in Hhi.
  apply Qabs_Qle_condition. split.
  - apply Qle_minus_iff.
    setoid_replace (inject_Z b / 16 - v + - - (1 # 16))%Q
      with ((inject_Z b + inject_Z 1 - v * 16) / 16)%Q using relation Qeq by field.
    apply Qle_shift_div_l; [reflexivity|].
    rewrite Qmult_0_l. apply Qlt_le_weak.
    apply (proj1 (Qlt_minus_iff _ _)) in Hhi. exact Hhi.
  - apply Qle_minus_iff.
    setoid_replace ((1 # 16) + - (inject_Z b / 16 - v))%Q
      with (((v * 16 + - inject_Z b) + 1) / 16)%Q using relation Qeq by field.
    apply Qle_shift_div_l; [reflexivity|].
    rewrite Qmult_0_l.
    apply (proj1 (Qle_minus_iff _ _)) in Hlo.
    apply Qle_trans with (v * 16 + - inject_Z b)%Q; [exact Hlo|].
    rewrite <- (Qplus_0_r (v * 16 + - inject_Z b)) at 1.
    apply Qplus_le_r. discriminate.
Qed.

(** C7. For every value [v] between 0 and 15.9375 (= 255/16) the
    decoding of the encoding of [v] is within 1/16 of [v]; every
    negative [v] encodes as 0 does; every [v] above 15.9375 encodes to
    255: the encoder clamps, it does not wrap. *)
Theorem encodeU8P4_roundtrip_clamp (v : Q) :
  ((0 <= v)%Q -> (v <= 255 # 16)%Q ->
   (Qabs (decodeU8P4 (encodeU8P4 v) - v) <= 1 # 16)%Q)
  /\ ((v < 0)%Q -> encodeU8P4 v = encodeU8P4 0)
  /\ ((255 # 16 < v)%Q -> encodeU8P4 v = 255).
Proof.
  split; [|split].
  - intros H0 H1. destruct (encodeU8P4_within v H0 H1) as [E _].
    rewrite E. apply decode_floor_close.
  - intros H. rewrite (encodeU8P4_below v H). reflexivity.
  - apply encodeU8P4_above.
Qed.

Lemma encodeU8P4_roundtrip_clamp_witness :
  (Qabs (decodeU8P4 (encodeU8P4 (1 # 3)) - (1 # 3)) <= 1 # 16)%Q
  /\ encodeU8P4 (-3) = encodeU8P4 0
  /\ encodeU8P4 20 = 255.
Proof.
  split; [|split].
  - apply (proj1 (encodeU8P4_roundtrip_clamp (1 # 3))); discriminate.
  - apply (proj1 (proj2 (encodeU8P4_roundtrip_clamp (-3)))). reflexivity.
  - apply (proj2 (proj2 (encodeU8P4_roundtrip_clamp 20))). reflexivity.
Defined.

End CodecFacts.

(** ** The GHC gate and requested states *)

Section GateFacts.

Lemma byte_eqb_eq (a b : byte) : Byte.eqb a b = true <-> a = b.
Proof. split; [apply Byte.byte_dec_bl | apply Byte.byte_dec_lb]. Qed.

Lemma byte_eqb_neq (a b : byte) : Byte.eqb a b = false <-> a <> b.
Proof.
  split.
  - intros H E. apply byte_eqb_eq in E. congruence.
  - intros H. destruct (Byte.eqb a b) eqn:E; [|reflexivity].
    apply byte_eqb_eq in E. contradiction.
Qed.

Lemma handleRequestedState_open requested e :
  gateOpen (ghcCombo e) requested ->
  handleRequestedState requested e
  = transitionToState requested DE1.SubState.Ready e.
Proof.
  intros H. unfold handleRequestedState.
  destruct H as [H | [H | H]].
  - apply Z.eqb_neq in H. rewrite H. reflexivity.
  - subst. rewrite andb_false_r. reflexivity.
  - subst. rewrite andb_false_r. reflexivity.
Qed.

Lemma handleRequestedState_blocked requested e :
  currentData (ghcCombo e) = 3 ->
  requested <> DE1.State.Sleep -> requested <> DE1.State.Idle ->
  handleRequestedState requested e = log (MsgGhcBlocked requested) WARN e.
Proof.
  intros H Hs Hi. unfold handleRequestedState.
  apply Z.eqb_eq in H. apply byte_eqb_neq in Hs, Hi.
  rewrite H, Hs, Hi. reflexivity.
Qed.

(** No inbound write touches a timer, the socket or the GHC selection. *)
Lemma inbound_write_keeps_timers charId value e :
  let e' := handleCharacteristicWrite charId value e in
  phaseTimer e' = phaseTimer e
  /\ shotTimerActive e' = shotTimerActive e
  /\ waterTimerActive e' = waterTimerActive e
  /\ socketConnected e' = socketConnected e
  /\ ghcCombo e' = ghcCombo e
  /\ sim e' = sim e
  /\ m_tcpBuffer e' = m_tcpBuffer e.
Proof.
  unfold_handlers. cbv zeta.
  repeat case_match; cbn; repeat split; reflexivity.
Qed.

(** An inbound write leaves the machine state alone unless it is a
    REQUESTED_STATE write that the gate lets through. *)
Lemma inbound_write_state charId value e :
  let e' := handleCharacteristicWrite charId value e in
  (m_currentState e' = m_currentState e
   /\ m_currentSubState e' = m_currentSubState e)
  \/ (exists requested rest,
        charId = DE1.CHAR_REQUESTED_STATE /\ value = requested :: rest
        /\ gateOpen (ghcCombo e) requested
        /\ m_currentState e' = requested
        /\ m_currentSubState e' = DE1.SubState.Ready).
Proof.
  cbv zeta. unfold handleCharacteristicWrite.
  destruct (String.eqb charId DE1.CHAR_REQUESTED_STATE) eqn:Ec.
  - apply String.eqb_eq in Ec. destruct value as [|requested rest].
    + left. split; reflexivity.
    + cbn [length Nat.leb at_ nth].
      unfold handleRequestedState.
      destruct (currentData _ =? 3) eqn:Eg; cbn [andb].
      * destruct (Byte.eqb requested DE1.State.Sleep) eqn:Es; cbn [negb andb].
        { right. exists requested, rest. apply byte_eqb_eq in Es.
          repeat split; try assumption; try (unfold_handlers; reflexivity).
          right. left. exact Es. }
        destruct (Byte.eqb requested DE1.State.Idle) eqn:Ei; cbn [negb].
        { right. exists requested, rest. apply byte_eqb_eq in Ei.
          repeat split; try assumption; try (unfold_handlers; reflexivity).
          right. right. exact Ei. }
        left. split; reflexivity.
      * right. exists requested, rest. apply Z.eqb_neq in Eg.
        repeat split; try assumption; try (unfold_handlers; reflexivity).
        left. exact Eg.
  - left. unfold_handlers. repeat case_match; cbn; split; reflexivity.
Qed.

Lemma applyWrites_gated writes : forall e,
  currentData (ghcCombo e) = 3 ->
  let e' := applyWrites writes e in
  ghcCombo e' = ghcCombo e
  /\ (m_currentState e' = m_currentState e
      \/ m_currentState e' = DE1.State.Sleep
      \/ m_currentState e' = DE1.State.Idle).
Proof.
  induction writes as [|[charId value] writes IH]; intros e Hg; cbv zeta.
  - split; [reflexivity|left; reflexivity].
  - cbn [applyWrites fold_left fst snd].
    pose proof (inbound_write_keeps_timers charId value e) as K.
    cbv zeta in K. destruct K as (_ & _ & _ & _ & Kg & _).
    set (e1 := handleCharacteristicWrite charId value e) in *.
    assert (Hg1 : currentData (ghcCombo e1) = 3) by (rewrite Kg; exact Hg).
    destruct (IH e1 Hg1) as [G S]. fold (applyWrites writes e1).
    split; [rewrite G; exact Kg|].
    assert (S1 : m_currentState e1 = m_currentState e
                 \/ m_currentState e1 = DE1.State.Sleep
                 \/ m_currentState e1 = DE1.State.Idle).
    { destruct (inbound_write_state charId value e) as [[E _]|H].
      - left. exact E.
      - destruct H as (requested & rest & _ & _ & Ho & Es & _).
        fold e1 in Es. destruct Ho as [Ho|[Ho|Ho]].
        + contradiction.
        + right. left. congruence.
        + right. right. congruence. }
    destruct S as [S|S]; [rewrite S; exact S1|right; exact S].
Qed.

(** What a REQUESTED_STATE write does when the gate lets it through. *)
Lemma requested_state_write_open requested rest e :
  gateOpen (ghcCombo e) requested ->
  handleCharacteristicWrite DE1.CHAR_REQUESTED_STATE (requested :: rest) e
  = transitionToState requested DE1.SubState.Ready
      (logRx (MsgRequestedState requested) e).
Proof.
  intros H. unfold handleCharacteristicWrite. cbn [String.eqb].
  change (String.eqb DE1.CHAR_REQUESTED_STATE DE1.CHAR_REQUESTED_STATE)
    with true.
  cbn [length Nat.leb at_ nth]. apply handleRequestedState_open. exact H.
Qed.

(** C1 (as amended). A REQUESTED_STATE write of value 0x04 (Espresso)
    that arrives over the Controller link while the state is Idle and
    the GHC mode is 0 makes the engine emit one STATE_INFO notification
    with payload 04 00: it transitions to state Espresso with substate
    Ready. *)
Theorem requested_espresso_emits_ready (e : Engine) :
  socketConnected e = true ->
  m_currentState e = DE1.State.Idle ->
  currentData (ghcCombo e) = 0 ->
  let e' :=
    handleCharacteristicWrite DE1.CHAR_REQUESTED_STATE [x04] e in
  socketOut e' = socketOut e ++ [CmdNotify DE1.CHAR_STATE_INFO [x04; x00]]
  /\ m_currentState e' = DE1.State.Espresso
  /\ m_currentSubState e' = DE1.SubState.Ready.
Proof.
  intros Hc _ Hg. cbv zeta.
  rewrite requested_state_write_open by (left; rewrite Hg; discriminate).
  unfold_handlers. cbn. rewrite Hc. repeat split; reflexivity.
Qed.

Lemma requested_espresso_emits_ready_witness :
  socketOut
    (handleCharacteristicWrite DE1.CHAR_REQUESTED_STATE [x04]
       (idleEngine GhcNotInstalled))
  = [CmdNotify DE1.CHAR_STATE_INFO [x04; x00]].
Proof.
  apply (proj1 (requested_espresso_emits_ready (idleEngine GhcNotInstalled)
                  eq_refl eq_refl eq_refl)).
Defined.

(** C1 as stated fails: in state Idle with GHC mode 0 the write of 0x04
    emits no STATE_INFO with payload 04 01 and does not enter substate
    Heating. *)
Lemma requested_espresso_heating_counterexample :
  let e' :=
    handleCharacteristicWrite DE1.CHAR_REQUESTED_STATE [x04]
      (idleEngine GhcNotInstalled) in
  ~ In (CmdNotify DE1.CHAR_STATE_INFO [x04; x01]) (socketOut e')
  /\ m_currentSubState e' <> DE1.SubState.Heating.
Proof.
  cbv zeta. split.
  - intros H. vm_compute in H. destruct H as [H|[]]. discriminate H.
  - discriminate.
Qed.

(** C10. A REQUESTED_STATE write that passes the GHC gate makes
    (requested state, Ready) the current pair and starts neither the
    phase timer nor the shot-sample timer; indeed no inbound
    characteristic write of any kind changes a timer. *)
Theorem requested_state_ready_no_timers
    (requested : DE1.State) (rest : QByteArray) (e : Engine) :
  gateOpen (ghcCombo e) requested ->
  let e' :=
    handleCharacteristicWrite DE1.CHAR_REQUESTED_STATE (requested :: rest) e
  in
  m_currentState e' = requested
  /\ m_currentSubState e' = DE1.SubState.Ready
  /\ phaseTimer e' = phaseTimer e
  /\ shotTimerActive e' = shotTimerActive e
  /\ (forall charId value,
        phaseTimer (handleCharacteristicWrite charId value e) = phaseTimer e
        /\ shotTimerActive (handleCharacteristicWrite charId value e)
           = shotTimerActive e).
Proof.
  intros H. cbv zeta. rewrite requested_state_write_open by exact H.
  unfold_handlers. cbn. repeat split; try reflexivity.
  - apply (inbound_write_keeps_timers charId value e).
  - apply (inbound_write_keeps_timers charId value e).
Qed.

Lemma requested_state_ready_no_timers_witness :
  let e := idleEngine GhcNotInstalled in
  let e' :=
    handleCharacteristicWrite DE1.CHAR_REQUESTED_STATE [DE1.State.Steam] e in
  m_currentState e' = DE1.State.Steam
  /\ m_currentSubState e' = DE1.SubState.Ready
  /\ phaseTimer e' = None
  /\ shotTimerActive e' = false.
Proof.
  cbv zeta.
  destruct (requested_state_ready_no_timers DE1.State.Steam []
              (idleEngine GhcNotInstalled)) as (A & B & C & D & _).
  - left. discriminate.
  - repeat split; assumption.
Defined.

(** What the gate does to a request it blocks: one WARN line, and
    nothing else. *)
Lemma blocked_request_logged requested e :
  currentData (ghcCombo e) = 3 ->
  requested <> DE1.State.Sleep -> requested <> DE1.State.Idle ->
  logView (handleRequestedState requested e)
  = logView e ++ [mkLog WARN (MsgGhcBlocked requested)]
  /\ engineState (handleRequestedState requested e) = engineState e
  /\ socketOut (handleRequestedState requested e) = socketOut e
  /\ phaseTimer (handleRequestedState requested e) = phaseTimer e
  /\ shotTimerActive (handleRequestedState requested e) = shotTimerActive e.
Proof.
  intros Hg Hs Hi.
  rewrite (handleRequestedState_blocked requested e Hg Hs Hi).
  repeat split; reflexivity.
Qed.

(** From Idle or Sleep each operation button starts its operation,
    whatever the GHC item selected. *)
Lemma operator_click_starts e :
  m_currentState e = DE1.State.Idle \/ m_currentState e = DE1.State.Sleep ->
  m_currentState (onEspressoClicked e) = DE1.State.Espresso
  /\ m_currentState (onSteamClicked e) = DE1.State.Steam
  /\ m_currentState (onHotWaterClicked e) = DE1.State.HotWater
  /\ m_currentState (onFlushClicked e) = DE1.State.HotWaterRinse.
Proof.
  intros [H|H];
    unfold onEspressoClicked, onSteamClicked, onHotWaterClicked,
      onFlushClicked, startOperation;
    rewrite H; change (Byte.eqb DE1.State.Idle DE1.State.Espresso) with false;
    change (Byte.eqb DE1.State.Idle DE1.State.Steam) with false;
    change (Byte.eqb DE1.State.Idle DE1.State.HotWater) with false;
    change (Byte.eqb DE1.State.Idle DE1.State.HotWaterRinse) with false;
    change (Byte.eqb DE1.State.Sleep DE1.State.Espresso) with false;
    change (Byte.eqb DE1.State.Sleep DE1.State.Steam) with false;
    change (Byte.eqb DE1.State.Sleep DE1.State.HotWater) with false;
    change (Byte.eqb DE1.State.Sleep DE1.State.HotWaterRinse) with false;
    cbn; unfold_handlers; cbn; repeat split; reflexivity.
Qed.

(** C4 (as amended). While the GHC mode is 3, a state requested over
    BLE other than Sleep or Idle is logged and dropped: the handler
    appends one WARN line naming the request to the log and changes
    nothing else (state, substate, profile, simulated values, socket
    output and timers stay), and whatever sequence of characteristic
    writes arrives, the current state is the one before them, Sleep or
    Idle. In every other mode (0, 1, 2, 4) the request passes: the
    requested state becomes current. The operator's buttons are not
    behind the gate: from Idle or Sleep a click on Espresso, Steam, Hot
    Water or Flush makes that operation's state current in every GHC
    mode, 3 included. *)
Theorem ghc_gate (e : Engine) :
  (currentData (ghcCombo e) = 3 ->
   (forall requested,
      requested <> DE1.State.Sleep -> requested <> DE1.State.Idle ->
      handleRequestedState requested e
      = log (MsgGhcBlocked requested) WARN e
      /\ logView (handleRequestedState requested e)
         = logView e ++ [mkLog WARN (MsgGhcBlocked requested)]
      /\ engineState (handleRequestedState requested e) = engineState e
      /\ socketOut (handleRequestedState requested e) = socketOut e
      /\ phaseTimer (handleRequestedState requested e) = phaseTimer e
      /\ shotTimerActive (handleRequestedState requested e)
         = shotTimerActive e)
   /\ (forall writes,
         m_currentState (applyWrites writes e) = m_currentState e
         \/ m_currentState (applyWrites writes e) = DE1.State.Sleep
         \/ m_currentState (applyWrites writes e) = DE1.State.Idle))
  /\ (currentData (ghcCombo e) <> 3 ->
      forall requested,
        m_currentState (handleRequestedState requested e) = requested
        /\ m_currentSubState (handleRequestedState requested e)
           = DE1.SubState.Ready)
  /\ (m_currentState e = DE1.State.Idle
      \/ m_currentState e = DE1.State.Sleep ->
      m_currentState (onEspressoClicked e) = DE1.State.Espresso
      /\ m_currentState (onSteamClicked e) = DE1.State.Steam
      /\ m_currentState (onHotWaterClicked e) = DE1.State.HotWater
      /\ m_currentState (onFlushClicked e) = DE1.State.HotWaterRinse).
Proof.
  split; [|split].
  - intros Hg. split.
    + intros requested Hs Hi.
      split; [apply handleRequestedState_blocked; assumption|].
      apply blocked_request_logged; assumption.
    + intros writes. apply (applyWrites_gated writes e Hg).
  - intros Hg requested.
    rewrite handleRequestedState_open by (left; exact Hg).
    unfold_handlers. cbn. split; reflexivity.
  - apply operator_click_starts.
Qed.

(** In mode 3 a requested Espresso leaves one WARN line; in mode 4 it
    becomes current; the Steam button starts Steam in mode 3. *)
Lemma ghc_gate_witness :
  (let e := idleEngine GhcPresentActive in
   logView (handleRequestedState DE1.State.Espresso e)
   = [mkLog WARN (MsgGhcBlocked DE1.State.Espresso)]
   /\ m_currentState (handleRequestedState DE1.State.Espresso e)
      = DE1.State.Idle
   /\ m_currentState (onSteamClicked e) = DE1.State.Steam)
  /\ (let e := idleEngine GhcDebugMode in
      m_currentState (handleRequestedState DE1.State.Espresso e)
      = DE1.State.Espresso).
Proof.
  split; cbv zeta.
  - destruct (proj1 (proj1 (ghc_gate (idleEngine GhcPresentActive)) eq_refl)
                DE1.State.Espresso) as (E & L & _); [discriminate..|].
    split; [exact L|]. split; [rewrite E; reflexivity|].
    apply (proj2 (proj2 (ghc_gate (idleEngine GhcPresentActive)))).
    left. reflexivity.
  - apply (proj1 (proj2 (ghc_gate (idleEngine GhcDebugMode)))). discriminate.
Defined.

(** C4 as stated fails for the operator's own requests: with GHC mode 3
    and the machine in Idle, a click on Espresso makes Espresso, a state
    other than Sleep and Idle, the current state, the mode still being
    3. *)
Lemma ghc_gate_operator_counterexample :
  let e := idleEngine GhcPresentActive in
  currentData (ghcCombo e) = 3
  /\ m_currentState e = DE1.State.Idle
  /\ m_currentState (onEspressoClicked e) = DE1.State.Espresso
  /\ currentData (ghcCombo (onEspressoClicked e)) = 3.
Proof. cbv zeta. repeat split; reflexivity. Qed.

(** A phase timeout in (Espresso, Ready), the pair a requested Espresso
    leaves, does nothing: the request does not enter the ladder. *)
Lemma requested_espresso_stays_ready e :
  m_currentState e = DE1.State.Espresso ->
  m_currentSubState e = DE1.SubState.Ready ->
  onPhaseTimeout e = e.
Proof.
  intros Hs Hss. unfold onPhaseTimeout. rewrite Hs, Hss. reflexivity.
Qed.

(** The operator's GHC buttons are not behind the gate: with GHC mode 3
    a click on Espresso starts the run. *)
Lemma operator_click_not_gated :
  let e := onEspressoClicked (idleEngine GhcPresentActive) in
  m_currentState e = DE1.State.Espresso
  /\ m_currentSubState e = DE1.SubState.Heating
  /\ phaseTimer e = Some 2000.
Proof. cbv zeta. repeat split; reflexivity. Qed.

End GateFacts.

(** ** The MMR responder *)

Section MMRFacts.

Lemma u8_range b : 0 <= u8 b < 256.
Proof.
  unfold u8. pose proof (Byte.to_N_bounded b). lia.
Qed.

Lemma to_byte_u8 b : to_byte (u8 b) = b.
Proof.
  unfold to_byte. rewrite Z.mod_small by apply u8_range.
  unfold u8. rewrite N2Z.id, Byte.of_to_N. reflexivity.
Qed.

Lemma u8_to_byte z : 0 <= z < 256 -> u8 (to_byte z) = z.
Proof.
  intros H. unfold to_byte, u8. rewrite Z.mod_small by exact H.
  destruct (Byte.of_N (Z.to_N z)) as [b|] eqn:E.
  - apply Byte.to_of_N in E. rewrite E. lia.
  - apply Byte.of_N_None_iff in E. lia.
Qed.

Lemma lor_shifted_small a b k :
  0 <= k -> 0 <= b < 2 ^ k -> Z.lor (Z.shiftl a k) b = a * 2 ^ k + b.
Proof.
  intros Hk Hb. rewrite Z.shiftl_mul_pow2 by exact Hk.
  symmetry. apply Z.add_nocarry_lor.
  apply Z.bits_inj'. intros n Hn. rewrite Z.land_spec, Z.bits_0.
  destruct (Z.lt_ge_cases n k).
  - rewrite Z.mul_pow2_bits_low by lia. reflexivity.
  - rewrite <- (Z.mod_small b (2 ^ k)) by lia.
    rewrite Z.mod_pow2_bits_high by lia. apply andb_false_r.
Qed.

(** The value of a decoded address from its three bytes. *)
Lemma decodeAddress_value d0 d1 d2 :
  BinaryCodec.decodeAddress d0 d1 d2
  = u8 d0 * 65536 + u8 d1 * 256 + u8 d2.
Proof.
  unfold BinaryCodec.decodeAddress.
  pose proof (u8_range d0). pose proof (u8_range d1). pose proof (u8_range d2).
  rewrite (Z.shiftl_mul_pow2 (u8 d0)) by lia.
  replace (u8 d0 * 2 ^ 16) with (Z.shiftl (u8 d0 * 256) 8)
    by (rewrite Z.shiftl_mul_pow2 by lia; change (2 ^ 8) with 256;
        change (2 ^ 16) with 65536; lia).
  rewrite <- Z.shiftl_lor.
  rewrite (lor_shifted_small (Z.lor _ _)) by (simpl; lia).
  replace (u8 d0 * 256) with (Z.shiftl (u8 d0) 8)
    by (rewrite Z.shiftl_mul_pow2 by lia; reflexivity).
  rewrite lor_shifted_small by (simpl; lia).
  change (2 ^ 8) with 256. lia.
Qed.

Lemma byte_of_word z k :
  0 <= k -> Z.land (Z.shiftr z k) 255 = (z / 2 ^ k) mod 256.
Proof.
  intros Hk. rewrite Z.shiftr_div_pow2 by exact Hk.
  change 255 with (Z.ones 8). rewrite Z.land_ones by lia. reflexivity.
Qed.

(** The response echoes the address: a zero byte, then the three
    address bytes of the request. *)
Lemma encodeUint32BE_address d0 d1 d2 :
  BinaryCodec.encodeUint32BE (BinaryCodec.decodeAddress d0 d1 d2)
  = [x00; d0; d1; d2].
Proof.
  unfold BinaryCodec.encodeUint32BE. rewrite decodeAddress_value.
  pose proof (u8_range d0). pose proof (u8_range d1). pose proof (u8_range d2).
  rewrite !byte_of_word by lia.
  change 255 with (Z.ones 8). rewrite Z.land_ones by lia.
  change (2 ^ 24) with 16777216. change (2 ^ 16) with 65536.
  change (2 ^ 8) with 256.
  set (a := u8 d0 * 65536 + u8 d1 * 256 + u8 d2).
  assert (E0 : (a / 16777216) mod 256 = 0)
    by (subst a; Z.div_mod_to_equations; lia).
  assert (E1 : (a / 65536) mod 256 = u8 d0)
    by (subst a; Z.div_mod_to_equations; lia).
  assert (E2 : (a / 256) mod 256 = u8 d1)
    by (subst a; Z.div_mod_to_equations; lia).
  assert (E3 : a mod 256 = u8 d2)
    by (subst a; Z.div_mod_to_equations; lia).
  rewrite E0, E1, E2, E3, !to_byte_u8. reflexivity.
Qed.

Lemma currentData_range g : 0 <= currentData g <= 4.
Proof. destruct g; simpl; lia. Qed.

(** C2 (as amended). For every read-from-MMR request of at least four
    bytes received over the Controller link, the responder pushes
    exactly one notification on READ_FROM_MMR, of eight bytes: bytes
    [0..4) are the 24-bit address of bytes [1..4) of the request as a
    32-bit big-endian number, and bytes [4..8) are the little-endian
    32-bit canned value: the current GHC mode (0 to 4) at address
    0x80381C, 1 at 0x803854, 2 at 0x80000C, 1 at 0x800010, and 0 at
    every other address, 0x803820 included. *)
Theorem mmr_read_response (value : QByteArray) (e : Engine) :
  (4 <= length value)%nat ->
  socketConnected e = true ->
  let address :=
    BinaryCodec.decodeAddress (at_ value 1) (at_ value 2) (at_ value 3) in
  let payload :=
    BinaryCodec.encodeUint32BE address
    ++ le32_bytes (cannedValue (currentData (ghcCombo e)) address) in
  socketOut (handleCharacteristicWrite DE1.CHAR_READ_FROM_MMR value e)
  = socketOut e ++ [CmdNotify DE1.CHAR_READ_FROM_MMR payload]
  /\ length payload = 8%nat
  /\ take 4 payload = [x00; at_ value 1; at_ value 2; at_ value 3]
  /\ 0 <= currentData (ghcCombo e) <= 4
  /\ cannedValue (currentData (ghcCombo e)) 0x803820 = 0.
Proof.
  intros Hlen Hc. cbv zeta.
  split; [|split; [reflexivity|split; [|split; [apply currentData_range|reflexivity]]]].
  - unfold handleCharacteristicWrite.
    change (String.eqb DE1.CHAR_READ_FROM_MMR DE1.CHAR_REQUESTED_STATE)
      with false.
    change (String.eqb DE1.CHAR_READ_FROM_MMR DE1.CHAR_READ_FROM_MMR)
      with true.
    cbv iota. unfold handleMMRReadRequest.
    destruct (length value <? 4)%nat eqn:El;
      [apply Nat.ltb_lt in El; lia|].
    unfold_handlers. cbn [socketOut with_out with_log socketConnected].
    rewrite Hc. do 2 f_equal. f_equal.
    set (address := BinaryCodec.decodeAddress _ _ _).
    unfold cannedValue, DE1.MMR.GHC_INFO, DE1.MMR.USB_CHARGER,
      DE1.MMR.MACHINE_MODEL, DE1.MMR.FIRMWARE_VERSION.
    pose proof (currentData_range (ghcCombo e)) as Hg.
    assert (Hb : forall v, 0 <= v <= 4 -> le32_bytes v = [to_byte v; x00; x00; x00]).
    { intros v Hv. assert (v = 0 \/ v = 1 \/ v = 2 \/ v = 3 \/ v = 4) as Hcases by lia.
      destruct Hcases as [->|[->|[->|[->| ->]]]]; reflexivity. }
    repeat case_match; rewrite Hb by lia; reflexivity.
  - cbn [take app BinaryCodec.encodeUint32BE].
    apply encodeUint32BE_address.
Qed.

(** [le32_bytes] is the byte order the simulator itself reads a 32-bit
    value in: a write-to-MMR carrying [le32_bytes v] is logged with the
    value [v]. *)
Lemma mmr_write_reads_le32 p0 p1 p2 p3 v e :
  0 <= v < 256 ->
  handleMMRWrite ([p0; p1; p2; p3] ++ le32_bytes v) e
  = logRx (MsgMmrWrite (BinaryCodec.decodeAddress p1 p2 p3) v) e.
Proof.
  intros Hv. unfold handleMMRWrite, le32_bytes.
  cbn [app length Nat.ltb Nat.leb at_ nth].
  change 255 with (Z.ones 8). rewrite !Z.land_ones by lia.
  rewrite !Z.shiftr_div_pow2 by lia.
  rewrite (Z.mod_small v) by (simpl; lia).
  rewrite !(Z.div_small v) by (simpl; lia).
  rewrite Z.mod_0_l by (simpl; lia).
  change (to_byte 0) with x00. change (u8 x00) with 0.
  rewrite u8_to_byte by exact Hv.
  rewrite !Z.shiftl_0_l, !Z.lor_0_r. reflexivity.
Qed.

(** C2 as stated fails at address 0x803820: with GHC mode 3 the
    response to a read of that address carries the value 0, where the
    claim's table gives the GHC mode, 3. *)
Lemma mmr_read_ghc_mode_counterexample :
  let e := idleEngine GhcPresentActive in
  let sent :=
    socketOut
      (handleCharacteristicWrite DE1.CHAR_READ_FROM_MMR
         [x00; x80; x38; x20] e) in
  sent = [CmdNotify DE1.CHAR_READ_FROM_MMR
            [x00; x80; x38; x20; x00; x00; x00; x00]]
  /\ le32_bytes (claimedCannedValue (currentData (ghcCombo e)) 0x803820)
     = [x03; x00; x00; x00]
  /\ sent
     <> socketOut e
        ++ [CmdNotify DE1.CHAR_READ_FROM_MMR
              (BinaryCodec.encodeUint32BE 0x803820
               ++ le32_bytes
                    (claimedCannedValue (currentData (ghcCombo e))
                       0x803820))].
Proof.
  cbv zeta. split; [reflexivity|]. split; [reflexivity|].
  intros H. vm_compute in H. discriminate H.
Qed.

Lemma mmr_read_response_witness :
  socketOut
    (handleCharacteristicWrite DE1.CHAR_READ_FROM_MMR [x00; x80; x38; x1c]
       (idleEngine GhcPresentActive))
  = [CmdNotify DE1.CHAR_READ_FROM_MMR
       [x00; x80; x38; x1c; x03; x00; x00; x00]].
Proof.
  apply (proj1 (mmr_read_response [x00; x80; x38; x1c]
                  (idleEngine GhcPresentActive)
                  ltac:(simpl; lia) eq_refl)).
Defined.

End MMRFacts.

(** ** The profile assembler *)

Section ProfileFacts.

Lemma write_header value e :
  handleCharacteristicWrite DE1.CHAR_HEADER_WRITE value e
  = handleHeaderWrite value e.
Proof. reflexivity. Qed.

Lemma write_frame value e :
  handleCharacteristicWrite DE1.CHAR_FRAME_WRITE value e
  = handleFrameWrite value e.
Proof. reflexivity. Qed.

(** The assembler after a header: as many default frames as declared. *)
Lemma handleHeaderWrite_frames value e :
  (5 <= length value)%nat ->
  let e' := handleHeaderWrite value e in
  m_profileFrames e' = replicate (Z.to_nat (u8 (at_ value 1))) defaultFrame
  /\ numFrames (m_profileHeader e') = u8 (at_ value 1).
Proof.
  intros H. cbv zeta. unfold handleHeaderWrite.
  destruct (length value <? 5)%nat eqn:E; [apply Nat.ltb_lt in E; lia|].
  split; reflexivity.
Qed.

(** One frame write: which frame index fields it sets. With at most 32
    frames a wire index below the frame count is a primary write. *)
Lemma handleFrameWrite_frameIndex w e :
  headerMatches e ->
  (length (m_profileFrames e) <= 32)%nat ->
  (8 <= length w)%nat ->
  let e' := handleFrameWrite w e in
  headerMatches e'
  /\ length (m_profileFrames e') = length (m_profileFrames e)
  /\ forall i : nat,
       frameIndex <$> (m_profileFrames e' !! i)
       = if decide (wireIndex w = Z.of_nat i
                    /\ (i < length (m_profileFrames e))%nat)
         then Some (Z.of_nat i)
         else frameIndex <$> (m_profileFrames e !! i).
Proof.
  intros Hm Hlen Hw. cbv zeta. unfold handleFrameWrite.
  destruct (length w <? 8)%nat eqn:E; [apply Nat.ltb_lt in E; lia|].
  fold (wireIndex w). pose proof (u8_range (at_ w 0)) as Hr.
  fold (wireIndex w) in Hr. unfold headerMatches in *.
  set (fs := m_profileFrames e) in *.
  destruct (32 <=? wireIndex w) eqn:E32.
  - apply Z.leb_le in E32.
    assert (Hno : forall i : nat,
               (if decide (wireIndex w = Z.of_nat i /\ (i < length fs)%nat)
                then Some (Z.of_nat i) else frameIndex <$> fs !! i)
               = frameIndex <$> fs !! i).
    { intros i. case_decide as D; [lia|reflexivity]. }
    destruct (wireIndex w - 32 <? Z.of_nat (length fs)) eqn:Ea.
    + cbn. rewrite length_alter. repeat split; try assumption.
      intros i. rewrite Hno.
      destruct (decide (i = Z.to_nat (wireIndex w - 32))) as [->|Hne].
      * rewrite list_lookup_alter_eq. destruct (fs !! _); reflexivity.
      * rewrite list_lookup_alter_ne by congruence. reflexivity.
    + repeat split; try assumption. intros i. rewrite Hno. reflexivity.
  - apply Z.leb_gt in E32.
    destruct (wireIndex w =? numFrames (m_profileHeader e)) eqn:Et.
    + apply Z.eqb_eq in Et. cbn. repeat split; try assumption.
      intros i. case_decide as D; [lia|reflexivity].
    + apply Z.eqb_neq in Et.
      destruct (wireIndex w <? Z.of_nat (length fs)) eqn:Ep.
      * apply Z.ltb_lt in Ep. cbn. rewrite length_alter.
        repeat split; try assumption.
        intros i. case_decide as D.
        -- destruct D as [D1 D2]. rewrite D1, Nat2Z.id.
           rewrite list_lookup_alter_eq.
           destruct (lookup_lt_is_Some_2 fs i D2) as [fr Hfr].
           rewrite Hfr. reflexivity.
        -- rewrite list_lookup_alter_ne; [reflexivity|].
           intros <-. apply D. split; lia.
      * apply Z.ltb_ge in Ep. cbn. repeat split; try assumption.
        intros i. case_decide as D; [lia|reflexivity].
Qed.

Lemma applyFrames_frameIndex ws : forall e,
  headerMatches e ->
  (length (m_profileFrames e) <= 32)%nat ->
  Forall (fun w => (8 <= length w)%nat) ws ->
  let e' := applyFrames ws e in
  headerMatches e'
  /\ length (m_profileFrames e') = length (m_profileFrames e)
  /\ forall i : nat,
       frameIndex <$> (m_profileFrames e' !! i)
       = if decide (Z.of_nat i ∈ map wireIndex ws
                    /\ (i < length (m_profileFrames e))%nat)
         then Some (Z.of_nat i)
         else frameIndex <$> (m_profileFrames e !! i).
Proof.
  induction ws as [|w ws IH]; intros e Hm Hlen Hall; cbv zeta.
  - split; [exact Hm|]. split; [reflexivity|].
    intros i. cbn [applyFrames fold_left map].
    case_decide as D; [|reflexivity].
    destruct D as [D _]. apply elem_of_nil in D. destruct D.
  - inversion Hall as [|? ? Hw Hws]; subst.
    cbn [applyFrames fold_left]. rewrite write_frame.
    destruct (handleFrameWrite_frameIndex w e Hm Hlen Hw) as (Hm1 & Hl1 & H1).
    set (e1 := handleFrameWrite w e) in *.
    assert (Hlen1 : (length (m_profileFrames e1) <= 32)%nat) by lia.
    destruct (IH e1 Hm1 Hlen1 Hws) as (Hm2 & Hl2 & H2).
    fold (applyFrames ws e1).
    split; [exact Hm2|]. split; [lia|].
    intros i. rewrite H2, H1, Hl1. cbn [map].
    repeat case_decide; try reflexivity; exfalso;
      rewrite ?elem_of_cons in *; intuition (auto; lia).
Qed.

(** C6 (as amended). One HEADER_WRITE declaring [N] frames, [N] at most
    32, followed by [N] FRAME_WRITEs of eight bytes or more whose wire
    indices are 0..N-1 in any order, leaves exactly [N] frames, the
    frame at each index [i] below [N] having [frameIndex] equal to
    [i]. *)
Theorem profile_frames_in_order
    (hdr : QByteArray) (ws : list QByteArray) (e : Engine) :
  (5 <= length hdr)%nat ->
  u8 (at_ hdr 1) <= 32 ->
  Forall (fun w => (8 <= length w)%nat) ws ->
  Permutation (map wireIndex ws)
    (map Z.of_nat (seq 0 (Z.to_nat (u8 (at_ hdr 1))))) ->
  let e' :=
    applyFrames ws (handleCharacteristicWrite DE1.CHAR_HEADER_WRITE hdr e) in
  length (m_profileFrames e') = Z.to_nat (u8 (at_ hdr 1))
  /\ forall i : nat,
       (i < Z.to_nat (u8 (at_ hdr 1)))%nat ->
       frameIndex <$> (m_profileFrames e' !! i) = Some (Z.of_nat i).
Proof.
  intros Hh HN Hall Hperm. cbv zeta. rewrite write_header.
  destruct (handleHeaderWrite_frames hdr e Hh) as [Hf Hn].
  set (e0 := handleHeaderWrite hdr e) in *.
  set (N := u8 (at_ hdr 1)) in *.
  assert (HN0 : 0 <= N) by apply u8_range.
  assert (Hl0 : length (m_profileFrames e0) = Z.to_nat N)
    by (rewrite Hf; apply length_replicate).
  assert (Hm0 : headerMatches e0).
  { unfold headerMatches. rewrite Hn, Hl0. lia. }
  assert (Hlen0 : (length (m_profileFrames e0) <= 32)%nat) by lia.
  destruct (applyFrames_frameIndex ws e0 Hm0 Hlen0 Hall) as (_ & Hl & Hi).
  split; [lia|].
  intros i Hlt. rewrite Hi. case_decide as D; [reflexivity|].
  exfalso. apply D. split; [|lia]. apply list_elem_of_In.
  apply (Permutation_in _ (Permutation_sym Hperm)).
  apply in_map. apply in_seq. lia.
Qed.

(** A header for three frames and its frames sent last first. *)
Lemma profile_frames_in_order_witness :
  let hdr := [x01; x03; x01; x10; x20] in
  let ws := [ [x02; x00; x00; x00; x00; x00; x00; x00];
              [x01; x00; x00; x00; x00; x00; x00; x00];
              [x00; x00; x00; x00; x00; x00; x00; x00] ] in
  let e' :=
    applyFrames ws
      (handleCharacteristicWrite DE1.CHAR_HEADER_WRITE hdr initialEngine) in
  length (m_profileFrames e') = 3%nat
  /\ forall i : nat,
       (i < 3)%nat ->
       frameIndex <$> (m_profileFrames e' !! i) = Some (Z.of_nat i).
Proof.
  cbv zeta.
  apply (profile_frames_in_order [x01; x03; x01; x10; x20]
           [ [x02; x00; x00; x00; x00; x00; x00; x00];
             [x01; x00; x00; x00; x00; x00; x00; x00];
             [x00; x00; x00; x00; x00; x00; x00; x00] ] initialEngine).
  - simpl. lia.
  - vm_compute. discriminate.
  - repeat constructor.
  - change (Permutation [2; 1; 0] [0; 1; 2]).
    apply Permutation_sym.
    apply perm_trans with [1; 0; 2]; [apply perm_swap|].
    apply perm_trans with [1; 2; 0]; [apply perm_skip, perm_swap|].
    apply perm_swap.
Defined.

(** C6 as stated fails for a header declaring 33 frames: wire index 32
    is taken for the extension of frame 0, and the frame at index 32
    keeps [frameIndex] 0. *)
Lemma profile_frames_in_order_counterexample :
  let hdr := [x01; x21; x00; x00; x00] in
  let e' :=
    applyFrames framesUpTo32
      (handleCharacteristicWrite DE1.CHAR_HEADER_WRITE hdr initialEngine) in
  u8 (at_ hdr 1) = 33
  /\ map wireIndex framesUpTo32 = map Z.of_nat (seq 0 33)
  /\ Forall (fun w => length w = 8%nat) framesUpTo32
  /\ length (m_profileFrames e') = 33%nat
  /\ ~ (forall i : nat,
          (i < 33)%nat ->
          frameIndex <$> (m_profileFrames e' !! i) = Some (Z.of_nat i)).
Proof.
  cbv zeta. split; [reflexivity|]. split; [reflexivity|].
  split; [repeat constructor|]. split; [reflexivity|].
  intros H. specialize (H 32%nat ltac:(lia)).
  vm_compute in H. discriminate H.
Qed.

End ProfileFacts.

Section FrameDecodeFacts.

(** A primary frame write at wire index 0 after a header that declares
    at least one frame: frame 0 holds the decoded fields. *)
Lemma first_frame_written hdr w e :
  (5 <= length hdr)%nat -> 1 <= u8 (at_ hdr 1) ->
  (8 <= length w)%nat -> at_ w 0 = x00 ->
  m_profileFrames
    (handleCharacteristicWrite DE1.CHAR_FRAME_WRITE w
       (handleCharacteristicWrite DE1.CHAR_HEADER_WRITE hdr e)) !! 0%nat
  = Some (setPrimary 0 w defaultFrame).
Proof.
  intros Hh HN Hw H0. rewrite write_header, write_frame.
  destruct (handleHeaderWrite_frames hdr e Hh) as [Hf Hn].
  set (e0 := handleHeaderWrite hdr e) in *.
  unfold handleFrameWrite.
  destruct (length w <? 8)%nat eqn:E; [apply Nat.ltb_lt in E; lia|].
  rewrite H0, Hn, Hf, length_replicate. change (u8 x00) with 0.
  cbn [Z.leb Z.compare].
  destruct (0 =? u8 (at_ hdr 1)) eqn:E0; [apply Z.eqb_eq in E0; lia|].
  destruct (0 <? Z.of_nat (Z.to_nat (u8 (at_ hdr 1)))) eqn:E1;
    [|apply Z.ltb_ge in E1; lia].
  cbn [m_profileFrames logRx log with_log with_frames Z.to_nat].
  rewrite list_lookup_alter_eq, lookup_replicate_2 by lia. reflexivity.
Qed.

(** C8. After a header declaring at least one frame, the FRAME_WRITE
    00 01 40 BE 32 00 00 64 sets frame 0 to pump mode Flow (flags 1),
    setVal 4.0, temp 95.0, duration 5.0, triggerVal 0 and maxVol 100;
    in general the fields of a primary frame are decoded from bytes
    1..7 as flags (U8), setVal (U8P4), temp (U8P1), duration (F8_1_7),
    triggerVal (U8P4) and maxVol (U10P0 of bytes 6 and 7). *)
Theorem frame_write_decodes (hdr : QByteArray) (e : Engine) :
  (5 <= length hdr)%nat -> 1 <= u8 (at_ hdr 1) ->
  (exists fr,
     m_profileFrames
       (handleCharacteristicWrite DE1.CHAR_FRAME_WRITE
          [x00; x01; x40; xbe; x32; x00; x00; x64]
          (handleCharacteristicWrite DE1.CHAR_HEADER_WRITE hdr e)) !! 0%nat
     = Some fr
     /\ frameIndex fr = 0 /\ flags fr = 1 /\ pumpMode fr = Flow
     /\ (setVal fr == 4)%Q /\ (temp fr == 95)%Q /\ (duration fr == 5)%Q
     /\ (triggerVal fr == 0)%Q /\ maxVol fr = 100)
  /\ (forall b1 b2 b3 b4 b5 b6 b7,
        exists fr,
          m_profileFrames
            (handleCharacteristicWrite DE1.CHAR_FRAME_WRITE
               [x00; b1; b2; b3; b4; b5; b6; b7]
               (handleCharacteristicWrite DE1.CHAR_HEADER_WRITE hdr e))
            !! 0%nat = Some fr
          /\ flags fr = u8 b1
          /\ setVal fr = BinaryCodec.decodeU8P4 (u8 b2)
          /\ temp fr = BinaryCodec.decodeU8P1 (u8 b3)
          /\ duration fr = BinaryCodec.decodeF8_1_7 (u8 b4)
          /\ triggerVal fr = BinaryCodec.decodeU8P4 (u8 b5)
          /\ maxVol fr = BinaryCodec.decodeU10P0 b6 b7).
Proof.
  intros Hh HN. split.
  - eexists. split.
    + apply first_frame_written; [exact Hh|exact HN|simpl; lia|reflexivity].
    + repeat split; reflexivity.
  - intros b1 b2 b3 b4 b5 b6 b7. eexists. split.
    + apply first_frame_written; [exact Hh|exact HN|simpl; lia|reflexivity].
    + repeat split; reflexivity.
Qed.

Lemma frame_write_decodes_witness :
  exists fr,
    m_profileFrames
      (handleCharacteristicWrite DE1.CHAR_FRAME_WRITE
         [x00; x01; x40; xbe; x32; x00; x00; x64]
         (handleCharacteristicWrite DE1.CHAR_HEADER_WRITE
            [x01; x03; x01; x10; x20] initialEngine)) !! 0%nat
    = Some fr
    /\ frameIndex fr = 0 /\ flags fr = 1 /\ pumpMode fr = Flow
    /\ (setVal fr == 4)%Q /\ (temp fr == 95)%Q /\ (duration fr == 5)%Q
    /\ (triggerVal fr == 0)%Q /\ maxVol fr = 100.
Proof.
  apply (proj1 (frame_write_decodes [x01; x03; x01; x10; x20] initialEngine
                  ltac:(simpl; lia) ltac:(vm_compute; discriminate))).
Defined.

End FrameDecodeFacts.

(** ** Decoding errors and the control channel *)

Section ChannelFacts.

Variable fromJson : QByteArray -> option QJsonObject.
Variable fromHex : string -> QByteArray.

Lemma indexOf_bound c buf idx :
  indexOf c buf = Some idx -> (idx < length buf)%nat.
Proof.
  revert idx. induction buf as [|b buf IH]; intros idx H; [discriminate|].
  cbn in H. destruct (Byte.eqb b c).
  - injection H as <-. cbn. lia.
  - destruct (indexOf c buf) as [i|]; [|discriminate].
    injection H as <-. specialize (IH i eq_refl). cbn. lia.
Qed.

Lemma indexOf_first c line rest :
  ~ In c line -> indexOf c (line ++ c :: rest) = Some (length line).
Proof.
  induction line as [|b line IH]; intros Hn.
  - cbn. rewrite (proj2 (byte_eqb_eq c c) eq_refl). reflexivity.
  - cbn. destruct (Byte.eqb b c) eqn:E.
    + apply byte_eqb_eq in E. exfalso. apply Hn. left. exact E.
    + rewrite IH; [reflexivity|]. intros Hin. apply Hn. right. exact Hin.
Qed.

Lemma drop_past_newline (line : QByteArray) c rest :
  drop (S (length line)) (line ++ c :: rest) = rest.
Proof. induction line as [|b line IH]; [reflexivity|exact IH]. Qed.

Lemma handlePiEvent_buffer event e :
  m_tcpBuffer (handlePiEvent fromHex event e) = m_tcpBuffer e.
Proof.
  unfold handlePiEvent.
  repeat case_match;
    try apply (inbound_write_keeps_timers _ _ e);
    unfold sendWaterLevel; unfold_handlers; repeat case_match; reflexivity.
Qed.

(** The loop of [onDataReceived] ends before its fuel does, and what it
    returns does not depend on the fuel left over. *)
Lemma drainBuffer_fuel fuel : forall fuel' e,
  (length (m_tcpBuffer e) < fuel)%nat ->
  (length (m_tcpBuffer e) < fuel')%nat ->
  drainBuffer fromJson fromHex fuel e = drainBuffer fromJson fromHex fuel' e
  /\ is_Some (drainBuffer fromJson fromHex fuel e).
Proof.
  induction fuel as [|fuel IH]; intros fuel' e H H'; [lia|].
  destruct fuel' as [|fuel']; [lia|]. cbn [drainBuffer].
  destruct (indexOf x0a (m_tcpBuffer e)) as [idx|] eqn:Ei;
    [|split; [reflexivity|eexists; reflexivity]].
  apply indexOf_bound in Ei.
  assert (Hd : (length (drop (S idx) (m_tcpBuffer e))
                < length (m_tcpBuffer e))%nat)
    by (rewrite length_drop; lia).
  destruct (take idx (m_tcpBuffer e)) as [|b line].
  - apply IH; cbn [m_tcpBuffer with_buffer]; lia.
  - destruct (fromJson (b :: line)) as [obj|].
    + apply IH; rewrite handlePiEvent_buffer; cbn [m_tcpBuffer with_buffer];
        lia.
    + apply IH; cbn [m_tcpBuffer with_buffer log with_log]; lia.
Qed.

(** [onDataReceived] always returns. *)
Lemma onDataReceived_total received e :
  is_Some (onDataReceived fromJson fromHex received e).
Proof.
  unfold onDataReceived.
  apply (drainBuffer_fuel _ (S (length (m_tcpBuffer e ++ received))));
    cbn [m_tcpBuffer with_buffer]; lia.
Qed.

(** A malformed line at the head of what is received is logged and
    skipped; the lines after it are processed as if it had not come. *)
Lemma malformed_line_skipped line rest e :
  m_tcpBuffer e = [] -> line <> [] -> ~ In x0a line ->
  fromJson line = None ->
  onDataReceived fromJson fromHex (line ++ x0a :: rest) e
  = onDataReceived fromJson fromHex rest (log MsgJsonParseError ERROR e).
Proof.
  intros Hb Hne Hnl Hbad. unfold onDataReceived.
  cbn [m_tcpBuffer log with_log]. rewrite Hb. cbn [app].
  match goal with |- _ = ?r => set (R := r) end.
  cbn [drainBuffer m_tcpBuffer with_buffer].
  rewrite (indexOf_first x0a line rest Hnl).
  rewrite take_app_length.
  rewrite drop_past_newline.
  destruct line as [|b line]; [congruence|]. rewrite Hbad. subst R.
  match goal with
  | |- drainBuffer _ _ ?f ?a = drainBuffer _ _ ?g ?b =>
      replace a with b by (destruct e; cbn in *; subst; reflexivity)
  end.
  apply drainBuffer_fuel; cbn [m_tcpBuffer with_buffer];
    rewrite ?length_app; cbn [length]; lia.
Qed.

(** C9 (as amended). A characteristic write shorter than its handler
    requires is dropped: the engine (machine state, substate, profile,
    simulated values, timers, output) is unchanged and the link stays
    open. A short header, frame or shot-settings write is logged; a
    short REQUESTED_STATE, read-from-MMR or write-to-MMR payload is
    dropped without a log line. A malformed JSON line on the control
    channel is logged (ERROR) and skipped, the engine being otherwise
    unchanged, and the lines after it are processed as usual. *)
Theorem decoding_errors_dropped (value : QByteArray) (e : Engine) :
  ((length value < 1)%nat ->
   handleCharacteristicWrite DE1.CHAR_REQUESTED_STATE value e = e)
  /\ ((length value < 4)%nat ->
      handleCharacteristicWrite DE1.CHAR_READ_FROM_MMR value e = e)
  /\ ((length value < 8)%nat ->
      handleCharacteristicWrite DE1.CHAR_WRITE_TO_MMR value e = e)
  /\ ((length value < 5)%nat ->
      handleCharacteristicWrite DE1.CHAR_HEADER_WRITE value e
      = log (MsgHeaderInvalidSize (length value)) RX e)
  /\ ((length value < 8)%nat ->
      handleCharacteristicWrite DE1.CHAR_FRAME_WRITE value e
      = log (MsgFrameInvalidSize (length value)) RX e)
  /\ ((length value < 9)%nat ->
      handleCharacteristicWrite DE1.CHAR_SHOT_SETTINGS value e
      = log (MsgShotSettingsInvalidSize (length value)) RX e)
  /\ (forall rest,
        m_tcpBuffer e = [] -> value <> [] -> ~ In x0a value ->
        fromJson value = None ->
        onDataReceived fromJson fromHex (value ++ x0a :: rest) e
        = onDataReceived fromJson fromHex rest
            (log MsgJsonParseError ERROR e)
        /\ is_Some (onDataReceived fromJson fromHex (value ++ x0a :: rest) e))
  /\ (forall msg cat,
        engineState (log msg cat e) = engineState e
        /\ socketOut (log msg cat e) = socketOut e
        /\ phaseTimer (log msg cat e) = phaseTimer e
        /\ shotTimerActive (log msg cat e) = shotTimerActive e
        /\ logView (log msg cat e) = logView e ++ [mkLog cat msg]).
Proof.
  repeat apply conj.
  - intros H.
    change (handleCharacteristicWrite DE1.CHAR_REQUESTED_STATE value e)
      with (if (1 <=? length value)%nat
            then handleRequestedState (at_ value 0)
                   (logRx (MsgRequestedState (at_ value 0)) e)
            else e).
    destruct (1 <=? length value)%nat eqn:E;
      [apply Nat.leb_le in E; lia|reflexivity].
  - intros H. change (handleMMRReadRequest value e = e).
    unfold handleMMRReadRequest.
    destruct (length value <? 4)%nat eqn:E;
      [reflexivity|apply Nat.ltb_ge in E; lia].
  - intros H. change (handleMMRWrite value e = e).
    unfold handleMMRWrite.
    destruct (length value <? 8)%nat eqn:E;
      [reflexivity|apply Nat.ltb_ge in E; lia].
  - intros H. rewrite write_header. unfold handleHeaderWrite.
    destruct (length value <? 5)%nat eqn:E;
      [reflexivity|apply Nat.ltb_ge in E; lia].
  - intros H. rewrite write_frame. unfold handleFrameWrite.
    destruct (length value <? 8)%nat eqn:E;
      [reflexivity|apply Nat.ltb_ge in E; lia].
  - intros H.
    change (handleShotSettings value e
            = log (MsgShotSettingsInvalidSize (length value)) RX e).
    unfold handleShotSettings.
    destruct (length value <? 9)%nat eqn:E;
      [reflexivity|apply Nat.ltb_ge in E; lia].
  - intros rest Hb Hne Hnl Hbad. split.
    + apply malformed_line_skipped; assumption.
    + apply onDataReceived_total.
  - intros msg cat. repeat apply conj; reflexivity.
Qed.

End ChannelFacts.

Section ChannelExamples.

(** A one-byte header write, and a line that is not JSON, with a parser
    that accepts nothing. *)
Lemma decoding_errors_dropped_witness :
  let e := idleEngine GhcPresentActive in
  handleCharacteristicWrite DE1.CHAR_HEADER_WRITE [x01] e
  = log (MsgHeaderInvalidSize 1) RX e
  /\ handleCharacteristicWrite DE1.CHAR_READ_FROM_MMR [x00; x80] e = e
  /\ onDataReceived (fun _ => None) (fun _ => []) [x7b; x0a] e
     = onDataReceived (fun _ => None) (fun _ => []) []
         (log MsgJsonParseError ERROR e).
Proof.
  cbv zeta.
  pose proof (decoding_errors_dropped (fun _ => None) (fun _ => [])) as T.
  split; [|split].
  - apply (proj1 (proj2 (proj2 (proj2
             (T [x01] (idleEngine GhcPresentActive)))))).
    simpl. lia.
  - apply (proj1 (proj2 (T [x00; x80] (idleEngine GhcPresentActive)))).
    simpl. lia.
  - apply (proj1 (proj2 (proj2 (proj2 (proj2 (proj2 (proj2
             (T [x7b] (idleEngine GhcPresentActive)))))))) []).
    + reflexivity.
    + discriminate.
    + intros [H|[]]. discriminate H.
    + reflexivity.
Defined.

(** C9 as stated fails where it says every such input is logged: a
    read-from-MMR request of one byte, an empty REQUESTED_STATE write
    and a write-to-MMR of seven bytes leave no line in the log. *)
Lemma short_payload_logged_counterexample :
  let e := idleEngine GhcPresentActive in
  logView (handleCharacteristicWrite DE1.CHAR_READ_FROM_MMR [x00] e)
  = logView e
  /\ logView (handleCharacteristicWrite DE1.CHAR_REQUESTED_STATE [] e)
     = logView e
  /\ logView (handleCharacteristicWrite DE1.CHAR_WRITE_TO_MMR (zeros 7) e)
     = logView e
  /\ ~ (exists entry,
          logView (handleCharacteristicWrite DE1.CHAR_READ_FROM_MMR [x00] e)
          = logView e ++ [entry]).
Proof.
  cbv zeta. repeat split. intros [entry H]. vm_compute in H. discriminate H.
Qed.

End ChannelExamples.

(** ** The Espresso ladder *)

Section LadderFacts.

Variable qSin : Q -> Q.

Lemma stateInfoLog_transition s ss e :
  stateInfoLog (transitionToState s ss e) = stateInfoLog e ++ [(s, ss)].
Proof.
  unfold stateInfoLog. unfold_handlers. cbn [logView with_log with_out with_state].
  rewrite omap_app. reflexivity.
Qed.

(** A shot-sample tick and a water-level tick change neither the pair,
    nor a timer, nor the log. *)
Lemma tick_keeps_phase e :
  let e' := onShotTimerTick qSin e in
  m_currentState e' = m_currentState e
  /\ m_currentSubState e' = m_currentSubState e
  /\ phaseTimer e' = phaseTimer e
  /\ shotTimerActive e' = shotTimerActive e
  /\ logView e' = logView e.
Proof.
  cbv zeta. unfold onShotTimerTick, sendShotSample, updateSimulationValues.
  unfold_handlers. cbn [m_currentState m_currentSubState with_sim].
  repeat case_match; cbn; repeat apply conj; reflexivity.
Qed.

Lemma water_keeps_phase e :
  let e' := sendWaterLevel e in
  m_currentState e' = m_currentState e
  /\ m_currentSubState e' = m_currentSubState e
  /\ phaseTimer e' = phaseTimer e
  /\ shotTimerActive e' = shotTimerActive e
  /\ logView e' = logView e.
Proof.
  cbv zeta. unfold sendWaterLevel. unfold_handlers.
  repeat case_match; cbn; repeat apply conj; reflexivity.
Qed.

(** A phase timeout on a rung below the last leads to the next rung and
    logs that one transition. *)
Lemma phase_step j e :
  onRung j e -> (j < 4)%nat ->
  exists e',
    fireTimer qSin PhaseTimeout e = Some e'
    /\ onRung (S j) e'
    /\ stateInfoLog e'
       = stateInfoLog e ++ map rungPair (take 1 (drop (S j) espressoLadder)).
Proof.
  intros [Hr Hs] Hj.
  destruct e as [c ce buf s ss h fs v sa pt wa g lv out].
  cbn [m_currentState m_currentSubState phaseTimer shotTimerActive] in *.
  assert (j = 0 \/ j = 1 \/ j = 2 \/ j = 3)%nat as Hc by lia.
  destruct Hc as [->|[->|[->| ->]]]; cbn in Hr; injection Hr as <- <- <-;
    subst sa; destruct c;
    (eexists; split; [reflexivity|]; split;
     [split; reflexivity|]);
    unfold stateInfoLog; cbn; rewrite omap_app; reflexivity.
Qed.

(** On the last rung no timer of the run is active any more. *)
Lemma last_rung_quiet e :
  onRung 4 e ->
  fireTimer qSin PhaseTimeout e = None /\ fireTimer qSin ShotTick e = None.
Proof.
  intros [Hr Hs]. cbn in Hr. injection Hr as _ _ Ht.
  unfold fireTimer. rewrite <- Ht, Hs. split; reflexivity.
Qed.

Lemma onRung_bound j e : onRung j e -> (j <= 4)%nat.
Proof.
  intros [Hr _]. apply lookup_lt_Some in Hr. cbn in Hr. lia.
Qed.

Lemma take_one_more {A} (k : nat) (l : list A) :
  take 1 l ++ take k (drop 1 l) = take (S k) l.
Proof. destruct l; [destruct k; reflexivity|reflexivity]. Qed.

(** Whatever the schedule of timer events, the engine climbs the ladder
    one rung per phase timeout and logs exactly the rungs it enters. *)
Lemma run_on_ladder evs : forall j e e',
  onRung j e ->
  runTimers qSin evs e = Some e' ->
  (j + phaseTimeouts evs <= 4)%nat
  /\ onRung (j + phaseTimeouts evs) e'
  /\ stateInfoLog e'
     = stateInfoLog e
       ++ map rungPair (take (phaseTimeouts evs) (drop (S j) espressoLadder)).
Proof.
  induction evs as [|ev evs IH]; intros j e e' Hr Hrun.
  - cbn in Hrun. injection Hrun as <-. unfold phaseTimeouts. cbn.
    rewrite Nat.add_0_r, app_nil_r. pose proof (onRung_bound j e Hr).
    split; [lia|split; [exact Hr|reflexivity]].
  - cbn [runTimers] in Hrun.
    destruct (fireTimer qSin ev e) as [e1|] eqn:Ef; [|discriminate].
    destruct ev.
    + pose proof (onRung_bound j e Hr) as Hb.
      destruct (decide (j = 4%nat)) as [->|Hne].
      { rewrite (proj1 (last_rung_quiet e Hr)) in Ef. discriminate. }
      destruct (phase_step j e Hr ltac:(lia)) as (e2 & Ef2 & Hr2 & Hl2).
      rewrite Ef in Ef2. injection Ef2 as <-.
      destruct (IH (S j) e1 e' Hr2 Hrun) as (Hk & Hr' & Hl').
      change (phaseTimeouts (PhaseTimeout :: evs))
        with (S (phaseTimeouts evs)).
      rewrite Nat.add_succ_r. split; [lia|split; [exact Hr'|]].
      rewrite Hl', Hl2, <- app_assoc, <- map_app. do 2 f_equal.
      replace (S (S j)) with (S j + 1)%nat by lia.
      rewrite <- drop_drop. apply take_one_more.
    + unfold fireTimer in Ef.
      destruct (shotTimerActive e); [|discriminate]. injection Ef as <-.
      destruct (tick_keeps_phase e) as (T1 & T2 & T3 & T4 & T5).
      cbv zeta in *.
      assert (Hr1 : onRung j (onShotTimerTick qSin e)).
      { destruct Hr as [Ha Hb]. split; [rewrite T1, T2, T3; exact Ha|].
        rewrite T4. exact Hb. }
      destruct (IH j _ e' Hr1 Hrun) as (Hk & Hr' & Hl').
      change (phaseTimeouts (ShotTick :: evs)) with (phaseTimeouts evs).
      split; [exact Hk|split; [exact Hr'|]].
      rewrite Hl'. unfold stateInfoLog. rewrite T5. reflexivity.
    + unfold fireTimer in Ef.
      destruct (waterTimerActive e); [|discriminate]. injection Ef as <-.
      destruct (water_keeps_phase e) as (T1 & T2 & T3 & T4 & T5).
      cbv zeta in *.
      assert (Hr1 : onRung j (sendWaterLevel e)).
      { destruct Hr as [Ha Hb]. split; [rewrite T1, T2, T3; exact Ha|].
        rewrite T4. exact Hb. }
      destruct (IH j _ e' Hr1 Hrun) as (Hk & Hr' & Hl').
      change (phaseTimeouts (WaterTick :: evs)) with (phaseTimeouts evs).
      split; [exact Hk|split; [exact Hr'|]].
      rewrite Hl'. unfold stateInfoLog. rewrite T5. reflexivity.
Qed.

Lemma runTimers_app evs1 evs2 e :
  runTimers qSin (evs1 ++ evs2) e
  = match runTimers qSin evs1 e with
    | Some e1 => runTimers qSin evs2 e1
    | None => None
    end.
Proof.
  revert e. induction evs1 as [|ev evs1 IH]; intros e; [reflexivity|].
  cbn [app runTimers]. destruct (fireTimer qSin ev e); [apply IH|reflexivity].
Qed.

(** Shot-sample ticks followed by the phase timeout can always happen
    below the last rung, and lead to the next rung. *)
Lemma phase_runs n j : forall e,
  onRung j e -> (j < 4)%nat ->
  exists e',
    runTimers qSin (repeat ShotTick n ++ [PhaseTimeout]) e = Some e'
    /\ onRung (S j) e'
    /\ stateInfoLog e'
       = stateInfoLog e ++ map rungPair (take 1 (drop (S j) espressoLadder)).
Proof.
  induction n as [|n IH]; intros e Hr Hj.
  - destruct (phase_step j e Hr Hj) as (e' & Ef & Hr' & Hl).
    exists e'. cbn [repeat app runTimers]. rewrite Ef.
    split; [reflexivity|]. split; [exact Hr'|exact Hl].
  - cbn [repeat app runTimers]. unfold fireTimer at 1.
    destruct Hr as [Ha Hb]. rewrite Hb.
    rewrite (bool_decide_eq_true_2 _ Hj).
    destruct (tick_keeps_phase e) as (T1 & T2 & T3 & T4 & T5).
    cbv zeta in *.
    destruct (IH (onShotTimerTick qSin e)) as (e' & Hrun & Hr' & Hl).
    + split; [rewrite T1, T2, T3; exact Ha|]. rewrite T4. exact Hb.
    + exact Hj.
    + exists e'. split; [exact Hrun|]. split; [exact Hr'|].
      rewrite Hl. unfold stateInfoLog. rewrite T5. reflexivity.
Qed.

(** A start of Espresso from Idle or Sleep puts the engine on the first
    rung. *)
Lemma start_espresso_first_rung e0 :
  m_currentState e0 = DE1.State.Idle \/ m_currentState e0 = DE1.State.Sleep ->
  onRung 0 (startOperation DE1.State.Espresso e0)
  /\ stateInfoLog (startOperation DE1.State.Espresso e0)
     = stateInfoLog e0 ++ [(DE1.State.Espresso, DE1.SubState.Heating)].
Proof.
  intros H. unfold startOperation.
  assert (E : negb (Byte.eqb (m_currentState e0) DE1.State.Idle)
              && negb (Byte.eqb (m_currentState e0) DE1.State.Sleep) = false)
    by (destruct H as [-> | ->]; reflexivity).
  rewrite E. change (Byte.eqb DE1.State.Espresso DE1.State.Espresso) with true.
  cbv iota. split.
  - unfold_handlers. split; reflexivity.
  - unfold stateInfoLog. unfold_handlers.
    cbn [logView with_shotTimer with_phaseTimer with_log with_out with_state
         with_sim].
    rewrite omap_app. reflexivity.
Qed.

(** C5. An Espresso run begun by a start operation (from Idle or Sleep)
    enters Heating with the phase timer armed for 2000 ms; each phase
    timeout then leads to the next of Preinfusion (armed 5000 ms),
    Pouring (25000 ms), Ending (2000 ms) and (Idle, Ready) with the
    timers stopped. Under every schedule of timer events the pairs
    reported are a prefix of that list in that order, one per phase
    timeout, so no substate repeats and none is skipped; and the run
    with any number of shot-sample ticks in each phase goes through to
    (Idle, Ready). *)
Theorem espresso_ladder_order (e0 : Engine) :
  m_currentState e0 = DE1.State.Idle \/ m_currentState e0 = DE1.State.Sleep ->
  let e1 := startOperation DE1.State.Espresso e0 in
  (forall evs e',
     runTimers qSin evs e1 = Some e' ->
     (phaseTimeouts evs <= 4)%nat
     /\ espressoLadder !! phaseTimeouts evs
        = Some (m_currentState e', m_currentSubState e', phaseTimer e')
     /\ stateInfoLog e'
        = stateInfoLog e0
          ++ map rungPair (take (S (phaseTimeouts evs)) espressoLadder))
  /\ (forall n0 n1 n2 n3,
        exists e',
          runTimers qSin (espressoSchedule n0 n1 n2 n3) e1 = Some e'
          /\ m_currentState e' = DE1.State.Idle
          /\ m_currentSubState e' = DE1.SubState.Ready
          /\ phaseTimer e' = None
          /\ shotTimerActive e' = false
          /\ stateInfoLog e'
             = stateInfoLog e0
               ++ [ (DE1.State.Espresso, DE1.SubState.Heating);
                    (DE1.State.Espresso, DE1.SubState.Preinfusion);
                    (DE1.State.Espresso, DE1.SubState.Pouring);
                    (DE1.State.Espresso, DE1.SubState.Ending);
                    (DE1.State.Idle, DE1.SubState.Ready) ])
  /\ NoDup (map (fun r => snd (rungPair r)) espressoLadder).
Proof.
  intros H0. cbv zeta.
  destruct (start_espresso_first_rung e0 H0) as [Hr1 Hl1].
  set (e1 := startOperation DE1.State.Espresso e0) in *.
  split; [|split].
  - intros evs e' Hrun.
    destruct (run_on_ladder evs 0%nat e1 e' Hr1 Hrun) as (Hk & [Ha _] & Hl).
    cbn [Nat.add] in *. split; [exact Hk|]. split; [exact Ha|].
    rewrite Hl, Hl1, <- app_assoc. reflexivity.
  - intros n0 n1 n2 n3. unfold espressoSchedule.
    destruct (phase_runs n0 0%nat e1 Hr1 ltac:(lia)) as (a & Ra & Hra & La).
    destruct (phase_runs n1 1%nat a Hra ltac:(lia)) as (b & Rb & Hrb & Lb).
    destruct (phase_runs n2 2%nat b Hrb ltac:(lia)) as (c & Rc & Hrc & Lc).
    destruct (phase_runs n3 3%nat c Hrc ltac:(lia)) as (d & Rd & Hrd & Ld).
    exists d.
    rewrite (runTimers_app (repeat ShotTick n0 ++ [PhaseTimeout])), Ra.
    rewrite (runTimers_app (repeat ShotTick n1 ++ [PhaseTimeout])), Rb.
    rewrite (runTimers_app (repeat ShotTick n2 ++ [PhaseTimeout])), Rc.
    split; [exact Rd|].
    destruct Hrd as [Hd1 Hd2]. cbn in Hd1. injection Hd1 as <- <- <-.
    repeat apply conj; try reflexivity; [exact Hd2|].
    rewrite Ld, Lc, Lb, La, Hl1. cbn. rewrite <- !app_assoc. reflexivity.
  - cbn.
    repeat (apply NoDup_cons_2;
            [rewrite ?elem_of_cons, elem_of_nil; intuition discriminate|]).
    apply NoDup_nil_2.
Qed.

End LadderFacts.

Section LadderExamples.

(** The run at 5 Hz: 10, 25, 125 and 10 shot samples in the phases. *)
Lemma espresso_ladder_order_witness :
  exists e',
    runTimers (fun _ => 0%Q) (espressoSchedule 10 25 125 10)
      (startOperation DE1.State.Espresso (idleEngine GhcPresentActive))
    = Some e'
    /\ m_currentState e' = DE1.State.Idle
    /\ m_currentSubState e' = DE1.SubState.Ready
    /\ phaseTimer e' = None
    /\ shotTimerActive e' = false
    /\ stateInfoLog e'
       = [ (DE1.State.Espresso, DE1.SubState.Heating);
           (DE1.State.Espresso, DE1.SubState.Preinfusion);
           (DE1.State.Espresso, DE1.SubState.Pouring);
           (DE1.State.Espresso, DE1.SubState.Ending);
           (DE1.State.Idle, DE1.SubState.Ready) ].
Proof.
  apply (proj1 (proj2 (espresso_ladder_order (fun _ => 0%Q)
                         (idleEngine GhcPresentActive)
                         (or_introl eq_refl)))).
Defined.

End LadderExamples.

(** ** The Radio Agent and the Controller's disconnection *)

Section AgentFacts.

(** The agent of [pi-daemon] keeps its BLE state, advertising included,
    when the Controller disconnects. *)
Lemma pi_disconnect_keeps_ble a :
  bleState (PiDaemon.onTcpDisconnected a) = bleState a
  /\ m_tcpClient (PiDaemon.onTcpDisconnected a) = None.
Proof. split; reflexivity. Qed.

Lemma pi_step_keeps_advertising i a :
  notStop i -> serviceCreated a = true -> advertising a = true ->
  advertising (PiDaemon.step i a) = true
  /\ serviceCreated (PiDaemon.step i a) = true.
Proof.
  intros Hi Hs Ha. unfold notStop in Hi.
  destruct i as [socket| |address| |code|charId value|charId|cmd];
    cbn [PiDaemon.step];
    unfold PiDaemon.onTcpConnection, PiDaemon.onTcpDisconnected,
      PiDaemon.onBleConnected, PiDaemon.onBleDisconnected,
      PiDaemon.onBleError, PiDaemon.onCharacteristicChanged,
      PiDaemon.onCharacteristicRead, PiDaemon.startAdvertising,
      PiDaemon.sendToWindows;
    cbn [serviceCreated AgentFields.with_central AgentFields.with_client
         AgentFields.with_toWindows m_tcpClient];
    rewrite ?Hs;
    try (repeat case_match; cbn; split; (assumption || reflexivity)).
  destruct (m_tcpClient a); [|split; assumption].
  destruct cmd as [charId data|charId data| | |action]; cbn [PiDaemon.handleCommand];
    unfold PiDaemon.sendNotification, PiDaemon.updateCharacteristic,
      PiDaemon.startAdvertising, PiDaemon.sendToWindows,
      AgentFields.writeCharacteristic;
    rewrite ?Hs; try congruence;
    repeat case_match; cbn; split; (assumption || reflexivity).
Qed.

(** Once it advertises, the agent of [pi-daemon] advertises after every
    sequence of inputs in which the Controller sends no [stop]:
    connections and disconnections of the Controller included. *)
Lemma pi_run_keeps_advertising inputs : forall a,
  Forall notStop inputs ->
  serviceCreated a = true -> advertising a = true ->
  advertising (PiDaemon.run inputs a) = true.
Proof.
  induction inputs as [|i inputs IH]; intros a Hall Hs Ha; [exact Ha|].
  inversion Hall as [|? ? Hi Hrest]; subst.
  destruct (pi_step_keeps_advertising i a Hi Hs Ha) as [Ha1 Hs1].
  cbn [PiDaemon.run fold_left]. apply (IH _ Hrest Hs1 Ha1).
Qed.

(** C3. The agent of [pi-daemon/de1-ble-daemon.cpp] keeps its BLE state
    and goes on advertising when the Controller disconnects, and from
    boot on it advertises after every sequence of inputs without a
    [stop] command. The agent embedded in [main.cpp] as [DAEMON_CPP]
    does not: attached to a Controller it advertises, and the
    disconnection of that Controller turns advertising off. *)
Theorem controller_disconnect_advertising :
  (forall a, bleState (PiDaemon.onTcpDisconnected a) = bleState a)
  /\ (forall inputs,
        Forall notStop inputs ->
        advertising
          (PiDaemon.run inputs (PiDaemon.startAdvertising PiDaemon.boot))
        = true)
  /\ (let attached := EmbeddedDaemon.step (InTcpConnection 1)
                        EmbeddedDaemon.boot in
      advertising attached = true
      /\ advertising (EmbeddedDaemon.step InTcpDisconnected attached)
         = false)
  /\ (forall a, advertising (EmbeddedDaemon.onTcpDisconnected a) = false).
Proof.
  split; [|split; [|split]].
  - intros a. reflexivity.
  - intros inputs Hall. apply pi_run_keeps_advertising;
      [exact Hall|reflexivity|reflexivity].
  - cbv zeta. split; reflexivity.
  - intros a. reflexivity.
Qed.

End AgentFacts.

(** ** The arithmetic of double *)

Section DoubleFacts.
Import Double.

Lemma two_nonzero : ~ (2 == 0)%Q.
Proof. discriminate. Qed.

Lemma pow2_pos k : (0 < 2 ^ k)%Q.
Proof. apply Qpower_0_lt. reflexivity. Qed.

Lemma pow2_add a b : (2 ^ (a + b) == 2 ^ a * 2 ^ b)%Q.
Proof. apply Qpower_plus, two_nonzero. Qed.

Lemma pow2_le a b : a <= b -> (2 ^ a <= 2 ^ b)%Q.
Proof. intros H. apply Qpower_le_compat_l; [exact H|discriminate]. Qed.

Lemma pow2_lt_inv a b : (2 ^ a < 2 ^ b)%Q -> a < b.
Proof. intros H. apply (Qpower_lt_compat_l_inv 2); [exact H|reflexivity]. Qed.

Lemma pow2_Z k : 0 <= k -> (2 ^ k == inject_Z (2 ^ k))%Q.
Proof. intros H. rewrite (Zpower_Qpower 2 k H). reflexivity. Qed.

Lemma pow2_cancel k : (2 ^ k * 2 ^ (- k) == 1)%Q.
Proof. rewrite <- pow2_add. replace (k + - k) with 0 by lia. reflexivity. Qed.

(** *** Rounding to an integer *)

Lemma rne_bounds q : Qfloor q <= rne q <= Qfloor q + 1.
Proof.
  unfold rne. cbv zeta.
  destruct (q - inject_Z (Qfloor q) ?= 1 # 2)%Q;
    [destruct (Z.even (Qfloor q))| |]; lia.
Qed.

Lemma rne_comp q q' : (q == q')%Q -> rne q = rne q'.
Proof.
  intros H. unfold rne. cbv zeta. rewrite (Qfloor_comp _ _ H).
  assert (E : (q - inject_Z (Qfloor q') == q' - inject_Z (Qfloor q'))%Q)
    by (rewrite H; reflexivity).
  rewrite (Qcompare_comp _ _ E (1 # 2) (1 # 2) (Qeq_refl _)). reflexivity.
Qed.

Lemma rne_Z n : rne (inject_Z n) = n.
Proof.
  unfold rne. cbv zeta. rewrite Qfloor_Z.
  assert (E : (inject_Z n - inject_Z n ?= 1 # 2)%Q = Lt).
  { rewrite <- Qlt_alt. generalize (inject_Z n). intros q. lra. }
  rewrite E. reflexivity.
Qed.

Lemma rne_mono q q' : (q <= q')%Q -> rne q <= rne q'.
Proof.
  intros H. pose proof (Qfloor_resp_le _ _ H) as F.
  pose proof (rne_bounds q) as B. pose proof (rne_bounds q') as B'.
  destruct (Z.eq_dec (Qfloor q) (Qfloor q')) as [E|E]; [|lia].
  unfold rne in *. cbv zeta in *. rewrite <- E in *.
  destruct (q - inject_Z (Qfloor q) ?= 1 # 2)%Q eqn:C;
    destruct (q' - inject_Z (Qfloor q) ?= 1 # 2)%Q eqn:C';
    try (destruct (Z.even (Qfloor q))); try lia.
  all: first [apply Qeq_alt in C | apply Qlt_alt in C | apply Qgt_alt in C];
    first [apply Qeq_alt in C' | apply Qlt_alt in C' | apply Qgt_alt in C'];
    exfalso; revert C C'; generalize (inject_Z (Qfloor q)); intros g C C';
    lra.
Qed.

(** *** The exponent *)

Lemma Zlog2_Q n :
  0 < n ->
  (2 ^ Z.log2 n <= inject_Z n)%Q /\ (inject_Z n < 2 ^ (Z.log2 n + 1))%Q.
Proof.
  intros H. destruct (Z.log2_spec n H) as [L U].
  pose proof (Z.log2_nonneg n) as N.
  rewrite !pow2_Z by lia. rewrite <- Zle_Qle, <- Zlt_Qlt.
  replace (Z.log2 n + 1) with (Z.succ (Z.log2 n)) by lia. split; assumption.
Qed.

Lemma ilog2_spec x :
  (0 < x)%Q -> (2 ^ ilog2 x <= x)%Q /\ (x < 2 ^ (ilog2 x + 1))%Q.
Proof.
  intros Hx. destruct x as [n d]. unfold ilog2. cbn [Qnum Qden].
  assert (Hn : 0 < n) by (unfold Qlt in Hx; cbn in Hx; lia).
  destruct (Zlog2_Q n Hn) as [Ln Un].
  destruct (Zlog2_Q (Zpos d) (Pos2Z.is_pos d)) as [Ld Ud].
  set (a := Z.log2 n) in *. set (b := Z.log2 (Z.pos d)) in *.
  assert (Ex : (n # d == inject_Z n / inject_Z (Z.pos d))%Q)
    by apply Qmake_Qdiv.
  assert (Dpos : (0 < inject_Z (Z.pos d))%Q) by reflexivity.
  assert (Lo : (2 ^ (a - b - 1) <= n # d)%Q).
  { rewrite Ex. apply Qle_shift_div_l; [exact Dpos|].
    apply Qle_trans with (2 ^ (a - b - 1) * 2 ^ (b + 1))%Q.
    - apply Qmult_le_l; [apply pow2_pos|apply Qlt_le_weak, Ud].
    - rewrite <- pow2_add. replace (a - b - 1 + (b + 1)) with a by lia.
      exact Ln. }
  assert (Hi : (n # d < 2 ^ (a - b + 1))%Q).
  { rewrite Ex. apply Qlt_shift_div_r; [exact Dpos|].
    apply Qlt_le_trans with (2 ^ (a + 1))%Q; [exact Un|].
    replace (a + 1) with (a - b + 1 + b) by lia. rewrite pow2_add.
    apply Qmult_le_l; [apply pow2_pos|exact Ld]. }
  destruct (Qle_bool (2 ^ (a - b)) (n # d)) eqn:C.
  - apply Qle_bool_iff in C. split; assumption.
  - split; [exact Lo|]. replace (a - b - 1 + 1) with (a - b) by lia.
    apply Qnot_le_lt. intros H. apply Qle_bool_iff in H. congruence.
Qed.

Lemma exponent_le x y ex ey :
  (2 ^ ex <= x)%Q -> (x <= y)%Q -> (y < 2 ^ (ey + 1))%Q -> ex <= ey.
Proof.
  intros A B C.
  assert (H : (2 ^ ex < 2 ^ (ey + 1))%Q) by lra.
  apply pow2_lt_inv in H. lia.
Qed.

Lemma ilog2_mono x y : (0 < x)%Q -> (x <= y)%Q -> ilog2 x <= ilog2 y.
Proof.
  intros Hx H.
  destruct (ilog2_spec x Hx) as [A _].
  destruct (ilog2_spec y) as [_ B]; [lra|].
  apply (exponent_le x y); assumption.
Qed.

Lemma ilog2_unique x e :
  (2 ^ e <= x)%Q -> (x < 2 ^ (e + 1))%Q -> ilog2 x = e.
Proof.
  intros A B.
  assert (Hx : (0 < x)%Q) by (pose proof (pow2_pos e); lra).
  destruct (ilog2_spec x Hx) as [A' B'].
  pose proof (exponent_le x x _ _ A (Qle_refl x) B').
  pose proof (exponent_le x x _ _ A' (Qle_refl x) B). lia.
Qed.

(** *** The rounding *)

Lemma scaled_range x :
  (0 < x)%Q ->
  (inject_Z (2 ^ 52) <= x * 2 ^ (52 - ilog2 x))%Q
  /\ (x * 2 ^ (52 - ilog2 x) <= inject_Z (2 ^ 53))%Q.
Proof.
  intros Hx. destruct (ilog2_spec x Hx) as [A B].
  set (e := ilog2 x) in *. pose proof (pow2_pos (52 - e)) as P.
  rewrite <- !pow2_Z by lia. split.
  - replace 52 with (e + (52 - e)) at 1 by lia. rewrite pow2_add.
    apply Qmult_le_compat_r; [exact A|apply Qlt_le_weak, P].
  - replace 53 with (e + 1 + (52 - e)) by lia. rewrite pow2_add.
    apply Qmult_le_compat_r; [apply Qlt_le_weak, B|apply Qlt_le_weak, P].
Qed.

Lemma round_pos_bounds x :
  (0 < x)%Q ->
  (2 ^ ilog2 x <= round_pos x)%Q /\ (round_pos x <= 2 ^ (ilog2 x + 1))%Q.
Proof.
  intros Hx. destruct (scaled_range x Hx) as [A B]. unfold round_pos.
  cbv zeta. set (e := ilog2 x) in *. pose proof (pow2_pos (e - 52)) as P.
  apply rne_mono in A, B. rewrite rne_Z in A, B.
  rewrite Zle_Qle in A, B. rewrite <- !pow2_Z in A, B by lia. split.
  - replace e with (52 + (e - 52)) at 1 by lia. rewrite pow2_add.
    apply Qmult_le_compat_r; [exact A|apply Qlt_le_weak, P].
  - replace (e + 1) with (53 + (e - 52)) by lia. rewrite pow2_add.
    apply Qmult_le_compat_r; [exact B|apply Qlt_le_weak, P].
Qed.

Lemma round_pos_pos x : (0 < x)%Q -> (0 < round_pos x)%Q.
Proof.
  intros Hx. destruct (round_pos_bounds x Hx) as [A _].
  pose proof (pow2_pos (ilog2 x)). lra.
Qed.

Lemma round_pos_mono x y :
  (0 < x)%Q -> (x <= y)%Q -> (round_pos x <= round_pos y)%Q.
Proof.
  intros Hx H. assert (Hy : (0 < y)%Q) by lra.
  pose proof (ilog2_mono x y Hx H) as E.
  destruct (Z.eq_dec (ilog2 x) (ilog2 y)) as [Ee|Ne].
  - unfold round_pos. cbv zeta. rewrite Ee.
    pose proof (pow2_pos (ilog2 y - 52)) as P.
    pose proof (pow2_pos (52 - ilog2 y)) as P'.
    apply Qmult_le_compat_r; [|apply Qlt_le_weak, P].
    rewrite <- Zle_Qle. apply rne_mono.
    apply Qmult_le_compat_r; [exact H|apply Qlt_le_weak, P'].
  - destruct (round_pos_bounds x Hx) as [_ A].
    destruct (round_pos_bounds y Hy) as [B _].
    apply Qle_trans with (2 ^ (ilog2 x + 1))%Q; [exact A|].
    apply Qle_trans with (2 ^ ilog2 y)%Q; [apply pow2_le; lia|exact B].
Qed.

(** Rounding to the nearest double is monotone. *)
Lemma round64_mono x y : (x <= y)%Q -> (round64 x <= round64 y)%Q.
Proof.
  intros H. unfold round64. rewrite !Qred_correct.
  destruct (x ?= 0)%Q eqn:Cx; destruct (y ?= 0)%Q eqn:Cy;
    first [apply Qeq_alt in Cx | apply Qlt_alt in Cx | apply Qgt_alt in Cx];
    first [apply Qeq_alt in Cy | apply Qlt_alt in Cy | apply Qgt_alt in Cy];
    try (exfalso; lra).
  - apply Qle_refl.
  - apply Qlt_le_weak, round_pos_pos. exact Cy.
  - pose proof (round_pos_pos (- x)). lra.
  - pose proof (round_pos_mono (- y) (- x)). lra.
  - pose proof (round_pos_pos (- x)). pose proof (round_pos_pos y). lra.
  - apply round_pos_mono; assumption.
Qed.

(** A number with a significand of at most 53 bits is its own rounding. *)
Lemma round_pos_fix m j :
  0 < m < 2 ^ 53 ->
  (round_pos (inject_Z m * 2 ^ j) == inject_Z m * 2 ^ j)%Q.
Proof.
  intros Hm. set (x := (inject_Z m * 2 ^ j)%Q).
  assert (Hx : (0 < x)%Q).
  { unfold x. apply Qmult_lt_0_compat; [|apply pow2_pos].
    change 0%Q with (inject_Z 0). rewrite <- Zlt_Qlt. lia. }
  destruct (ilog2_spec x Hx) as [A B]. set (e := ilog2 x) in *.
  assert (He : e <= 52 + j).
  { assert (U : (x < 2 ^ (53 + j))%Q).
    { unfold x. rewrite pow2_add.
      apply Qmult_lt_compat_r; [apply pow2_pos|].
      rewrite pow2_Z by lia. rewrite <- Zlt_Qlt. lia. }
    assert (H : (2 ^ e < 2 ^ (53 + j))%Q) by lra.
    apply pow2_lt_inv in H. lia. }
  unfold round_pos. cbv zeta. fold e.
  assert (S : (x * 2 ^ (52 - e) == inject_Z (m * 2 ^ (j + 52 - e)))%Q).
  { unfold x. rewrite inject_Z_mult, <- pow2_Z by lia.
    rewrite <- Qmult_assoc, <- pow2_add.
    replace (j + (52 - e)) with (j + 52 - e) by lia. reflexivity. }
  rewrite (rne_comp _ _ S), rne_Z.
  rewrite inject_Z_mult, <- pow2_Z by lia.
  rewrite <- Qmult_assoc, <- pow2_add.
  replace (j + 52 - e + (e - 52)) with j by lia. reflexivity.
Qed.

Lemma round64_fix m j :
  - 2 ^ 53 < m < 2 ^ 53 ->
  (round64 (inject_Z m * 2 ^ j) == inject_Z m * 2 ^ j)%Q.
Proof.
  intros Hm. unfold round64. rewrite Qred_correct.
  pose proof (pow2_pos j) as P.
  destruct (inject_Z m * 2 ^ j ?= 0)%Q eqn:C;
    first [apply Qeq_alt in C | apply Qlt_alt in C | apply Qgt_alt in C].
  - symmetry. exact C.
  - assert (Hneg : m < 0).
    { destruct (Z_lt_le_dec m 0) as [L|G]; [exact L|exfalso].
      assert ((0 <= inject_Z m)%Q)
        by (change 0%Q with (inject_Z 0); rewrite <- Zle_Qle; exact G).
      assert ((0 <= inject_Z m * 2 ^ j)%Q)
        by (apply Qmult_le_0_compat; [assumption|apply Qlt_le_weak, P]).
      lra. }
    assert (E : (- (inject_Z m * 2 ^ j) == inject_Z (- m) * 2 ^ j)%Q)
      by (rewrite inject_Z_opp; ring).
    assert (R : (round_pos (- (inject_Z m * 2 ^ j))
                 == round_pos (inject_Z (- m) * 2 ^ j))%Q).
    { unfold round_pos. cbv zeta.
      rewrite (ilog2_unique (- (inject_Z m * 2 ^ j))
                 (ilog2 (inject_Z (- m) * 2 ^ j))).
      - apply Qmult_comp; [|reflexivity]. apply inject_Z_injective.
        apply rne_comp. rewrite E. reflexivity.
      - rewrite E. apply ilog2_spec. lra.
      - rewrite E. apply ilog2_spec. lra. }
    rewrite R, round_pos_fix by lia. rewrite inject_Z_opp. ring.
  - assert (Hpos : 0 < m).
    { destruct (Z_lt_le_dec 0 m) as [L|G]; [exact L|exfalso].
      assert ((inject_Z m <= 0)%Q)
        by (change 0%Q with (inject_Z 0); rewrite <- Zle_Qle; exact G).
      assert ((inject_Z m * 2 ^ j <= 0)%Q) by nra.
      lra. }
    apply round_pos_fix. lia.
Qed.

(** Whole numbers below 2^53 are doubles. *)
Lemma round64_Z n :
  - 2 ^ 53 < n < 2 ^ 53 -> (round64 (inject_Z n) == inject_Z n)%Q.
Proof.
  intros H. pose proof (round64_fix n 0 H) as F.
  assert (E : (inject_Z n * 2 ^ 0 == inject_Z n)%Q) by (cbn; ring).
  assert (L : (round64 (inject_Z n * 2 ^ 0) == round64 (inject_Z n))%Q).
  { apply Qle_antisym; apply round64_mono; rewrite E; apply Qle_refl. }
  rewrite <- L, F. exact E.
Qed.

(** Between two doubles the rounding stays between them. *)
Lemma round64_between a x b :
  (round64 a == a)%Q -> (round64 b == b)%Q ->
  (a <= x)%Q -> (x <= b)%Q ->
  (a <= round64 x)%Q /\ (round64 x <= b)%Q.
Proof.
  intros Fa Fb A B. apply round64_mono in A, B. rewrite Fa in A.
  rewrite Fb in B. split; assumption.
Qed.

(** The literals 0.1 and 0.2 as the compiler makes them, and their sum
    in double arithmetic, 0.30000000000000004. *)
Example round64_decimal_literals :
  round64 (1 # 10) = 3602879701896397 # 36028797018963968
  /\ round64 (2 # 10) = 3602879701896397 # 18014398509481984
  /\ add (round64 (1 # 10)) (round64 (2 # 10))
     = 1351079888211149 # 4503599627370496.
Proof. repeat split; vm_compute; reflexivity. Qed.

(** Zero is a double, and rounding keeps the sign. *)
Lemma round64_nonneg x : (0 <= x)%Q -> (0 <= round64 x)%Q.
Proof.
  intros H. apply round64_mono in H. exact H.
Qed.

Lemma round64_le_Z x n :
  - 2 ^ 53 < n < 2 ^ 53 -> (x <= inject_Z n)%Q ->
  (round64 x <= inject_Z n)%Q.
Proof.
  intros Hn H. apply round64_mono in H. rewrite (round64_Z n Hn) in H.
  exact H.
Qed.

Lemma round64_ge_Z x n :
  - 2 ^ 53 < n < 2 ^ 53 -> (inject_Z n <= x)%Q ->
  (inject_Z n <= round64 x)%Q.
Proof.
  intros Hn H. apply round64_mono in H. rewrite (round64_Z n Hn) in H.
  exact H.
Qed.

End DoubleFacts.


(** ** The fixed-point encoders *)

Section FixedPointFacts.
Import BinaryCodec.

(** The clamp is monotone and stays between its bounds. *)
Lemma qBound_range lo x hi :
  (lo <= hi)%Q -> (lo <= qBound lo x hi)%Q /\ (qBound lo x hi <= hi)%Q.
Proof.
  intros H. unfold qBound, qMax, qMin.
  destruct (Qltb hi x) eqn:E1.
  - destruct (Qltb lo hi) eqn:E2.
    + split; [exact H|apply Qle_refl].
    + split; [apply Qle_refl|exact H].
  - apply Qltb_false in E1. destruct (Qltb lo x) eqn:E2.
    + apply Qltb_true in E2. split; [apply Qlt_le_weak, E2|exact E1].
    + split; [apply Qle_refl|exact H].
Qed.

Lemma qBound_mono lo x y hi :
  (lo <= hi)%Q -> (x <= y)%Q -> (qBound lo x hi <= qBound lo y hi)%Q.
Proof.
  intros H Hxy.
  destruct (Qlt_le_dec x lo) as [Hx|Hx].
  - rewrite (qBound_below lo x hi H Hx). apply (qBound_range lo y hi H).
  - destruct (Qlt_le_dec hi y) as [Hy|Hy].
    + rewrite (qBound_above lo y hi H Hy). apply (qBound_range lo x hi H).
    + assert (Hx' : (x <= hi)%Q) by (eapply Qle_trans; eassumption).
      assert (Hy' : (lo <= y)%Q) by (eapply Qle_trans; eassumption).
      rewrite (qBound_within lo x hi Hx Hx'), (qBound_within lo y hi Hy' Hy).
      exact Hxy.
Qed.

(** A fixed-point encoder: scale, clamp to the range of the type, cast. *)
Lemma fixed_encode_value bits scale v :
  0 < bits -> (0 < scale)%Q ->
  let top := 2 ^ bits - 1 in
  let code := cast_uint bits (qBound 0 (v * scale) (inject_Z top)) in
  code = Qfloor (qBound 0 (v * scale) (inject_Z top))
  /\ 0 <= code <= top.
Proof.
  intros Hb Hs top code.
  assert (Ht : 0 <= top) by (unfold top; pose proof (Z.pow_pos_nonneg 2 bits); lia).
  assert (Hq : (0 <= inject_Z top)%Q)
    by (change 0%Q with (inject_Z 0); rewrite <- Zle_Qle; exact Ht).
  destruct (qBound_range 0 (v * scale) (inject_Z top) Hq) as [Hlo Hhi].
  assert (Hf : 0 <= Qfloor (qBound 0 (v * scale) (inject_Z top)) <= top).
  { split.
    - change 0 with (Qfloor 0). apply Qfloor_resp_le, Hlo.
    - apply Z.le_trans with (Qfloor (inject_Z top));
        [apply Qfloor_resp_le, Hhi|rewrite Qfloor_Z; lia]. }
  assert (E : code = Qfloor (qBound 0 (v * scale) (inject_Z top))).
  { unfold code, cast_uint. rewrite Qtruncate_nonneg by exact Hlo.
    apply Z.mod_small. unfold top in *. lia. }
  split; [exact E|]. rewrite E. exact Hf.
Qed.

Lemma fixed_encode_mono bits scale v w :
  0 < bits -> (0 < scale)%Q -> (v <= w)%Q ->
  cast_uint bits (qBound 0 (v * scale) (inject_Z (2 ^ bits - 1)))
  <= cast_uint bits (qBound 0 (w * scale) (inject_Z (2 ^ bits - 1))).
Proof.
  intros Hb Hs Hvw.
  destruct (fixed_encode_value bits scale v Hb Hs) as [-> _].
  destruct (fixed_encode_value bits scale w Hb Hs) as [-> _].
  apply Qfloor_resp_le. apply qBound_mono.
  - change 0%Q with (inject_Z 0). rewrite <- Zle_Qle.
    pose proof (Z.pow_pos_nonneg 2 bits). lia.
  - apply Qmult_le_compat_r; [exact Hvw|apply Qlt_le_weak, Hs].
Qed.

(** X1. The fixed-point encoders never wrap: each is monotone in its
    argument and yields a value of its type's range, whatever the
    argument. *)
Theorem fixed_point_encoders_monotone (v w : Q) :
  (v <= w)%Q ->
  (0 <= encodeU8P4 v <= encodeU8P4 w /\ encodeU8P4 w <= 255)
  /\ (0 <= encodeU16P8 v <= encodeU16P8 w /\ encodeU16P8 w <= 65535)
  /\ (0 <= encodeU16P12 v <= encodeU16P12 w /\ encodeU16P12 w <= 65535).
Proof.
  intros H. unfold encodeU8P4, encodeU16P8, encodeU16P12.
  pose proof (fixed_encode_mono 8 16 v w eq_refl eq_refl H) as M1.
  pose proof (fixed_encode_mono 16 256 v w eq_refl eq_refl H) as M2.
  pose proof (fixed_encode_mono 16 4096 v w eq_refl eq_refl H) as M3.
  pose proof (proj2 (fixed_encode_value 8 16 v eq_refl eq_refl)) as A1.
  pose proof (proj2 (fixed_encode_value 8 16 w eq_refl eq_refl)) as B1.
  pose proof (proj2 (fixed_encode_value 16 256 v eq_refl eq_refl)) as A2.
  pose proof (proj2 (fixed_encode_value 16 256 w eq_refl eq_refl)) as B2.
  pose proof (proj2 (fixed_encode_value 16 4096 v eq_refl eq_refl)) as A3.
  pose proof (proj2 (fixed_encode_value 16 4096 w eq_refl eq_refl)) as B3.
  cbv zeta in *.
  change (inject_Z (2 ^ 8 - 1)) with 255%Q in *.
  change (inject_Z (2 ^ 16 - 1)) with 65535%Q in *.
  change (2 ^ 8 - 1) with 255 in *. change (2 ^ 16 - 1) with 65535 in *.
  lia.
Qed.

Lemma fixed_point_encoders_monotone_witness :
  (0 <= BinaryCodec.encodeU8P4 (-1) <= BinaryCodec.encodeU8P4 (1000)
   /\ BinaryCodec.encodeU8P4 (1000) <= 255)
  /\ (0 <= BinaryCodec.encodeU16P8 (-1) <= BinaryCodec.encodeU16P8 (1000)
      /\ BinaryCodec.encodeU16P8 (1000) <= 65535)
  /\ (0 <= BinaryCodec.encodeU16P12 (-1) <= BinaryCodec.encodeU16P12 (1000)
      /\ BinaryCodec.encodeU16P12 (1000) <= 65535).
Proof.
  apply (fixed_point_encoders_monotone (-1) 1000). discriminate.
Defined.

End FixedPointFacts.


Section CodecRoundTrips.
Import BinaryCodec.

(** X2. For every value [v] between 0 and 65535/256 the decoding of the
    U16P8 encoding of [v] is within 1/256 of [v], and never above [v];
    every negative [v] encodes to 0 and every [v] above 65535/256 to
    65535. *)
Theorem encodeU16P8_roundtrip_clamp (v : Q) :
  ((0 <= v)%Q -> (v <= 65535 # 256)%Q ->
   (decodeU16P8 (encodeU16P8 v) <= v)%Q
   /\ (v - (1 # 256) < decodeU16P8 (encodeU16P8 v))%Q)
  /\ ((v < 0)%Q -> encodeU16P8 v = 0)
  /\ ((65535 # 256 < v)%Q -> encodeU16P8 v = 65535).
Proof.
  split; [|split].
  - intros H0 H1.
    assert (Ha : (0 <= v * 256)%Q) by lra.
    assert (Hb : (v * 256 <= 65535)%Q) by lra.
    destruct (fixed_encode_value 16 256 v eq_refl eq_refl) as [E _].
    cbv zeta in E. change (inject_Z (2 ^ 16 - 1)) with 65535%Q in E.
    fold (encodeU16P8 v) in E. rewrite E.
    rewrite (Qfloor_comp _ _ (qBound_within 0 (v * 256) 65535 Ha Hb)).
    unfold decodeU16P8.
    pose proof (Qfloor_le (v * 256)) as Hlo.
    pose proof (Qlt_floor (v * 256)) as Hhi.
    rewrite inject_Z_plus in Hhi. change (inject_Z 1) with 1%Q in Hhi.
    unfold Qdiv. change (/ 256)%Q with (1 # 256)%Q. split; lra.
  - intros H. unfold encodeU16P8.
    rewrite qBound_below; [reflexivity|discriminate|lra].
  - intros H. unfold encodeU16P8, cast_uint.
    rewrite (Qtruncate_comp _ 65535); [reflexivity|].
    apply qBound_above; [discriminate|lra].
Qed.

Lemma encodeU16P8_roundtrip_clamp_witness :
  ((decodeU16P8 (encodeU16P8 (25 # 1)) <= 25 # 1)%Q
   /\ ((25 # 1) - (1 # 256) < decodeU16P8 (encodeU16P8 (25 # 1)))%Q)
  /\ encodeU16P8 (-5) = 0
  /\ encodeU16P8 300 = 65535.
Proof.
  split; [|split].
  - apply (proj1 (encodeU16P8_roundtrip_clamp (25 # 1))); discriminate.
  - apply (proj1 (proj2 (encodeU16P8_roundtrip_clamp (-5)))). reflexivity.
  - apply (proj2 (proj2 (encodeU16P8_roundtrip_clamp 300))). reflexivity.
Defined.

Lemma land_255 z : Z.land z 255 = z mod 256.
Proof. change 255 with (Z.ones 8). rewrite Z.land_ones by lia. reflexivity. Qed.

(** X3. The two-byte big-endian codec is a bijection between the
    16-bit values and the byte pairs: decoding an encoded value gives
    it back, and encoding a decoded pair gives the pair back. *)
Theorem shortBE_roundtrip :
  (forall v, 0 <= v < 65536 ->
     exists d0 d1,
       encodeShortBE v = [d0; d1] /\ decodeShortBE d0 d1 = v)
  /\ (forall d0 d1,
        encodeShortBE (decodeShortBE d0 d1) = [d0; d1]
        /\ 0 <= decodeShortBE d0 d1 < 65536).
Proof.
  split.
  - intros v Hv. eexists _, _. split; [reflexivity|].
    unfold decodeShortBE. rewrite byte_of_word, land_255 by lia.
    change (2 ^ 8) with 256.
    rewrite !u8_to_byte by (Z.div_mod_to_equations; lia).
    rewrite lor_shifted_small by (simpl; Z.div_mod_to_equations; lia).
    change (2 ^ 8) with 256. Z.div_mod_to_equations; lia.
  - intros d0 d1. unfold decodeShortBE, encodeShortBE.
    pose proof (u8_range d0). pose proof (u8_range d1).
    rewrite lor_shifted_small by (simpl; lia). change (2 ^ 8) with 256.
    rewrite byte_of_word, land_255 by lia. change (2 ^ 8) with 256.
    replace ((u8 d0 * 256 + u8 d1) / 256 mod 256) with (u8 d0)
      by (Z.div_mod_to_equations; lia).
    replace ((u8 d0 * 256 + u8 d1) mod 256) with (u8 d1)
      by (Z.div_mod_to_equations; lia).
    rewrite !to_byte_u8. split; [reflexivity|lia].
Qed.

Lemma shortBE_roundtrip_witness :
  exists d0 d1,
    encodeShortBE 6400 = [d0; d1] /\ decodeShortBE d0 d1 = 6400.
Proof. apply (proj1 shortBE_roundtrip 6400). lia. Defined.

(** X4. The U10P0 decoder reads the low two bits of the first byte and
    the whole second byte, whatever the upper six bits hold, so its
    result is below 1024. *)
Theorem decodeU10P0_low_bits (d0 d1 : byte) :
  decodeU10P0 d0 d1 = (u8 d0 mod 4) * 256 + u8 d1
  /\ 0 <= decodeU10P0 d0 d1 < 1024.
Proof.
  unfold decodeU10P0, decodeShortBE.
  pose proof (u8_range d0). pose proof (u8_range d1).
  rewrite lor_shifted_small by (simpl; lia). change (2 ^ 8) with 256.
  change 1023 with (Z.ones 10). rewrite Z.land_ones by lia.
  change (2 ^ 10) with 1024. split; Z.div_mod_to_equations; lia.
Qed.



End CodecRoundTrips.


Section U24P16Facts.
Import BinaryCodec.

(** X6. The three bytes of the U24P16 encoder, read back as a 24-bit
    big-endian number (as [decodeAddress] reads one), are the whole
    part of 65536 times the value for a value from 0 to below 256; a
    negative value encodes to 00 00 00 and a value of 256 or more to
    FF FF FF. *)
Theorem encodeU24P16_decodes (v : Q) :
  exists b0 b1 b2,
    encodeU24P16 v = [b0; b1; b2]
    /\ ((0 <= v)%Q -> (v < 256)%Q ->
        decodeAddress b0 b1 b2 = Qfloor (v * 65536))
    /\ ((v < 0)%Q -> decodeAddress b0 b1 b2 = 0)
    /\ ((256 <= v)%Q -> decodeAddress b0 b1 b2 = 16777215).
Proof.
  eexists _, _, _. split; [reflexivity|].
  set (q := qBound 0 (v * 65536) 16777215).
  destruct (qBound_range 0 (v * 65536) 16777215 ltac:(discriminate))
    as [Hlo Hhi].
  fold q in Hlo, Hhi.
  assert (Hf : 0 <= Qfloor q <= 16777215).
  { split.
    - change 0 with (Qfloor 0). apply Qfloor_resp_le, Hlo.
    - change 16777215 with (Qfloor 16777215). apply Qfloor_resp_le, Hhi. }
  assert (Ec : cast_uint 32 q = Qfloor q).
  { unfold cast_uint. rewrite Qtruncate_nonneg by exact Hlo.
    apply Z.mod_small. change (2 ^ 32) with 4294967296. lia. }
  assert (Ed : decodeAddress
                 (to_byte (Z.land (Z.shiftr (cast_uint 32 q) 16) 255))
                 (to_byte (Z.land (Z.shiftr (cast_uint 32 q) 8) 255))
                 (to_byte (Z.land (cast_uint 32 q) 255))
               = Qfloor q).
  { rewrite Ec. set (n := Qfloor q) in *.
    rewrite decodeAddress_value, !byte_of_word, land_255 by lia.
    change (2 ^ 16) with 65536. change (2 ^ 8) with 256.
    rewrite !u8_to_byte by (Z.div_mod_to_equations; lia).
    Z.div_mod_to_equations; lia. }
  rewrite Ed. split; [|split].
  - intros H0 H1. unfold q.
    destruct (Qlt_le_dec 16777215 (v * 65536)) as [Hx|Hx].
    + rewrite (Qfloor_comp _ _
                 (qBound_above 0 (v * 65536) 16777215 ltac:(discriminate) Hx)).
      change (Qfloor 16777215) with 16777215.
      pose proof (Qfloor_resp_le 16777215 (v * 65536) ltac:(lra)) as Hge.
      change (Qfloor 16777215) with 16777215 in Hge.
      pose proof (Qfloor_le (v * 65536)) as Hle.
      assert (Hlt : (inject_Z (Qfloor (v * 65536)) < inject_Z 16777216)%Q)
        by (change (inject_Z 16777216) with 16777216%Q; lra).
      rewrite <- Zlt_Qlt in Hlt. lia.
    + apply Qfloor_comp. apply qBound_within; lra.
  - intros H. unfold q. rewrite qBound_below; [reflexivity|discriminate|lra].
  - intros H. unfold q.
    apply (Qfloor_comp _ 16777215).
    apply qBound_above; [discriminate|lra].
Qed.

Lemma encodeU24P16_decodes_witness :
  exists b0 b1 b2,
    encodeU24P16 93 = [b0; b1; b2]
    /\ decodeAddress b0 b1 b2 = Qfloor (93 * 65536).
Proof.
  destruct (encodeU24P16_decodes 93) as (b0 & b1 & b2 & E & H & _).
  exists b0, b1, b2. split; [exact E|]. apply H; [discriminate|reflexivity].
Defined.

End U24P16Facts.


(** ** Invariants of the event loop *)

Ltac unfold_operations :=
  unfold onPowerClicked, onEspressoClicked, onSteamClicked,
    onHotWaterClicked, onFlushClicked, onStopClicked, onPhaseTimeout,
    startOperation, stopOperation, onConnected, onDisconnected,
    onShotTimerTick, sendShotSample, updateSimulationValues,
    sendWaterLevel;
  unfold_handlers.



Section InvariantFacts.

Variable qSin : Q -> Q.
Variable fromJson : QByteArray -> option QJsonObject.
Variable fromHex : string -> QByteArray.

(** An invariant of the handlers of the control channel is an invariant
    of the loop of [onDataReceived]. *)
Lemma drainBuffer_preserves (Inv : Engine -> Prop) :
  (forall b e, Inv e -> Inv (with_buffer b e)) ->
  (forall e, Inv e -> Inv (log MsgJsonParseError ERROR e)) ->
  (forall obj e, Inv e -> Inv (handlePiEvent fromHex obj e)) ->
  forall fuel e e',
    Inv e -> drainBuffer fromJson fromHex fuel e = Some e' -> Inv e'.
Proof.
  intros Hb Hl Hh. induction fuel as [|fuel IH]; intros e e' He Hrun;
    [discriminate|].
  cbn [drainBuffer] in Hrun.
  destruct (indexOf x0a (m_tcpBuffer e)) as [idx|];
    [|injection Hrun as <-; exact He].
  destruct (take idx (m_tcpBuffer e)) as [|b line].
  - apply (IH _ _ (Hb _ _ He) Hrun).
  - destruct (fromJson (b :: line)) as [obj|].
    + apply (IH _ _ (Hh _ _ (Hb _ _ He)) Hrun).
    + apply (IH _ _ (Hl _ (Hb _ _ He)) Hrun).
Qed.

(** An invariant of every turn of the event loop holds after every
    sequence of events. *)
Lemma run_preserves (Inv : Engine -> Prop) :
  (forall ev e e',
     Inv e -> EventLoop.step qSin fromJson fromHex ev e = Some e' -> Inv e') ->
  forall evs e e',
    Inv e -> EventLoop.run qSin fromJson fromHex evs e = Some e' -> Inv e'.
Proof.
  intros Hstep. induction evs as [|ev evs IH]; intros e e' He Hrun.
  - injection Hrun as <-. exact He.
  - cbn [EventLoop.run] in Hrun.
    destruct (EventLoop.step qSin fromJson fromHex ev e) as [e1|] eqn:E;
      [|discriminate].
    apply (IH e1 e' (Hstep ev e e1 He E) Hrun).
Qed.







End InvariantFacts.


Ltac timers_tac :=
  unfold timersCoupled in *; cbn in *;
  repeat (case_match; cbn in *); try discriminate; simplify_eq;
  try tauto; try (split; [tauto || reflexivity|lia]).

Section TimerInvariant.

Variable qSin : Q -> Q.
Variable fromJson : QByteArray -> option QJsonObject.
Variable fromHex : string -> QByteArray.

Lemma write_timersCoupled charId value e :
  timersCoupled e -> timersCoupled (handleCharacteristicWrite charId value e).
Proof.
  intros H. destruct (inbound_write_keeps_timers charId value e)
    as (Hp & Hs & _).
  cbv zeta in *. unfold timersCoupled in *. rewrite Hp, Hs. exact H.
Qed.

Lemma handlePiEvent_timersCoupled obj e :
  timersCoupled e -> timersCoupled (handlePiEvent fromHex obj e).
Proof.
  intros H. unfold handlePiEvent.
  repeat case_match; try (apply write_timersCoupled; exact H);
    unfold sendWaterLevel; unfold_handlers; timers_tac.
Qed.

Lemma step_timersCoupled ev e e' :
  EventLoop.step qSin fromJson fromHex ev e = Some e' ->
  timersCoupled e -> timersCoupled e'.
Proof.
  intros Hstep Hr.
  destruct ev as [t|received| | | | | | |g| |]; cbn [EventLoop.step] in Hstep.
  - destruct t; unfold fireTimer in Hstep.
    + destruct (phaseTimer e) as [ms|] eqn:Ep; [|discriminate].
      injection Hstep as <-.
      unfold timersCoupled in Hr. rewrite Ep in Hr. destruct Hr as [Hs _].
      unfold_operations.
      cbn [m_currentState m_currentSubState with_phaseTimer].
      repeat case_match; timers_tac.
    + destruct (shotTimerActive e) eqn:Es; [|discriminate].
      injection Hstep as <-.
      destruct (tick_keeps_phase qSin e) as (_ & _ & Hp & Hs & _).
      cbv zeta in *. unfold timersCoupled in *. rewrite Hp, Hs. exact Hr.
    + destruct (waterTimerActive e); [|discriminate].
      injection Hstep as <-.
      destruct (water_keeps_phase e) as (_ & _ & Hp & Hs & _).
      cbv zeta in *. unfold timersCoupled in *. rewrite Hp, Hs. exact Hr.
  - destruct (socketConnected e); [|discriminate].
    unfold onDataReceived in Hstep.
    refine (drainBuffer_preserves fromJson fromHex timersCoupled
              _ _ _ _ _ _ _ Hstep).
    + intros b e0 H0. timers_tac.
    + intros e0 H0. unfold log. timers_tac.
    + intros obj e0. apply handlePiEvent_timersCoupled.
    + timers_tac.
  - destruct (controlsEnabled e); [|discriminate]. injection Hstep as <-.
    unfold_operations; timers_tac.
  - destruct (controlsEnabled e); [|discriminate]. injection Hstep as <-.
    unfold_operations; timers_tac.
  - destruct (controlsEnabled e); [|discriminate]. injection Hstep as <-.
    unfold_operations; timers_tac.
  - destruct (controlsEnabled e); [|discriminate]. injection Hstep as <-.
    unfold_operations; timers_tac.
  - destruct (controlsEnabled e); [|discriminate]. injection Hstep as <-.
    unfold_operations; timers_tac.
  - destruct (controlsEnabled e); [|discriminate]. injection Hstep as <-.
    unfold_operations; timers_tac.
  - injection Hstep as <-. timers_tac.
  - destruct (socketConnected e); [discriminate|]. injection Hstep as <-.
    unfold_operations; timers_tac.
  - destruct (socketConnected e); [|discriminate]. injection Hstep as <-.
    unfold_operations; timers_tac.
Qed.

(** X8. Whatever the events, whenever the single-shot phase timer is
    armed its interval is positive and the 200 ms shot-sample timer is
    running: no phase of an operation passes without telemetry. *)
Theorem phase_timer_implies_telemetry
    (evs : list EventLoop.Event) (e' : Engine) (ms : Z) :
  EventLoop.run qSin fromJson fromHex evs initialEngine = Some e' ->
  phaseTimer e' = Some ms ->
  shotTimerActive e' = true /\ 0 < ms.
Proof.
  intros Hrun Hp.
  assert (H : timersCoupled e').
  { refine (run_preserves qSin fromJson fromHex timersCoupled
              _ evs initialEngine e' _ Hrun).
    - intros ev e0 e1 H0 Hs. exact (step_timersCoupled ev e0 e1 Hs H0).
    - exact I. }
  unfold timersCoupled in H. rewrite Hp in H. exact H.
Qed.

End TimerInvariant.


Ltac profile_tac :=
  unfold profileConsistent, headerMatches in *; cbn in *;
  repeat (case_match; cbn in *); try discriminate; simplify_eq;
  try assumption; try tauto.

Section ProfileInvariant.

Variable qSin : Q -> Q.
Variable fromJson : QByteArray -> option QJsonObject.
Variable fromHex : string -> QByteArray.

Lemma write_profileConsistent charId value e :
  profileConsistent e ->
  profileConsistent (handleCharacteristicWrite charId value e).
Proof.
  intros H. unfold handleCharacteristicWrite.
  destruct (String.eqb charId DE1.CHAR_REQUESTED_STATE).
  { unfold handleRequestedState. unfold_handlers. profile_tac. }
  destruct (String.eqb charId DE1.CHAR_READ_FROM_MMR).
  { unfold handleMMRReadRequest. unfold_handlers. profile_tac. }
  destruct (String.eqb charId DE1.CHAR_WRITE_TO_MMR).
  { unfold handleMMRWrite. unfold_handlers. profile_tac. }
  destruct (String.eqb charId DE1.CHAR_HEADER_WRITE).
  { unfold handleHeaderWrite.
    destruct (length value <? 5)%nat; [unfold_handlers; profile_tac|].
    unfold profileConsistent, headerMatches. cbn.
    rewrite length_replicate. pose proof (u8_range (at_ value 1)). lia. }
  destruct (String.eqb charId DE1.CHAR_FRAME_WRITE).
  { destruct H as [Hm Hl].
    unfold handleFrameWrite, profileConsistent, headerMatches in *.
    repeat case_match; cbn; rewrite ?length_alter; split; assumption. }
  destruct (String.eqb charId DE1.CHAR_SHOT_SETTINGS).
  { unfold handleShotSettings. unfold_handlers. profile_tac. }
  unfold_handlers. profile_tac.
Qed.

Lemma handlePiEvent_profileConsistent obj e :
  profileConsistent e -> profileConsistent (handlePiEvent fromHex obj e).
Proof.
  intros H. unfold handlePiEvent.
  repeat case_match; try (apply write_profileConsistent; exact H);
    unfold sendWaterLevel; unfold_handlers; profile_tac.
Qed.

Lemma step_profileConsistent ev e e' :
  EventLoop.step qSin fromJson fromHex ev e = Some e' ->
  profileConsistent e -> profileConsistent e'.
Proof.
  intros Hstep Hr.
  destruct ev as [t|received| | | | | | |g| |]; cbn [EventLoop.step] in Hstep.
  - destruct t; unfold fireTimer in Hstep; repeat case_match;
      try discriminate; injection Hstep as <-;
      unfold_operations; profile_tac.
  - destruct (socketConnected e); [|discriminate].
    unfold onDataReceived in Hstep.
    refine (drainBuffer_preserves fromJson fromHex profileConsistent
              _ _ _ _ _ _ _ Hstep).
    + intros b e0 H0. profile_tac.
    + intros e0 H0. unfold log. profile_tac.
    + intros obj e0. apply handlePiEvent_profileConsistent.
    + profile_tac.
  - destruct (controlsEnabled e); [|discriminate]. injection Hstep as <-.
    unfold_operations; profile_tac.
  - destruct (controlsEnabled e); [|discriminate]. injection Hstep as <-.
    unfold_operations; profile_tac.
  - destruct (controlsEnabled e); [|discriminate]. injection Hstep as <-.
    unfold_operations; profile_tac.
  - destruct (controlsEnabled e); [|discriminate]. injection Hstep as <-.
    unfold_operations; profile_tac.
  - destruct (controlsEnabled e); [|discriminate]. injection Hstep as <-.
    unfold_operations; profile_tac.
  - destruct (controlsEnabled e); [|discriminate]. injection Hstep as <-.
    unfold_operations; profile_tac.
  - injection Hstep as <-. profile_tac.
  - destruct (socketConnected e); [discriminate|]. injection Hstep as <-.
    unfold_operations; profile_tac.
  - destruct (socketConnected e); [|discriminate]. injection Hstep as <-.
    unfold_operations; profile_tac.
Qed.

(** X9. Whatever the events, the profile holds exactly as many frames
    as its header declares, and at most 255: no frame write adds or
    removes a frame, and each header write replaces them all. *)
Theorem frame_count_matches_header
    (evs : list EventLoop.Event) (e' : Engine) :
  EventLoop.run qSin fromJson fromHex evs initialEngine = Some e' ->
  Z.of_nat (length (m_profileFrames e')) = numFrames (m_profileHeader e')
  /\ (length (m_profileFrames e') <= 255)%nat.
Proof.
  intros Hrun.
  assert (H : profileConsistent e').
  { refine (run_preserves qSin fromJson fromHex profileConsistent
              _ evs initialEngine e' _ Hrun).
    - intros ev e0 e1 H0 Hs. exact (step_profileConsistent ev e0 e1 Hs H0).
    - split; [reflexivity|cbn; lia]. }
  destruct H as [Hm Hl]. split; [symmetry; exact Hm|exact Hl].
Qed.

End ProfileInvariant.


Lemma sized_state_info s ss :
  sizedLike PiDaemon.createDE1Service Registry.piProperties
    (CmdNotify DE1.CHAR_STATE_INFO [s; ss]).
Proof.
  exists [x02; x00], [Registry.Read; Registry.Notify].
  repeat split; try reflexivity. right. left. reflexivity.
Qed.

Lemma sized_water_levels v :
  sizedLike PiDaemon.createDE1Service Registry.piProperties
    (CmdNotify DE1.CHAR_WATER_LEVELS (BinaryCodec.encodeShortBE v)).
Proof.
  exists [x4b; x00], [Registry.Read; Registry.Notify].
  repeat split; try reflexivity. right. left. reflexivity.
Qed.

Lemma sized_shot_sample data :
  length data = 19%nat ->
  sizedLike PiDaemon.createDE1Service Registry.piProperties
    (CmdNotify DE1.CHAR_SHOT_SAMPLE data).
Proof.
  intros H. exists (zeros 19), [Registry.Notify].
  repeat split; try reflexivity; [exact H|left; reflexivity].
Qed.

Lemma sized_mmr data :
  length data = 8%nat ->
  sizedLike PiDaemon.createDE1Service Registry.piProperties
    (CmdNotify DE1.CHAR_READ_FROM_MMR data).
Proof.
  intros H. exists (zeros 8), [Registry.Read; Registry.Notify].
  repeat split; try reflexivity; [exact H|right; left; reflexivity].
Qed.

Ltac fits_leaf :=
  first [ assumption
        | apply Forall_nil_2
        | apply Forall_cons_2; [|apply Forall_nil_2];
          first [ apply sized_state_info
                | apply sized_water_levels
                | apply sized_shot_sample; reflexivity
                | apply sized_mmr; cbn; rewrite ?length_insert; reflexivity ] ].

Ltac fits_tac :=
  unfold fitsRegistry in *; cbn in *;
  repeat (case_match; cbn in *); try discriminate; simplify_eq;
  rewrite ?Forall_app; repeat split; fits_leaf.

Section RegistryInvariant.

Variable qSin : Q -> Q.
Variable fromJson : QByteArray -> option QJsonObject.
Variable fromHex : string -> QByteArray.

Lemma write_fitsRegistry charId value e :
  fitsRegistry e -> fitsRegistry (handleCharacteristicWrite charId value e).
Proof.
  intros H. unfold handleCharacteristicWrite.
  destruct (String.eqb charId DE1.CHAR_REQUESTED_STATE).
  { unfold handleRequestedState. unfold_handlers. fits_tac. }
  destruct (String.eqb charId DE1.CHAR_READ_FROM_MMR).
  { unfold handleMMRReadRequest. unfold_handlers. fits_tac. }
  destruct (String.eqb charId DE1.CHAR_WRITE_TO_MMR).
  { unfold handleMMRWrite. unfold_handlers. fits_tac. }
  destruct (String.eqb charId DE1.CHAR_HEADER_WRITE).
  { unfold handleHeaderWrite. unfold_handlers. fits_tac. }
  destruct (String.eqb charId DE1.CHAR_FRAME_WRITE).
  { unfold handleFrameWrite. unfold_handlers. fits_tac. }
  destruct (String.eqb charId DE1.CHAR_SHOT_SETTINGS).
  { unfold handleShotSettings. unfold_handlers. fits_tac. }
  unfold_handlers. fits_tac.
Qed.

Lemma handlePiEvent_fitsRegistry obj e :
  fitsRegistry e -> fitsRegistry (handlePiEvent fromHex obj e).
Proof.
  intros H. unfold handlePiEvent.
  repeat case_match; try (apply write_fitsRegistry; exact H);
    unfold sendWaterLevel; unfold_handlers; fits_tac.
Qed.

Lemma step_fitsRegistry ev e e' :
  EventLoop.step qSin fromJson fromHex ev e = Some e' ->
  fitsRegistry e -> fitsRegistry e'.
Proof.
  intros Hstep Hr.
  destruct ev as [t|received| | | | | | |g| |]; cbn [EventLoop.step] in Hstep.
  - destruct t; unfold fireTimer in Hstep; repeat case_match;
      try discriminate; injection Hstep as <-;
      unfold_operations; fits_tac.
  - destruct (socketConnected e); [|discriminate].
    unfold onDataReceived in Hstep.
    refine (drainBuffer_preserves fromJson fromHex fitsRegistry
              _ _ _ _ _ _ _ Hstep).
    + intros b e0 H0. fits_tac.
    + intros e0 H0. unfold log. fits_tac.
    + intros obj e0. apply handlePiEvent_fitsRegistry.
    + fits_tac.
  - destruct (controlsEnabled e); [|discriminate]. injection Hstep as <-.
    unfold_operations; fits_tac.
  - destruct (controlsEnabled e); [|discriminate]. injection Hstep as <-.
    unfold_operations; fits_tac.
  - destruct (controlsEnabled e); [|discriminate]. injection Hstep as <-.
    unfold_operations; fits_tac.
  - destruct (controlsEnabled e); [|discriminate]. injection Hstep as <-.
    unfold_operations; fits_tac.
  - destruct (controlsEnabled e); [|discriminate]. injection Hstep as <-.
    unfold_operations; fits_tac.
  - destruct (controlsEnabled e); [|discriminate]. injection Hstep as <-.
    unfold_operations; fits_tac.
  - injection Hstep as <-. fits_tac.
  - destruct (socketConnected e); [discriminate|]. injection Hstep as <-.
    unfold_operations; fits_tac.
  - destruct (socketConnected e); [|discriminate]. injection Hstep as <-.
    unfold_operations; fits_tac.
Qed.

(** X10. Whatever the events, every command the simulator writes on the
    socket is a notification of a characteristic that the agent of
    [pi-daemon] created, with exactly as many bytes as that
    characteristic's initial value: 2 for STATE_INFO and WATER_LEVELS,
    19 for SHOT_SAMPLE, 8 for READ_FROM_MMR. *)
Theorem notifications_fit_registry
    (evs : list EventLoop.Event) (e' : Engine) :
  EventLoop.run qSin fromJson fromHex evs initialEngine = Some e' ->
  forall charId data,
    In (CmdNotify charId data) (socketOut e') ->
    exists initial ps,
      PiDaemon.createDE1Service !! charId = Some initial
      /\ length data = length initial
      /\ Registry.piProperties !! charId = Some ps
      /\ In Registry.Notify ps.
Proof.
  intros Hrun charId data Hin.
  assert (H : fitsRegistry e').
  { refine (run_preserves qSin fromJson fromHex fitsRegistry
              _ evs initialEngine e' _ Hrun).
    - intros ev e0 e1 H0 Hs. exact (step_fitsRegistry ev e0 e1 Hs H0).
    - apply Forall_nil_2. }
  unfold fitsRegistry in H. rewrite Forall_forall in H.
  apply (H (CmdNotify charId data)). apply list_elem_of_In. exact Hin.
Qed.

End RegistryInvariant.


(** ** The simulated values *)

Lemma qMin_cases a b :
  (BinaryCodec.qMin a b = a /\ (a < b)%Q)
  \/ (BinaryCodec.qMin a b = b /\ (b <= a)%Q).
Proof.
  unfold BinaryCodec.qMin. destruct (BinaryCodec.Qltb a b) eqn:E.
  - left. split; [reflexivity|apply Qltb_true, E].
  - right. split; [reflexivity|apply Qltb_false, E].
Qed.

Lemma qMax_cases a b :
  (BinaryCodec.qMax a b = b /\ (a < b)%Q)
  \/ (BinaryCodec.qMax a b = a /\ (b <= a)%Q).
Proof.
  unfold BinaryCodec.qMax. destruct (BinaryCodec.Qltb a b) eqn:E.
  - left. split; [reflexivity|apply Qltb_true, E].
  - right. split; [reflexivity|apply Qltb_false, E].
Qed.

Lemma Qtruncate_range x lo hi :
  lo <= 0 <= hi -> (inject_Z lo - 1 < x)%Q -> (x <= inject_Z hi)%Q ->
  lo <= BinaryCodec.Qtruncate x <= hi.
Proof.
  intros Hz Hl Hh. unfold BinaryCodec.Qtruncate.
  destruct (Qle_bool 0 x) eqn:E.
  - apply Qle_bool_iff in E. pose proof (Qfloor_resp_le 0 x E) as F.
    change (Qfloor 0) with 0 in F.
    pose proof (Qfloor_resp_le _ _ Hh) as G. rewrite Qfloor_Z in G. lia.
  - assert (N : (x < 0)%Q).
    { apply Qnot_le_lt. intros H. apply Qle_bool_iff in H. congruence. }
    pose proof (Qceiling_resp_le x 0 (Qlt_le_weak _ _ N)) as C.
    change (Qceiling 0) with 0 in C.
    pose proof (Qle_ceiling x) as U.
    assert (L : (inject_Z (lo - 1) < inject_Z (Qceiling x))%Q).
    { replace (lo - 1) with (lo + -1) by lia. rewrite inject_Z_plus.
      change (inject_Z (-1)) with (-1)%Q.
      revert Hl U. generalize (inject_Z lo), (inject_Z (Qceiling x)).
      intros a b Hl U. lra. }
    rewrite <- Zlt_Qlt in L. lia.
Qed.

Lemma to_int_range x lo hi :
  - 2 ^ 31 <= lo -> hi < 2 ^ 31 -> lo <= 0 <= hi ->
  (inject_Z lo - 1 < x)%Q -> (x <= inject_Z hi)%Q ->
  lo <= Double.to_int x <= hi.
Proof.
  intros A B Hz Hl Hh. pose proof (Qtruncate_range x lo hi Hz Hl Hh) as R.
  unfold Double.to_int.
  rewrite Z.mod_small by (change (2 ^ 32) with (2 ^ 31 + 2 ^ 31); lia). lia.
Qed.

Ltac bounds_tac :=
  unfold simWithin, simBounded in *; cbn in *;
  repeat (case_match; cbn in *); try discriminate; simplify_eq;
  try assumption; try (intuition (try lra; try lia)).

Section ValueBounds.

Variable qSin : Q -> Q.
Variable fromJson : QByteArray -> option QJsonObject.
Variable fromHex : string -> QByteArray.
Hypothesis qSin_range : forall x, (-1 <= qSin x)%Q /\ (qSin x <= 1)%Q.

Lemma sendShotSample_sim e : sim (sendShotSample e) = sim e.
Proof.
  unfold sendShotSample. unfold_handlers. case_match; reflexivity.
Qed.

Lemma tick_simWithin k e :
  0 <= k -> k + 1 < 2 ^ 31 ->
  simWithin (inject_Z k) (sim e) ->
  simWithin (inject_Z (k + 1)) (sim (onShotTimerTick qSin e)).
Proof.
  intros Hk Hk1 ((Ht & Hp0 & Hp1 & Hf0 & Hf1 & Hs0 & Hs1 & Hn) & Hb).
  unfold onShotTimerTick. rewrite sendShotSample_sim.
  unfold updateSimulationValues.
  cbn [m_currentState m_currentSubState with_sim sim m_shotTimer_s
       m_pressure m_flow m_temperature m_setTemp m_setPressure m_setFlow
       m_waterLevel m_steamTemp m_frameNumber].
  set (t := Double.add (m_shotTimer_s (sim e)) (Double.round64 (2 # 10))).
  assert (C2 : (0 <= Double.round64 (2 # 10))%Q
               /\ (Double.round64 (2 # 10) <= 1)%Q)
    by (vm_compute; split; discriminate).
  assert (Ht' : (0 <= t)%Q /\ (t <= inject_Z (k + 1))%Q).
  { unfold t, Double.add. split.
    - apply round64_nonneg. lra.
    - apply round64_le_Z; [lia|]. rewrite inject_Z_plus.
      change (inject_Z 1) with 1%Q. lra. }
  destruct Ht' as [T0 T1].
  repeat case_match; unfold simWithin, simBounded;
    cbn [sim with_sim m_shotTimer_s m_pressure m_flow m_steamTemp
         m_frameNumber];
    fold t.
  - (* Preinfusion *)
    assert (C8 : (0 <= Double.round64 (8 # 10))%Q)
      by (vm_compute; discriminate).
    assert (M : (0 <= Double.mul t (Double.round64 (8 # 10)))%Q).
    { unfold Double.mul. apply round64_nonneg.
      apply Qmult_le_0_compat; assumption. }
    destruct (qMin_cases 4 (Double.mul t (Double.round64 (8 # 10))))
      as [[-> ?]|[-> ?]];
      repeat split; try assumption; try lra; lia.
  - (* Pouring *)
    set (pt := Double.sub t 7).
    assert (Pt : (inject_Z (-7) <= pt)%Q /\ (pt <= inject_Z (k + 1))%Q).
    { unfold pt, Double.sub. split.
      - apply round64_ge_Z; [lia|]. change (inject_Z (-7)) with (-7)%Q. lra.
      - apply round64_le_Z; [lia|]. lra. }
    destruct Pt as [Pt0 Pt1]. change (inject_Z (-7)) with (-7)%Q in Pt0.
    assert (K0 : (0 <= inject_Z (k + 1))%Q)
      by (change 0%Q with (inject_Z 0); rewrite <- Zle_Qle; lia).
    destruct (qSin_range (Double.mul pt (5 # 10))) as [S1 S2].
    destruct (qSin_range (Double.mul pt (Double.round64 (3 # 10))))
      as [S3 S4].
    assert (P : (7 <= Double.add 8
                        (Double.mul (qSin (Double.mul pt (5 # 10))) 1))%Q
                /\ (Double.add 8
                      (Double.mul (qSin (Double.mul pt (5 # 10))) 1)
                    <= 9)%Q).
    { unfold Double.add at 1 2.
      assert (I : (-1 <= Double.mul (qSin (Double.mul pt (5 # 10))) 1)%Q
                  /\ (Double.mul (qSin (Double.mul pt (5 # 10))) 1 <= 1)%Q).
      { unfold Double.mul at 1 3.
        apply round64_between; [reflexivity|reflexivity|lra|lra]. }
      apply round64_between; [reflexivity|reflexivity|lra|lra]. }
    assert (F : ((3 # 2) <= Double.add 2
                   (Double.mul
                      (qSin (Double.mul pt (Double.round64 (3 # 10))))
                      (5 # 10)))%Q
                /\ (Double.add 2
                      (Double.mul
                         (qSin (Double.mul pt (Double.round64 (3 # 10))))
                         (5 # 10))
                    <= 5 # 2)%Q).
    { unfold Double.add at 1 2.
      assert (I : (- (1 # 2)
                   <= Double.mul
                        (qSin (Double.mul pt (Double.round64 (3 # 10))))
                        (5 # 10))%Q
                  /\ (Double.mul
                        (qSin (Double.mul pt (Double.round64 (3 # 10))))
                        (5 # 10)
                      <= 1 # 2)%Q).
      { unfold Double.mul at 1 3.
        apply round64_between; [reflexivity|reflexivity|lra|lra]. }
      apply round64_between; [reflexivity|reflexivity|lra|lra]. }
    assert (D : (-2 < Double.div pt 5)%Q
                /\ (Double.div pt 5 <= inject_Z (k + 1))%Q).
    { unfold Double.div. split.
      - apply Qlt_le_trans with (Double.round64 (- (7 # 5))).
        + vm_compute. reflexivity.
        + apply round64_mono. unfold Qdiv. change (/ 5)%Q with (1 # 5)%Q.
          lra.
      - apply round64_le_Z; [lia|]. unfold Qdiv.
        change (/ 5)%Q with (1 # 5)%Q. lra. }
    destruct D as [D0 D1].
    pose proof (to_int_range (Double.div pt 5) (-1) (k + 1)) as R.
    change (inject_Z (-1) - 1)%Q with (-2)%Q in R.
    specialize (R ltac:(lia) Hk1 ltac:(lia) D0 D1).
    repeat split; try assumption; try lra; lia.
  - (* Ending *)
    assert (C3 : (0 <= Double.round64 (3 # 10))%Q)
      by (vm_compute; discriminate).
    assert (P : (Double.sub (m_pressure (sim e)) (5 # 10) <= 9)%Q).
    { unfold Double.sub. apply (round64_le_Z _ 9); [lia|].
      change (inject_Z 9) with 9%Q. lra. }
    assert (F : (Double.sub (m_flow (sim e)) (Double.round64 (3 # 10))
                 <= 8)%Q).
    { unfold Double.sub. apply (round64_le_Z _ 8); [lia|].
      change (inject_Z 8) with 8%Q. lra. }
    destruct (qMax_cases 0 (Double.sub (m_pressure (sim e)) (5 # 10)))
      as [[-> ?]|[-> ?]];
      destruct (qMax_cases 0
                  (Double.sub (m_flow (sim e)) (Double.round64 (3 # 10))))
        as [[-> ?]|[-> ?]];
      repeat split; try assumption; try lra; lia.
  - repeat split; try assumption; try lra; lia.
  - (* Steam *)
    assert (S : (0 <= Double.add 100 (Double.mul t 2))%Q).
    { unfold Double.add. apply round64_nonneg.
      assert (M : (0 <= Double.mul t 2)%Q)
        by (unfold Double.mul; apply round64_nonneg; lra).
      lra. }
    destruct (qMin_cases 150 (Double.add 100 (Double.mul t 2)))
      as [[-> ?]|[-> ?]];
      repeat split; try assumption; try lra; lia.
  - repeat split; try assumption; try lra; lia.
  - repeat split; try assumption; try lra; lia.
  - repeat split; try assumption; try lra; lia.
Qed.

Lemma write_sim charId value e :
  sim (handleCharacteristicWrite charId value e) = sim e.
Proof. apply (inbound_write_keeps_timers charId value e). Qed.

Lemma handlePiEvent_sim obj e : sim (handlePiEvent fromHex obj e) = sim e.
Proof.
  unfold handlePiEvent.
  repeat case_match; try apply write_sim;
    unfold sendWaterLevel; unfold_handlers; repeat case_match; reflexivity.
Qed.

(** The events other than a shot-sample tick keep the values in range
    and the shot timer where it is, or at zero. *)
Lemma step_simWithin b ev e e' :
  (0 <= b)%Q -> tickCount ev = 0 ->
  EventLoop.step qSin fromJson fromHex ev e = Some e' ->
  simWithin b (sim e) -> simWithin b (sim e').
Proof.
  intros Hb Hev Hstep Hr.
  destruct ev as [t|received| | | | | | |g| |]; cbn [EventLoop.step] in Hstep.
  - destruct t; unfold fireTimer in Hstep; [|discriminate Hev|].
    + destruct (phaseTimer e); [|discriminate]. injection Hstep as <-.
      unfold_operations; bounds_tac.
    + destruct (waterTimerActive e); [|discriminate]. injection Hstep as <-.
      unfold_operations; bounds_tac.
  - destruct (socketConnected e); [|discriminate].
    unfold onDataReceived in Hstep.
    refine (drainBuffer_preserves fromJson fromHex
              (fun x => simWithin b (sim x)) _ _ _ _ _ _ _ Hstep).
    + intros buf e0 H0. exact H0.
    + intros e0 H0. exact H0.
    + intros obj e0 H0. rewrite handlePiEvent_sim. exact H0.
    + exact Hr.
  - destruct (controlsEnabled e); [|discriminate]. injection Hstep as <-.
    unfold_operations; bounds_tac.
  - destruct (controlsEnabled e); [|discriminate]. injection Hstep as <-.
    unfold_operations; bounds_tac.
  - destruct (controlsEnabled e); [|discriminate]. injection Hstep as <-.
    unfold_operations; bounds_tac.
  - destruct (controlsEnabled e); [|discriminate]. injection Hstep as <-.
    unfold_operations; bounds_tac.
  - destruct (controlsEnabled e); [|discriminate]. injection Hstep as <-.
    unfold_operations; bounds_tac.
  - destruct (controlsEnabled e); [|discriminate]. injection Hstep as <-.
    unfold_operations; bounds_tac.
  - injection Hstep as <-. exact Hr.
  - destruct (socketConnected e); [discriminate|]. injection Hstep as <-.
    exact Hr.
  - destruct (socketConnected e); [|discriminate]. injection Hstep as <-.
    exact Hr.
Qed.

Lemma tickCount_range ev : 0 <= tickCount ev <= 1.
Proof. destruct ev as [[]| | | | | | | | | |]; cbn; lia. Qed.

Lemma shotTicks_nonneg evs : 0 <= shotTicks evs.
Proof.
  induction evs as [|ev evs IH]; [cbn; lia|].
  change (shotTicks (ev :: evs)) with (tickCount ev + shotTicks evs).
  pose proof (tickCount_range ev). lia.
Qed.

(** An invariant that counts the shot-sample ticks: kept by every other
    event, and by a tick with the count one higher, it holds after a run
    of fewer than 2^31 ticks. *)
Lemma run_counted (Inv : Z -> Engine -> Prop) :
  (forall k ev e e',
     0 <= k -> tickCount ev = 0 -> Inv k e ->
     EventLoop.step qSin fromJson fromHex ev e = Some e' -> Inv k e') ->
  (forall k e,
     0 <= k -> k + 1 < 2 ^ 31 -> Inv k e ->
     Inv (k + 1) (onShotTimerTick qSin e)) ->
  forall evs k e e',
    0 <= k -> k + shotTicks evs < 2 ^ 31 -> Inv k e ->
    EventLoop.run qSin fromJson fromHex evs e = Some e' ->
    Inv (k + shotTicks evs) e'.
Proof.
  intros Hother Htick.
  induction evs as [|ev evs IH]; intros k e e' Hk Hb Hi Hrun.
  - injection Hrun as <-. change (shotTicks []) with 0.
    replace (k + 0) with k by lia. exact Hi.
  - cbn [EventLoop.run] in Hrun.
    change (shotTicks (ev :: evs)) with (tickCount ev + shotTicks evs)
      in Hb |- *.
    pose proof (shotTicks_nonneg evs) as N.
    pose proof (tickCount_range ev) as R.
    destruct (EventLoop.step qSin fromJson fromHex ev e) as [e1|] eqn:E;
      [|discriminate].
    replace (k + (tickCount ev + shotTicks evs))
      with (k + tickCount ev + shotTicks evs) by lia.
    apply (IH (k + tickCount ev) e1 e'); [lia|lia| |exact Hrun].
    destruct (Z.eq_dec (tickCount ev) 0) as [Z|NZ].
    + rewrite Z. replace (k + 0) with k by lia.
      apply (Hother k ev e e1); assumption.
    + destruct ev as [[]| | | | | | | | | |]; try (cbn in NZ; lia).
      cbn [EventLoop.step fireTimer] in E. cbn [tickCount].
      destruct (shotTimerActive e); [|discriminate]. injection E as <-.
      apply Htick; [exact Hk|cbn [tickCount] in Hb; lia|exact Hi].
Qed.

Lemma run_simWithin evs k e e' :
  0 <= k -> k + shotTicks evs < 2 ^ 31 ->
  simWithin (inject_Z k) (sim e) ->
  EventLoop.run qSin fromJson fromHex evs e = Some e' ->
  simWithin (inject_Z (k + shotTicks evs)) (sim e').
Proof.
  apply (run_counted (fun k e => simWithin (inject_Z k) (sim e))).
  - intros k0 ev e0 e1 Hk Hev Hi Hstep.
    apply (step_simWithin _ ev e0 e1); try assumption.
    change 0%Q with (inject_Z 0). rewrite <- Zle_Qle. exact Hk.
  - intros k0 e0 Hk Hb Hi. apply tick_simWithin; assumption.
Qed.

(** X11. With a sine between -1 and 1, in every run of fewer than 2^31
    shot-sample ticks the shot timer is never negative, the pressure
    stays within 0..9, the flow within 0..8, the steam temperature
    within 0..150 and the frame number within 0..5, the conversion of
    the frame number to [int] being defined; so the pressure and flow
    fields of SHOT_SAMPLE carry the whole part of 4096 times the value,
    unclamped, and the frame number fits its byte. *)
Theorem simulated_values_bounded
    (evs : list EventLoop.Event) (e' : Engine) :
  shotTicks evs < 2 ^ 31 ->
  EventLoop.run qSin fromJson fromHex evs initialEngine = Some e' ->
  simBounded (sim e')
  /\ BinaryCodec.encodeU16P12 (m_pressure (sim e'))
     = Qfloor (m_pressure (sim e') * 4096)
  /\ BinaryCodec.encodeU16P12 (m_flow (sim e'))
     = Qfloor (m_flow (sim e') * 4096)
  /\ u8 (to_byte (m_frameNumber (sim e'))) = m_frameNumber (sim e').
Proof.
  intros Hticks Hrun.
  assert (H : simBounded (sim e')).
  { refine (proj1 (run_simWithin evs 0 initialEngine e' _ _ _ Hrun)).
    - lia.
    - lia.
    - split; [|discriminate].
      unfold simBounded. cbn. repeat split; (discriminate || lia). }
  split; [exact H|].
  destruct H as (Ht & Hp0 & Hp1 & Hf0 & Hf1 & Hs0 & Hs1 & Hn).
  assert (E : forall x, (0 <= x)%Q -> (x <= 9)%Q ->
              BinaryCodec.encodeU16P12 x = Qfloor (x * 4096)).
  { intros x H0 H1.
    destruct (fixed_encode_value 16 4096 x eq_refl eq_refl) as [E _].
    cbv zeta in E. change (inject_Z (2 ^ 16 - 1)) with 65535%Q in E.
    fold (BinaryCodec.encodeU16P12 x) in E. rewrite E.
    apply Qfloor_comp, qBound_within; lra. }
  split; [apply E; assumption|]. split; [apply E; [assumption|lra]|].
  apply u8_to_byte. lia.
Qed.

End ValueBounds.


(** ** The operator's state machine *)

Section OperatorMachine.

Variable qSin : Q -> Q.
Variable fromJson : QByteArray -> option QJsonObject.
Variable fromHex : string -> QByteArray.

Ltac config_cases H :=
  unfold configuration in H; apply list_elem_of_In in H; cbn in H;
  repeat (destruct H as [H|H]; [injection H as <- <- <- <-|]);
  [..|destruct H].

Ltac config_done :=
  unfold configuration; unfold_operations; cbn;
  apply list_elem_of_In; cbn; tauto.

Lemma step_configured ev e e' :
  localEvent ev ->
  EventLoop.step qSin fromJson fromHex ev e = Some e' ->
  configuration e ∈ operatorConfigurations ->
  configuration e' ∈ operatorConfigurations.
Proof.
  intros Hl Hstep Hc.
  destruct ev as [t|received| | | | | | |g| |]; cbn [EventLoop.step] in Hstep;
    try destruct Hl.
  - destruct t; unfold fireTimer in Hstep.
    + destruct e as [c ce buf s ss h fs v sa pt wa g lv out].
      cbn [phaseTimer] in Hstep. destruct pt as [ms|]; [|discriminate].
      injection Hstep as <-. config_cases Hc; config_done.
    + destruct (shotTimerActive e); [|discriminate]. injection Hstep as <-.
      destruct (tick_keeps_phase qSin e) as (T1 & T2 & T3 & T4 & _).
      cbv zeta in *. unfold configuration in *.
      rewrite T1, T2, T3, T4. exact Hc.
    + destruct (waterTimerActive e); [|discriminate]. injection Hstep as <-.
      destruct (water_keeps_phase e) as (T1 & T2 & T3 & T4 & _).
      cbv zeta in *. unfold configuration in *.
      rewrite T1, T2, T3, T4. exact Hc.
  - destruct (controlsEnabled e); [|discriminate]. injection Hstep as <-.
    destruct e as [c ce buf s ss h fs v sa pt wa g lv out].
    config_cases Hc; config_done.
  - destruct (controlsEnabled e); [|discriminate]. injection Hstep as <-.
    destruct e as [c ce buf s ss h fs v sa pt wa g lv out].
    config_cases Hc; config_done.
  - destruct (controlsEnabled e); [|discriminate]. injection Hstep as <-.
    destruct e as [c ce buf s ss h fs v sa pt wa g lv out].
    config_cases Hc; config_done.
  - destruct (controlsEnabled e); [|discriminate]. injection Hstep as <-.
    destruct e as [c ce buf s ss h fs v sa pt wa g lv out].
    config_cases Hc; config_done.
  - destruct (controlsEnabled e); [|discriminate]. injection Hstep as <-.
    destruct e as [c ce buf s ss h fs v sa pt wa g lv out].
    config_cases Hc; config_done.
  - destruct (controlsEnabled e); [|discriminate]. injection Hstep as <-.
    destruct e as [c ce buf s ss h fs v sa pt wa g lv out].
    config_cases Hc; config_done.
  - injection Hstep as <-. exact Hc.
Qed.

(** X12. Under the operator's clicks, GHC selections and timer events
    alone (no data from the agent, the socket staying as it is), the
    engine is always in one of nine configurations: at rest in (Idle,
    Ready) or (Sleep, Ready) with both timers stopped, or in one phase
    of an operation with the phase timer armed for that phase's
    interval and the shot-sample timer running. *)
Theorem operator_configurations_closed
    (evs : list EventLoop.Event) (e e' : Engine) :
  Forall localEvent evs ->
  configuration e ∈ operatorConfigurations ->
  EventLoop.run qSin fromJson fromHex evs e = Some e' ->
  configuration e' ∈ operatorConfigurations.
Proof.
  revert e. induction evs as [|ev evs IH]; intros e Hall Hc Hrun.
  - injection Hrun as <-. exact Hc.
  - inversion Hall as [|? ? Hl Hrest]; subst.
    cbn [EventLoop.run] in Hrun.
    destruct (EventLoop.step qSin fromJson fromHex ev e) as [e1|] eqn:E;
      [|discriminate].
    apply (IH e1 Hrest (step_configured ev e e1 Hl E Hc) Hrun).
Qed.

End OperatorMachine.


(** ** Reassembly of the control channel *)

Section Reassembly.

Variable fromJson : QByteArray -> option QJsonObject.
Variable fromHex : string -> QByteArray.

Lemma indexOf_app_found c buf more idx :
  indexOf c buf = Some idx -> indexOf c (buf ++ more) = Some idx.
Proof.
  revert idx. induction buf as [|b buf IH]; intros idx H; [discriminate|].
  cbn in *. destruct (Byte.eqb b c); [exact H|].
  destruct (indexOf c buf) as [i|]; [|discriminate].
  rewrite (IH i eq_refl). exact H.
Qed.

(** The handlers never read the receive buffer. *)
Lemma write_with_buffer b charId value e :
  handleCharacteristicWrite charId value (with_buffer b e)
  = with_buffer b (handleCharacteristicWrite charId value e).
Proof.
  destruct e as [c ce buf s ss h fs v sa pt wa g lv out].
  unfold handleCharacteristicWrite.
  destruct (String.eqb charId DE1.CHAR_REQUESTED_STATE).
  { unfold handleRequestedState. unfold_handlers. cbn.
    repeat case_match; reflexivity. }
  destruct (String.eqb charId DE1.CHAR_READ_FROM_MMR).
  { unfold handleMMRReadRequest. unfold_handlers. cbn.
    repeat case_match; reflexivity. }
  destruct (String.eqb charId DE1.CHAR_WRITE_TO_MMR).
  { unfold handleMMRWrite. unfold_handlers. cbn.
    repeat case_match; reflexivity. }
  destruct (String.eqb charId DE1.CHAR_HEADER_WRITE).
  { unfold handleHeaderWrite. unfold_handlers. cbn.
    repeat case_match; reflexivity. }
  destruct (String.eqb charId DE1.CHAR_FRAME_WRITE).
  { unfold handleFrameWrite. unfold_handlers. cbn.
    repeat case_match; reflexivity. }
  destruct (String.eqb charId DE1.CHAR_SHOT_SETTINGS).
  { unfold handleShotSettings. unfold_handlers. cbn.
    repeat case_match; reflexivity. }
  reflexivity.
Qed.

Lemma handlePiEvent_with_buffer b obj e :
  handlePiEvent fromHex obj (with_buffer b e)
  = with_buffer b (handlePiEvent fromHex obj e).
Proof.
  unfold handlePiEvent.
  repeat case_match; try apply write_with_buffer;
    destruct e as [c ce buf s ss h fs v sa pt wa g lv out];
    unfold sendWaterLevel; unfold_handlers; cbn;
    repeat case_match; reflexivity.
Qed.

Lemma with_buffer_twice b b' e :
  with_buffer b (with_buffer b' e) = with_buffer b e.
Proof. reflexivity. Qed.

Lemma log_with_buffer b msg cat e :
  log msg cat (with_buffer b e) = with_buffer b (log msg cat e).
Proof. reflexivity. Qed.

(** Draining a buffer to which more bytes were appended is draining the
    buffer first and then what is left of it with the bytes appended. *)
Lemma drainBuffer_app n : forall e more,
  (length (m_tcpBuffer e) < n)%nat ->
  drainBuffer fromJson fromHex (S (length (m_tcpBuffer e ++ more)))
    (with_buffer (m_tcpBuffer e ++ more) e)
  = match drainBuffer fromJson fromHex n e with
    | Some e1 =>
        drainBuffer fromJson fromHex (S (length (m_tcpBuffer e1 ++ more)))
          (with_buffer (m_tcpBuffer e1 ++ more) e1)
    | None => None
    end.
Proof.
  induction n as [|n IH]; intros e more Hn; [lia|].
  destruct (indexOf x0a (m_tcpBuffer e)) as [idx|] eqn:Ei.
  - pose proof (indexOf_bound _ _ _ Ei) as Hidx.
    set (B := m_tcpBuffer e) in *.
    assert (Hstep : forall (P : Engine -> Engine),
               (forall x y, P (with_buffer x y) = with_buffer x (P y)) ->
               drainBuffer fromJson fromHex (length (B ++ more))
                 (P (with_buffer (drop (S idx) B ++ more)
                       (with_buffer (B ++ more) e)))
               = match drainBuffer fromJson fromHex n
                         (P (with_buffer (drop (S idx) B) e)) with
                 | Some e1 =>
                     drainBuffer fromJson fromHex
                       (S (length (m_tcpBuffer e1 ++ more)))
                       (with_buffer (m_tcpBuffer e1 ++ more) e1)
                 | None => None
                 end).
    { intros P HP.
      set (e2 := P (with_buffer (drop (S idx) B) e)).
      assert (Hb2 : m_tcpBuffer e2 = drop (S idx) B)
        by (unfold e2; rewrite HP; reflexivity).
      assert (Hl2 : (length (m_tcpBuffer e2) < n)%nat)
        by (rewrite Hb2, length_drop; lia).
      rewrite <- (IH e2 more Hl2).
      replace (P (with_buffer (drop (S idx) B ++ more)
                    (with_buffer (B ++ more) e)))
        with (with_buffer (m_tcpBuffer e2 ++ more) e2)
        by (rewrite Hb2; unfold e2; rewrite !HP; reflexivity).
      apply drainBuffer_fuel; cbn [m_tcpBuffer with_buffer];
        rewrite Hb2, ?length_app, ?length_drop; lia. }
    cbn [drainBuffer m_tcpBuffer with_buffer]. fold B.
    rewrite (indexOf_app_found _ _ more _ Ei), Ei.
    rewrite take_app_le by lia. rewrite drop_app_le by lia.
    destruct (take idx B) as [|b line].
    + apply (Hstep (fun x => x)). reflexivity.
    + destruct (fromJson (b :: line)) as [obj|].
      * apply (Hstep (handlePiEvent fromHex obj)).
        intros x y. apply handlePiEvent_with_buffer.
      * apply (Hstep (log MsgJsonParseError ERROR)). reflexivity.
  - replace (drainBuffer fromJson fromHex (S n) e) with (Some e)
      by (cbn [drainBuffer]; rewrite Ei; reflexivity).
    reflexivity.
Qed.

Lemma drainBuffer_leftover fuel : forall e e',
  drainBuffer fromJson fromHex fuel e = Some e' ->
  indexOf x0a (m_tcpBuffer e') = None.
Proof.
  induction fuel as [|fuel IH]; intros e e' H; [discriminate|].
  cbn [drainBuffer] in H.
  destruct (indexOf x0a (m_tcpBuffer e)) as [idx|] eqn:Ei;
    [|injection H as <-; exact Ei].
  destruct (take idx (m_tcpBuffer e)) as [|b line]; [exact (IH _ _ H)|].
  destruct (fromJson (b :: line)); exact (IH _ _ H).
Qed.

(** X13. What [onDataReceived] does with the bytes of a read does not
    depend on how the stream is cut into reads: receiving [a ++ b] at
    once is receiving [a] and then [b]. It always returns, and what it
    leaves in the buffer holds no newline: only an unfinished line
    waits for more bytes. *)
Theorem reassembly_independent_of_chunks (a b : QByteArray) (e : Engine) :
  onDataReceived fromJson fromHex (a ++ b) e
  = match onDataReceived fromJson fromHex a e with
    | Some e1 => onDataReceived fromJson fromHex b e1
    | None => None
    end
  /\ exists e',
       onDataReceived fromJson fromHex a e = Some e'
       /\ indexOf x0a (m_tcpBuffer e') = None.
Proof.
  split.
  - unfold onDataReceived. rewrite app_assoc.
    set (e0 := with_buffer (m_tcpBuffer e ++ a) e).
    change (with_buffer ((m_tcpBuffer e ++ a) ++ b) e)
      with (with_buffer (m_tcpBuffer e0 ++ b) e0).
    change (m_tcpBuffer e ++ a) with (m_tcpBuffer e0).
    apply drainBuffer_app. lia.
  - destruct (onDataReceived_total fromJson fromHex a e) as [e' He].
    exists e'. split; [exact He|].
    apply (drainBuffer_leftover _ _ _ He).
Qed.

End Reassembly.


(** ** The objects of the control channel, both ways *)

Section BridgeFacts.

Variable toHex : QByteArray -> string.
Variable fromHex : string -> QByteArray.
Hypothesis hex_roundtrip : forall data, fromHex (toHex data) = data.

(** X14. Given that decoding the hexadecimal text of a byte array gives
    the array back, the objects of the control channel carry their
    content across: the object the agent builds for a BLE write makes
    the simulator handle that write of those bytes; the object the
    simulator builds for a notification is read by the agent as the
    notify command of that characteristic and those bytes, and handling
    it sets that characteristic, when it is registered, and no other. *)
Theorem bridge_roundtrip :
  (forall charId value e,
     handlePiEvent fromHex (Bridge.eventObject toHex (EvWrite charId value)) e
     = handleCharacteristicWrite charId value e)
  /\ (forall charId data,
        Bridge.parseCommand fromHex
          (Bridge.commandObject toHex (CmdNotify charId data))
        = ANotify charId data)
  /\ (forall charId data a,
        serviceCreated a = true ->
        is_Some (characteristics a !! charId) ->
        characteristics
          (PiDaemon.handleCommand
             (Bridge.parseCommand fromHex
                (Bridge.commandObject toHex (CmdNotify charId data))) a)
        = <[charId := data]> (characteristics a)).
Proof.
  assert (P : forall charId data,
             Bridge.parseCommand fromHex
               (Bridge.commandObject toHex (CmdNotify charId data))
             = ANotify charId data).
  { intros charId data. unfold Bridge.parseCommand, Bridge.commandObject, QJsonObject.
    rewrite !lookup_insert_ne, lookup_insert_eq by discriminate.
    cbn [toString String.eqb Ascii.eqb Bool.eqb].
    rewrite lookup_insert_ne, lookup_insert_eq by discriminate.
    rewrite lookup_insert_eq. cbn [toString].
    rewrite hex_roundtrip. reflexivity. }
  split; [|split; [exact P|]].
  - intros charId value e. unfold handlePiEvent, Bridge.eventObject, QJsonObject.
    rewrite !lookup_insert_ne, lookup_insert_eq by discriminate.
    cbn [toString String.eqb Ascii.eqb Bool.eqb].
    rewrite lookup_insert_ne, lookup_insert_eq by discriminate.
    rewrite lookup_insert_eq. cbn [toString].
    rewrite hex_roundtrip. reflexivity.
  - intros charId data a Hs [old Hold]. rewrite P.
    cbn [PiDaemon.handleCommand]. unfold PiDaemon.sendNotification.
    rewrite Hs. unfold AgentFields.writeCharacteristic. rewrite Hold.
    reflexivity.
Qed.

End BridgeFacts.

(** ** The agent and its Controller *)

Ltac unfold_agent :=
  unfold PiDaemon.onTcpConnection, PiDaemon.onTcpDisconnected,
    PiDaemon.onBleConnected, PiDaemon.onBleDisconnected,
    PiDaemon.onBleError, PiDaemon.onCharacteristicChanged,
    PiDaemon.onCharacteristicRead, PiDaemon.handleCommand,
    PiDaemon.sendNotification, PiDaemon.updateCharacteristic,
    PiDaemon.startAdvertising, PiDaemon.stopAdvertising,
    PiDaemon.sendToWindows,
    EmbeddedDaemon.onTcpConnection, EmbeddedDaemon.onTcpDisconnected,
    EmbeddedDaemon.onBleConnected, EmbeddedDaemon.onBleDisconnected,
    EmbeddedDaemon.onCharChanged, EmbeddedDaemon.handleCommand,
    EmbeddedDaemon.startAdvertising, EmbeddedDaemon.sendToWindows,
    AgentFields.writeCharacteristic.

Section ForwardingFacts.

Lemma pi_step_forwards i a :
  toWindows a `prefix_of` toWindows (PiDaemon.step i a)
  /\ (notConnection i -> m_tcpClient a = None ->
      toWindows (PiDaemon.step i a) = toWindows a
      /\ m_tcpClient (PiDaemon.step i a) = None).
Proof.
  destruct a as [client created adv cen chars events].
  destruct i as [socket| |address| |code|charId value|charId|cmd];
    try destruct cmd; cbn [PiDaemon.step]; unfold_agent;
    (split; [|intros Hi Hc; try contradiction; cbn in Hc; subst client]);
    cbn; repeat (case_match; cbn in * );
    try discriminate;
    first [ split; (reflexivity || assumption)
          | reflexivity
          | apply prefix_app_r; reflexivity
          | rewrite <- ?app_assoc; apply prefix_app_r; reflexivity
          | idtac ].
Qed.

Lemma embedded_step_forwards i a :
  toWindows a `prefix_of` toWindows (EmbeddedDaemon.step i a)
  /\ (notConnection i -> m_tcpClient a = None ->
      toWindows (EmbeddedDaemon.step i a) = toWindows a
      /\ m_tcpClient (EmbeddedDaemon.step i a) = None).
Proof.
  destruct a as [client created adv cen chars events].
  destruct i as [socket| |address| |code|charId value|charId|cmd];
    try destruct cmd; cbn [EmbeddedDaemon.step]; unfold_agent;
    (split; [|intros Hi Hc; try contradiction; cbn in Hc; subst client]);
    cbn; repeat (case_match; cbn in * );
    try discriminate;
    first [ split; (reflexivity || assumption)
          | reflexivity
          | apply prefix_app_r; reflexivity
          | rewrite <- ?app_assoc; apply prefix_app_r; reflexivity
          | idtac ].
Qed.

(** X15. In both copies of the agent the events written to the
    Controller are only ever appended to, and an agent with no
    Controller attached writes none: whatever BLE events and commands
    arrive before the next Controller is accepted, they are dropped,
    not queued. *)
Theorem agent_events_appended_or_dropped (inputs : list AgentInput) :
  forall a,
    (toWindows a `prefix_of` toWindows (PiDaemon.run inputs a)
     /\ toWindows a `prefix_of` toWindows (EmbeddedDaemon.run inputs a))
    /\ (Forall notConnection inputs -> m_tcpClient a = None ->
        toWindows (PiDaemon.run inputs a) = toWindows a
        /\ toWindows (EmbeddedDaemon.run inputs a) = toWindows a).
Proof.
  induction inputs as [|i inputs IH]; intros a.
  - repeat split; reflexivity.
  - cbn [PiDaemon.run EmbeddedDaemon.run fold_left].
    destruct (pi_step_forwards i a) as [Hp Hpd].
    destruct (embedded_step_forwards i a) as [He Hed].
    destruct (IH (PiDaemon.step i a)) as [[Hp1 _] Hpq].
    destruct (IH (EmbeddedDaemon.step i a)) as [[_ He1] Heq].
    split; [split|].
    + etrans; [exact Hp|exact Hp1].
    + etrans; [exact He|exact He1].
    + intros Hall Hc. inversion Hall as [|? ? Hi Hrest]; subst.
      destruct (Hpd Hi Hc) as [Hpt Hpc].
      destruct (Hed Hi Hc) as [Het Hec].
      destruct (Hpq Hrest Hpc) as [R1 _].
      destruct (Heq Hrest Hec) as [_ R2].
      split; [rewrite <- Hpt; exact R1|rewrite <- Het; exact R2].
Qed.

End ForwardingFacts.


Section RelayFacts.

Variable qSin : Q -> Q.
Variable fromJson : QByteArray -> option QJsonObject.
Variable toHex : QByteArray -> string.
Variable fromHex : string -> QByteArray.
Hypothesis hex_roundtrip : forall data, fromHex (toHex data) = data.

Lemma parse_commandObject charId data :
  Bridge.parseCommand fromHex
    (Bridge.commandObject toHex (CmdNotify charId data))
  = ANotify charId data.
Proof.
  unfold Bridge.parseCommand, Bridge.commandObject, QJsonObject.
  rewrite !lookup_insert_ne, lookup_insert_eq by discriminate.
  cbn [toString String.eqb Ascii.eqb Bool.eqb].
  rewrite lookup_insert_ne, lookup_insert_eq by discriminate.
  rewrite lookup_insert_eq. cbn [toString].
  rewrite hex_roundtrip. reflexivity.
Qed.

Lemma relay_stored out : forall a,
  Forall (sizedLike PiDaemon.createDE1Service Registry.piProperties) out ->
  servingTable a ->
  characteristics (PiDaemon.run (relay toHex fromHex out) a)
  = stored out (characteristics a)
  /\ servingTable (PiDaemon.run (relay toHex fromHex out) a).
Proof.
  induction out as [|[charId data] out IH]; intros a Hall Ha.
  - split; [reflexivity|exact Ha].
  - inversion Hall as [|? ? Hc Hrest]; subst.
    destruct Ha as ([client Hclient] & Hs & Hsized & Hdom).
    destruct Hc as (initial & ps & Hinit & Hlen & _).
    destruct (Hdom charId (ex_intro _ initial Hinit)) as [old Hold].
    cbn [relay map PiDaemon.run fold_left stored foldl].
    rewrite parse_commandObject. cbn [PiDaemon.step].
    rewrite Hclient. cbn [PiDaemon.handleCommand].
    unfold PiDaemon.sendNotification. rewrite Hs.
    unfold AgentFields.writeCharacteristic. rewrite Hold.
    apply IH; [exact Hrest|].
    split; [exists client; exact Hclient|].
    split; [exact Hs|]. split.
    + intros id v. cbn [characteristics AgentFields.with_characteristics].
      destruct (decide (id = charId)) as [->|Hne].
      * rewrite lookup_insert_eq. intros [= <-].
        exists initial. split; [exact Hinit|exact Hlen].
      * rewrite lookup_insert_ne by congruence. apply Hsized.
    + intros id Hid. cbn [characteristics AgentFields.with_characteristics].
      destruct (decide (id = charId)) as [->|Hne].
      * rewrite lookup_insert_eq. eexists; reflexivity.
      * rewrite lookup_insert_ne by congruence. apply Hdom, Hid.
Qed.

Lemma attached_boot_serving socket :
  servingTable (PiDaemon.onTcpConnection socket PiDaemon.boot).
Proof.
  split; [eexists; reflexivity|]. split; [reflexivity|]. split.
  - intros id v H. exists v. split; [exact H|reflexivity].
  - intros id H. exact H.
Qed.

(** X16. Given that decoding the hexadecimal text of a byte array gives
    the array back: whatever the events, when the commands the
    simulator wrote are delivered in order to an agent of [pi-daemon]
    that has just accepted the Controller, the agent refuses none of
    them. Its table of characteristics is the created one with each
    notified value stored in order, and every characteristic still
    holds as many bytes as it was created with. *)
Theorem relayed_notifications_stored
    (evs : list EventLoop.Event) (e' : Engine) (socket : nat) :
  EventLoop.run qSin fromJson fromHex evs initialEngine = Some e' ->
  characteristics
    (PiDaemon.run (relay toHex fromHex (socketOut e'))
       (PiDaemon.onTcpConnection socket PiDaemon.boot))
  = stored (socketOut e') PiDaemon.createDE1Service
  /\ sizedTable
       (PiDaemon.run (relay toHex fromHex (socketOut e'))
          (PiDaemon.onTcpConnection socket PiDaemon.boot)).
Proof.
  intros Hrun.
  assert (H : fitsRegistry e').
  { refine (run_preserves qSin fromJson fromHex fitsRegistry
              _ evs initialEngine e' _ Hrun).
    - intros ev e0 e1 H0 Hs.
      exact (step_fitsRegistry qSin fromJson fromHex ev e0 e1 Hs H0).
    - apply Forall_nil_2. }
  destruct (relay_stored (socketOut e')
              (PiDaemon.onTcpConnection socket PiDaemon.boot) H
              (attached_boot_serving socket)) as [E (_ & _ & S & _)].
  split; [exact E|exact S].
Qed.

End RelayFacts.


(** ** The order of frame writes *)

Section FrameOrderFacts.

Lemma handleFrameWrite_effect value e :
  m_profileFrames (handleFrameWrite value e)
  = frameEffect value (numFrames (m_profileHeader e)) (m_profileFrames e)
  /\ m_profileHeader (handleFrameWrite value e) = m_profileHeader e.
Proof.
  unfold handleFrameWrite, frameEffect. cbv zeta.
  repeat case_match; unfold_handlers; split; reflexivity.
Qed.

Lemma frameEffect_length value n frames :
  length (frameEffect value n frames) = length frames.
Proof.
  unfold frameEffect. cbv zeta.
  repeat case_match; rewrite ?length_alter; reflexivity.
Qed.

Lemma frameEffect_commute a b n frames :
  u8 (at_ a 0) <> u8 (at_ b 0) ->
  frameEffect a n (frameEffect b n frames)
  = frameEffect b n (frameEffect a n frames).
Proof.
  intros Hne. unfold frameEffect. cbv zeta.
  destruct (length a <? 8)%nat; [reflexivity|].
  destruct (length b <? 8)%nat; [reflexivity|].
  set (ia := u8 (at_ a 0)) in *. set (ib := u8 (at_ b 0)) in *.
  destruct (32 <=? ia) eqn:Ea, (32 <=? ib) eqn:Eb;
    repeat (case_match; rewrite ?length_alter in * );
    try reflexivity; try lia;
    try (apply list_alter_alter_ne; lia).
  all: pose proof (u8_range (at_ a 0)) as Ra;
       pose proof (u8_range (at_ b 0)) as Rb; fold ia in Ra; fold ib in Rb;
       repeat match goal with
              | H : (_ <=? _) = _ |- _ =>
                  first [apply Z.leb_le in H | apply Z.leb_gt in H]
              | H : (_ <? _) = _ |- _ =>
                  first [apply Z.ltb_lt in H | apply Z.ltb_ge in H]
              | H : (_ =? _) = _ |- _ =>
                  first [apply Z.eqb_eq in H | apply Z.eqb_neq in H]
              end.
  all: match goal with
       | |- alter ?f ?i (alter ?g ?j ?l) = _ =>
           destruct (decide (i = j)) as [E|E];
           [|apply list_alter_alter_ne; exact E]
       end.
  all: first [ exfalso; lia
             | rewrite E, !list_alter_alter_eq;
               apply list_alter_ext; [intros; reflexivity|reflexivity] ].
Qed.

Lemma frameEffect_overwrite a b n frames :
  at_ a 0 = at_ b 0 -> (8 <= length b)%nat ->
  frameEffect b n (frameEffect a n frames) = frameEffect b n frames.
Proof.
  intros Hi Hb. unfold frameEffect. cbv zeta. rewrite Hi.
  destruct (length a <? 8)%nat; [reflexivity|].
  destruct (length b <? 8)%nat eqn:Eb; [apply Nat.ltb_lt in Eb; lia|].
  repeat (case_match; rewrite ?length_alter in * );
    try reflexivity; try lia;
    rewrite list_alter_alter_eq;
    (apply list_alter_ext; [intros; reflexivity|reflexivity]).
Qed.

(** X17. Two FRAME_WRITEs with different first bytes leave the same
    frames whichever arrives first; of two with the same first byte the
    later one prevails, when it has its 8 bytes. A primary frame and
    its extension can so be sent in either order. *)
Theorem frame_writes_order (a b : QByteArray) (e : Engine) :
  (u8 (at_ a 0) <> u8 (at_ b 0) ->
   m_profileFrames (handleFrameWrite a (handleFrameWrite b e))
   = m_profileFrames (handleFrameWrite b (handleFrameWrite a e)))
  /\ (at_ a 0 = at_ b 0 -> (8 <= length b)%nat ->
      m_profileFrames (handleFrameWrite b (handleFrameWrite a e))
      = m_profileFrames (handleFrameWrite b e)).
Proof.
  pose proof (handleFrameWrite_effect a e) as [Fa Ha].
  pose proof (handleFrameWrite_effect b e) as [Fb Hb].
  pose proof (handleFrameWrite_effect a (handleFrameWrite b e)) as [Fab _].
  pose proof (handleFrameWrite_effect b (handleFrameWrite a e)) as [Fba _].
  rewrite Fab, Fba, Fa, Fb, Ha, Hb. split.
  - apply frameEffect_commute.
  - apply frameEffect_overwrite.
Qed.

End FrameOrderFacts.


(** ** What a client reads on the wire *)

Lemma decodeShortBE_encoded v :
  0 <= v < 65536 ->
  BinaryCodec.decodeShortBE (to_byte (Z.land (Z.shiftr v 8) 255))
    (to_byte (Z.land v 255)) = v.
Proof.
  intros Hv. unfold BinaryCodec.decodeShortBE.
  rewrite byte_of_word, land_255 by lia. change (2 ^ 8) with 256.
  rewrite !u8_to_byte by (Z.div_mod_to_equations; lia).
  rewrite lor_shifted_small by (simpl; Z.div_mod_to_equations; lia).
  change (2 ^ 8) with 256. Z.div_mod_to_equations; lia.
Qed.

Lemma encodeU16P12_bound x top :
  (x <= top)%Q ->
  0 <= BinaryCodec.encodeU16P12 x <= BinaryCodec.encodeU16P12 top
  /\ BinaryCodec.encodeU16P12 x < 65536.
Proof.
  intros H. unfold BinaryCodec.encodeU16P12.
  pose proof (fixed_encode_mono 16 4096 x top eq_refl eq_refl H) as M.
  pose proof (proj2 (fixed_encode_value 16 4096 x eq_refl eq_refl)) as A.
  cbv zeta in *.
  change (inject_Z (2 ^ 16 - 1)) with 65535%Q in *.
  change (2 ^ 16 - 1) with 65535 in *. lia.
Qed.

Lemma plausible_other charId data :
  charId <> DE1.CHAR_SHOT_SAMPLE -> charId <> DE1.CHAR_WATER_LEVELS ->
  plausible (CmdNotify charId data).
Proof. intros H1 H2. split; intros E; contradiction. Qed.

Lemma plausible_water v :
  steady v ->
  plausible
    (CmdNotify DE1.CHAR_WATER_LEVELS
       (BinaryCodec.encodeShortBE
          (BinaryCodec.encodeU16P8
             (Double.sub (Double.mul (Double.div (m_waterLevel v) 100) 40)
                5)))).
Proof.
  intros (Hw & _). split; [discriminate|]. intros _. rewrite Hw.
  vm_compute. reflexivity.
Qed.

Lemma plausible_sample e :
  simBounded (sim e) -> steady (sim e) -> socketConnected e = true ->
  exists data,
    socketOut (sendShotSample e)
    = socketOut e ++ [CmdNotify DE1.CHAR_SHOT_SAMPLE data]
    /\ sampleInRange data.
Proof.
  intros (Ht & Hp0 & Hp1 & Hf0 & Hf1 & Hs0 & Hs1 & Hn) (Hw & Htemp & Hset)
    Hc.
  unfold sendShotSample. rewrite Hc. cbv zeta. unfold sendNotification.
  rewrite sendCommand_eq, Hc.
  cbn [socketOut with_out logTx log with_log]. eexists. split; [reflexivity|].
  rewrite Htemp, Hset. unfold sampleInRange.
  destruct (encodeU16P12_bound (m_pressure (sim e)) 9 Hp1) as [Bp Bp'].
  destruct (encodeU16P12_bound (m_flow (sim e)) 8 Hf1) as [Bf Bf'].
  change (BinaryCodec.encodeU16P12 9) with 36864 in Bp.
  change (BinaryCodec.encodeU16P12 8) with 32768 in Bf.
  split; [reflexivity|].
  split; [cbn [at_ nth app BinaryCodec.encodeShortBE];
          rewrite decodeShortBE_encoded by lia; lia|].
  split; [cbn [at_ nth app BinaryCodec.encodeShortBE];
          rewrite decodeShortBE_encoded by lia; lia|].
  split; [vm_compute; reflexivity|].
  cbn [at_ nth app BinaryCodec.encodeShortBE BinaryCodec.encodeU24P16].
  split.
  - rewrite u8_to_byte by lia. lia.
  - unfold BinaryCodec.cast_uint.
    rewrite Qtruncate_nonneg by exact Hs0.
    assert (F : 0 <= Qfloor (m_steamTemp (sim e)) <= 150).
    { split.
      - change 0 with (Qfloor 0). apply Qfloor_resp_le, Hs0.
      - change 150 with (Qfloor 150). apply Qfloor_resp_le, Hs1. }
    rewrite Z.mod_small by (change (2 ^ 8) with 256; lia).
    rewrite u8_to_byte by lia. lia.
Qed.

Ltac wire_leaf :=
  first [ assumption
        | apply Forall_nil_2
        | apply Forall_cons_2; [|apply Forall_nil_2];
          first [ apply plausible_other; discriminate
                | apply plausible_water; unfold steady; repeat split; assumption ] ].

Ltac wire_tac :=
  unfold wireInRange, steady in *; cbn in *;
  repeat (case_match; cbn in * ); try discriminate; simplify_eq;
  rewrite ?Forall_app;
  repeat match goal with
         | |- _ /\ _ => split
         | H : _ /\ _ |- _ => destruct H
         end;
  first [ assumption | reflexivity | lia | lra | wire_leaf ].

Section WireFacts.

Variable qSin : Q -> Q.
Variable fromJson : QByteArray -> option QJsonObject.
Variable fromHex : string -> QByteArray.
Hypothesis qSin_range : forall x, (-1 <= qSin x)%Q /\ (qSin x <= 1)%Q.

Lemma write_wireInRange charId value e :
  wireInRange e -> wireInRange (handleCharacteristicWrite charId value e).
Proof.
  intros H. unfold handleCharacteristicWrite.
  destruct (String.eqb charId DE1.CHAR_REQUESTED_STATE).
  { unfold handleRequestedState. unfold_handlers. wire_tac. }
  destruct (String.eqb charId DE1.CHAR_READ_FROM_MMR).
  { unfold handleMMRReadRequest. unfold_handlers. wire_tac. }
  destruct (String.eqb charId DE1.CHAR_WRITE_TO_MMR).
  { unfold handleMMRWrite. unfold_handlers. wire_tac. }
  destruct (String.eqb charId DE1.CHAR_HEADER_WRITE).
  { unfold handleHeaderWrite. unfold_handlers. wire_tac. }
  destruct (String.eqb charId DE1.CHAR_FRAME_WRITE).
  { unfold handleFrameWrite. unfold_handlers. wire_tac. }
  destruct (String.eqb charId DE1.CHAR_SHOT_SETTINGS).
  { unfold handleShotSettings. unfold_handlers. wire_tac. }
  unfold_handlers. wire_tac.
Qed.

Lemma handlePiEvent_wireInRange obj e :
  wireInRange e -> wireInRange (handlePiEvent fromHex obj e).
Proof.
  intros H. unfold handlePiEvent.
  repeat case_match; try (apply write_wireInRange; exact H);
    unfold sendWaterLevel; unfold_handlers; wire_tac.
Qed.

Lemma update_steady e :
  steady (sim e) ->
  steady (sim (updateSimulationValues qSin e))
  /\ socketOut (updateSimulationValues qSin e) = socketOut e
  /\ socketConnected (updateSimulationValues qSin e) = socketConnected e.
Proof.
  intros H. unfold updateSimulationValues, steady in *.
  repeat case_match; cbn; (split; [exact H|split; reflexivity]).
Qed.

Lemma tick_wireInRange e :
  simBounded (sim (onShotTimerTick qSin e)) ->
  wireInRange e -> wireInRange (onShotTimerTick qSin e).
Proof.
  intros Hb' (Hs & Ho). unfold wireInRange.
  unfold onShotTimerTick in *. rewrite sendShotSample_sim in *.
  match goal with
  | |- context [updateSimulationValues qSin ?x] => set (e1 := x) in *
  end.
  destruct (update_steady e1 Hs) as (Hs' & Hout & Hconn).
  split; [exact Hs'|].
  destruct (socketConnected (updateSimulationValues qSin e1)) eqn:Ec.
  - destruct (plausible_sample _ Hb' Hs' Ec) as (data & -> & Hd).
    rewrite Hout. apply Forall_app. split; [exact Ho|].
    apply Forall_cons_2; [|apply Forall_nil_2].
    split; [intros _; exact Hd|discriminate].
  - unfold sendShotSample. rewrite Ec, Hout. exact Ho.
Qed.

Lemma step_wireInRange ev e e' :
  tickCount ev = 0 ->
  EventLoop.step qSin fromJson fromHex ev e = Some e' ->
  wireInRange e -> wireInRange e'.
Proof.
  intros Hev Hstep Hr.
  destruct ev as [t|received| | | | | | |g| |]; cbn [EventLoop.step] in Hstep.
  - destruct t; unfold fireTimer in Hstep; [|discriminate Hev|].
    + destruct (phaseTimer e); [|discriminate]. injection Hstep as <-.
      unfold_operations; wire_tac.
    + destruct (waterTimerActive e); [|discriminate]. injection Hstep as <-.
      unfold_operations; wire_tac.
  - destruct (socketConnected e); [|discriminate].
    unfold onDataReceived in Hstep.
    refine (drainBuffer_preserves fromJson fromHex wireInRange
              _ _ _ _ _ _ _ Hstep).
    + intros b e0 H0. exact H0.
    + intros e0 H0. exact H0.
    + intros obj e0. apply handlePiEvent_wireInRange.
    + exact Hr.
  - destruct (controlsEnabled e); [|discriminate]. injection Hstep as <-.
    unfold_operations; wire_tac.
  - destruct (controlsEnabled e); [|discriminate]. injection Hstep as <-.
    unfold_operations; wire_tac.
  - destruct (controlsEnabled e); [|discriminate]. injection Hstep as <-.
    unfold_operations; wire_tac.
  - destruct (controlsEnabled e); [|discriminate]. injection Hstep as <-.
    unfold_operations; wire_tac.
  - destruct (controlsEnabled e); [|discriminate]. injection Hstep as <-.
    unfold_operations; wire_tac.
  - destruct (controlsEnabled e); [|discriminate]. injection Hstep as <-.
    unfold_operations; wire_tac.
  - injection Hstep as <-. exact Hr.
  - destruct (socketConnected e); [discriminate|]. injection Hstep as <-.
    unfold_operations; wire_tac.
  - destruct (socketConnected e); [|discriminate]. injection Hstep as <-.
    unfold_operations; wire_tac.
Qed.

(** X18. With a sine between -1 and 1, in every run of fewer than 2^31
    shot-sample ticks, every SHOT_SAMPLE notification the simulator
    writes has 19 bytes that a client decodes to a group pressure of at
    most 9 bar, a group flow of at most 8 ml/s, mix, head and set
    temperatures of 93 degrees, a frame number of at most 5 and a steam
    temperature of at most 150; and every WATER_LEVELS notification
    carries 19 00, that is 25 mm. *)
Theorem wire_samples_in_range
    (evs : list EventLoop.Event) (e' : Engine) :
  shotTicks evs < 2 ^ 31 ->
  EventLoop.run qSin fromJson fromHex evs initialEngine = Some e' ->
  forall charId data,
    In (CmdNotify charId data) (socketOut e') ->
    (charId = DE1.CHAR_SHOT_SAMPLE -> sampleInRange data)
    /\ (charId = DE1.CHAR_WATER_LEVELS -> data = [x19; x00]).
Proof.
  intros Hticks Hrun charId data Hin.
  assert (H : simWithin (inject_Z (0 + shotTicks evs)) (sim e')
              /\ wireInRange e').
  { refine (run_counted qSin fromJson fromHex
              (fun k e => simWithin (inject_Z k) (sim e) /\ wireInRange e)
              _ _ evs 0 initialEngine e' _ _ _ Hrun).
    - intros k ev e0 e1 Hk Hev [Hi Hw] Hstep. split.
      + apply (step_simWithin qSin fromJson fromHex _ ev e0 e1);
          try assumption.
        change 0%Q with (inject_Z 0). rewrite <- Zle_Qle. exact Hk.
      + apply (step_wireInRange ev e0 e1); assumption.
    - intros k e0 Hk Hb [Hi Hw].
      pose proof (tick_simWithin qSin qSin_range k e0 Hk Hb Hi) as T.
      split; [exact T|]. apply tick_wireInRange; [apply T|exact Hw].
    - lia.
    - lia.
    - split; [split; [|discriminate]|split; [repeat split|apply Forall_nil_2]].
      unfold simBounded. cbn. repeat split; (discriminate || lia). }
  destruct H as (_ & _ & H). rewrite Forall_forall in H.
  apply (H (CmdNotify charId data)). apply list_elem_of_In. exact Hin.
Qed.

End WireFacts.


(** ** A sample session *)

Lemma sampleSine_range x : (-1 <= sampleSine x)%Q /\ (sampleSine x <= 1)%Q.
Proof. split; discriminate. Qed.

Section SessionExamples.


Lemma phase_timer_implies_telemetry_witness :
  match sampleEngine with
  | Some e' =>
      phaseTimer e' = Some 25000 /\ shotTimerActive e' = true /\ 0 < 25000
  | None => False
  end.
Proof.
  destruct sampleEngine as [e'|] eqn:E.
  - assert (P : phaseTimer e' = Some 25000).
    { vm_compute in E. injection E as <-. reflexivity. }
    split; [exact P|].
    apply (phase_timer_implies_telemetry sampleSine sampleJson
             list_byte_of_string sampleSession e' 25000 E P).
  - vm_compute in E. discriminate E.
Defined.

Lemma frame_count_matches_header_witness :
  match sampleEngine with
  | Some e' =>
      numFrames (m_profileHeader e') = 2
      /\ Z.of_nat (length (m_profileFrames e'))
         = numFrames (m_profileHeader e')
      /\ (length (m_profileFrames e') <= 255)%nat
  | None => False
  end.
Proof.
  destruct sampleEngine as [e'|] eqn:E.
  - split.
    + vm_compute in E. injection E as <-. reflexivity.
    + apply (frame_count_matches_header sampleSine sampleJson
               list_byte_of_string sampleSession e' E).
  - vm_compute in E. discriminate E.
Defined.

Lemma notifications_fit_registry_witness :
  match sampleEngine with
  | Some e' =>
      In (CmdNotify DE1.CHAR_WATER_LEVELS [x19; x00]) (socketOut e')
      /\ exists initial ps,
           PiDaemon.createDE1Service !! DE1.CHAR_WATER_LEVELS = Some initial
           /\ length [x19; x00] = length initial
           /\ Registry.piProperties !! DE1.CHAR_WATER_LEVELS = Some ps
           /\ In Registry.Notify ps
  | None => False
  end.
Proof.
  destruct sampleEngine as [e'|] eqn:E.
  - assert (P : In (CmdNotify DE1.CHAR_WATER_LEVELS [x19; x00])
                  (socketOut e')).
    { vm_compute in E. injection E as <-. cbn. tauto. }
    split; [exact P|].
    apply (notifications_fit_registry sampleSine sampleJson
             list_byte_of_string sampleSession e' E _ _ P).
  - vm_compute in E. discriminate E.
Defined.

Lemma simulated_values_bounded_witness :
  match sampleEngine with
  | Some e' => simBounded (sim e')
  | None => False
  end.
Proof.
  destruct sampleEngine as [e'|] eqn:E.
  - apply (simulated_values_bounded sampleSine sampleJson
             list_byte_of_string sampleSine_range sampleSession e'
             eq_refl E).
  - vm_compute in E. discriminate E.
Defined.

Lemma wire_samples_in_range_witness :
  match sampleEngine with
  | Some e' =>
      exists data,
        In (CmdNotify DE1.CHAR_SHOT_SAMPLE data) (socketOut e')
        /\ sampleInRange data
  | None => False
  end.
Proof.
  destruct sampleEngine as [e'|] eqn:E.
  - assert (P : exists data,
                  In (CmdNotify DE1.CHAR_SHOT_SAMPLE data) (socketOut e')
                  /\ last (socketOut e')
                     = Some (CmdNotify DE1.CHAR_SHOT_SAMPLE data)).
    { vm_compute in E. injection E as <-. cbn. eexists.
      split; [|reflexivity]. tauto. }
    destruct P as (data & P & _). exists data. split; [exact P|].
    apply (wire_samples_in_range sampleSine sampleJson
             list_byte_of_string sampleSine_range sampleSession e'
             eq_refl E _ _ P).
    reflexivity.
  - vm_compute in E. discriminate E.
Defined.

Lemma relayed_notifications_stored_witness :
  match sampleEngine with
  | Some e' =>
      characteristics
        (PiDaemon.run
           (relay string_of_list_byte list_byte_of_string (socketOut e'))
           (PiDaemon.onTcpConnection 1 PiDaemon.boot))
      = stored (socketOut e') PiDaemon.createDE1Service
  | None => False
  end.
Proof.
  destruct sampleEngine as [e'|] eqn:E.
  - apply (relayed_notifications_stored sampleSine sampleJson
             string_of_list_byte list_byte_of_string
             list_byte_of_string_of_list_byte sampleSession e' 1 E).
  - vm_compute in E. discriminate E.
Defined.

Lemma operator_configurations_closed_witness :
  match EventLoop.run sampleSine sampleJson list_byte_of_string
          [ EventLoop.EvSteamClicked; EventLoop.EvTimer ShotTick;
            EventLoop.EvStopClicked; EventLoop.EvPowerClicked ]
          (onConnected (with_socket true initialEngine)) with
  | Some e' => configuration e' ∈ operatorConfigurations
  | None => False
  end.
Proof.
  destruct (EventLoop.run sampleSine sampleJson list_byte_of_string
              [ EventLoop.EvSteamClicked; EventLoop.EvTimer ShotTick;
                EventLoop.EvStopClicked; EventLoop.EvPowerClicked ]
              (onConnected (with_socket true initialEngine)))
    as [e'|] eqn:E.
  - apply (operator_configurations_closed sampleSine sampleJson
             list_byte_of_string
             [ EventLoop.EvSteamClicked; EventLoop.EvTimer ShotTick;
               EventLoop.EvStopClicked; EventLoop.EvPowerClicked ]
             (onConnected (with_socket true initialEngine)) e');
      [ repeat constructor | vm_compute; left | exact E ].
  - vm_compute in E. discriminate E.
Defined.

(** Nine ticks of 0.2 s make 1.7999999999999998 s in double
    arithmetic, so the ninth sample of a run carries a timer of 179
    hundredths, not 180. *)
Example timer_after_nine_ticks :
  BinaryCodec.cast_uint 16
    (Double.mul
       (Nat.iter 9 (fun t => Double.add t (Double.round64 (2 # 10))) 0%Q)
       100)
  = 179.
Proof. vm_compute. reflexivity. Qed.

End SessionExamples.


Section MoreExamples.

(** A BLE write, a central connecting and a command, before any
    Controller is accepted. *)
Lemma agent_events_appended_or_dropped_witness :
  let inputs :=
    [ InCharChanged DE1.CHAR_REQUESTED_STATE [x04];
      InBleConnected "AA:BB:CC:DD:EE:FF";
      InCommand AStart ] in
  toWindows (PiDaemon.run inputs PiDaemon.boot) = []
  /\ toWindows (EmbeddedDaemon.run inputs PiDaemon.boot) = [].
Proof.
  cbv zeta.
  apply (proj2 (agent_events_appended_or_dropped
                  [ InCharChanged DE1.CHAR_REQUESTED_STATE [x04];
                    InBleConnected "AA:BB:CC:DD:EE:FF";
                    InCommand AStart ] PiDaemon.boot)).
  - repeat constructor.
  - reflexivity.
Defined.

(** A profile of two frames; the primary write of frame 0 and its
    extension in either order, and the primary write sent twice. *)
Lemma frame_writes_order_witness :
  let e := handleHeaderWrite [x01; x02; x00; x00; x00] initialEngine in
  let primary := [x00; x01; x48; xba; x1e; x00; x00; x00] in
  let primary' := [x00; x00; x60; xb4; x0a; x00; x00; x00] in
  let extension := [x20; x30; x08; x00; x00; x00; x00; x00] in
  m_profileFrames (handleFrameWrite primary (handleFrameWrite extension e))
  = m_profileFrames (handleFrameWrite extension (handleFrameWrite primary e))
  /\ m_profileFrames (handleFrameWrite primary (handleFrameWrite primary' e))
     = m_profileFrames (handleFrameWrite primary e).
Proof.
  cbv zeta. split.
  - apply (proj1 (frame_writes_order
                    [x00; x01; x48; xba; x1e; x00; x00; x00]
                    [x20; x30; x08; x00; x00; x00; x00; x00]
                    (handleHeaderWrite [x01; x02; x00; x00; x00]
                       initialEngine))).
    vm_compute. discriminate.
  - apply (proj2 (frame_writes_order
                    [x00; x00; x60; xb4; x0a; x00; x00; x00]
                    [x00; x01; x48; xba; x1e; x00; x00; x00]
                    (handleHeaderWrite [x01; x02; x00; x00; x00]
                       initialEngine))).
    + reflexivity.
    + simpl. lia.
Defined.

(** The text of a byte array for its hexadecimal form: a STATE_INFO
    notification crosses to the agent and is stored. *)
Lemma bridge_roundtrip_witness :
  Bridge.parseCommand list_byte_of_string
    (Bridge.commandObject string_of_list_byte
       (CmdNotify DE1.CHAR_STATE_INFO [x04; x01]))
  = ANotify DE1.CHAR_STATE_INFO [x04; x01]
  /\ characteristics
       (PiDaemon.handleCommand
          (Bridge.parseCommand list_byte_of_string
             (Bridge.commandObject string_of_list_byte
                (CmdNotify DE1.CHAR_STATE_INFO [x04; x01])))
          (PiDaemon.onTcpConnection 1 PiDaemon.boot))
     = <[DE1.CHAR_STATE_INFO := [x04; x01]]> PiDaemon.createDE1Service.
Proof.
  pose proof (bridge_roundtrip string_of_list_byte list_byte_of_string
                list_byte_of_string_of_list_byte) as (_ & P & S).
  split; [apply P|].
  apply (S DE1.CHAR_STATE_INFO [x04; x01]
           (PiDaemon.onTcpConnection 1 PiDaemon.boot)).
  - reflexivity.
  - exists [x02; x00]. vm_compute. reflexivity.
Defined.

End MoreExamples.

